(** * Port-binding event monitor of the guest agent (containerd back end)

    A shallow embedding of the Go package [containerd] that watches the
    containerd event API, keeps the port tracker up to date and appends
    the loopback DNAT rules with iptables.

    Conventions of the embedding:
    - a Go [string] is a [string] (a sequence of bytes);
    - a Go [int] / [uint32] is a [Z];
    - a Go [error] result is an [option error], [None] being [nil];
    - a Go map value is an [option (gmap _ _)], [None] being the nil map;
    - a slice is a [list];
    - everything outside the process (external commands, the containerd
      client, the tracker implementation) is reached through an oracle
      acting on an abstract world, and every such interaction is
      recorded in a trace. *)

From stdpp Require Import gmap strings list fin_maps.
From Stdlib Require Import ZArith DecimalString Ascii.

Open Scope string_scope.
Open Scope list_scope.
Set Warnings "-register-all".

(** ** Go values *)

(** Error values.  The two sentinels are the package's own; the next
    constructors stand for the error values produced by the libraries the
    package calls (each carries the library's message); the last three
    are the ways the package combines errors. *)
Inductive error : Type :=
| ErrExecIptablesRule
| ErrIPAddressNotFound
| ErrExec (msg : string)
| ErrJSON (msg : string)
| ErrPort (msg : string)
| ErrProto (msg : string)
| ErrAPI (msg : string)
| ErrTracker (msg : string)
| ErrContext (msg : string)
| Errorf (format : string) (args : list string) (wrapped : error)
| ErrorfList (wrapped : error) (errs : list error)
| Join (errs : list error).

(** [errors.Join]: nil when there is nothing to join. *)
Definition errors_Join (errs : list error) : option error :=
  match errs with
  | [] => None
  | _ :: _ => Some (Join errs)
  end.

(** [strconv.Itoa]. *)
Definition Itoa (n : Z) : string := NilZero.string_of_int (Z.to_int n).

(** ** The [nat] package of go-connections *)

Record PortBinding : Type := mkPortBinding {
  HostIP : string;
  HostPort : string;
}.

#[global] Instance PortBinding_eq_dec : EqDecision PortBinding.
Proof. solve_decision. Defined.

(** [nat.PortMap] is [map[nat.Port][]nat.PortBinding], and [nat.Port] is a
    string of the form [port/proto]. *)
Abbreviation PortTable := (gmap string (list PortBinding)).
Abbreviation PortMap := (option (gmap string (list PortBinding))).

(** [len] of a map value; the nil map has length 0. *)
Definition len (pm : PortMap) : nat :=
  match pm with
  | None => 0
  | Some m => size m
  end.

(** [nat.NewPort(proto, strconv.Itoa(port))].  The library parses the
    port text as an unsigned 16-bit number (a leading minus sign makes it
    a malformed range) and formats the key as [port/proto]. *)
Definition nat_NewPort (proto : string) (port : Z) : error + string :=
  if decide (0 ≤ port ≤ 65535)%Z
  then inr (Itoa port +:+ "/" +:+ proto)
  else inl (ErrPort (Itoa port)).

(** [nat.Port.Port]: the text before the first slash. *)
Fixpoint Port_Port (p : string) : string :=
  match p with
  | EmptyString => EmptyString
  | String c p' => if Ascii.eqb c "/" then EmptyString else String c (Port_Port p')
  end.

(** [nat.Port.Proto]: the text after the first slash, [tcp] when there is
    none. *)
Fixpoint after_slash (p : string) : string :=
  match p with
  | EmptyString => EmptyString
  | String c p' => if Ascii.eqb c "/" then p' else after_slash p'
  end.

Definition Port_Proto (p : string) : string :=
  if decide (after_slash p = "") then "tcp" else after_slash p.

(** ** Labels and the ports label *)

Definition namespaceKey : string := "nerdctl/namespace".
Definition portsKey : string := "nerdctl/ports".
Definition networkKey : string := "nerdctl/networks".

(** Container labels, [map[string]string]; indexing a missing key (or the
    nil map) yields the empty string. *)
Abbreviation Labels := (gmap string string).

Definition label (labels : Labels) (key : string) : string :=
  default "" (labels !! key).

(** An entry of the [nerdctl/ports] label. *)
Record Port : Type := mkPort {
  p_HostPort : Z;
  p_ContainerPort : Z;
  p_Protocol : string;
  p_HostIP : string;
}.

Definition NormalizeHostIP (ip : string) : string :=
  if bool_decide (ip = "127.0.0.1") || bool_decide (ip = "localhost")
  then ip
  else "0.0.0.0".

Section Extractor.

(** [json.Unmarshal] into a [[]Port]: the decoded entries, or the
    decoder's message. *)
Variable json_Unmarshal_Ports : string → string + list Port.

(** The loop over the decoded entries, with its early return. *)
Fixpoint addPorts (ports : list Port) (portMap : PortTable) : error + PortTable :=
  match ports with
  | [] => inr portMap
  | port :: rest =>
      match nat_NewPort (p_Protocol port) (p_ContainerPort port) with
      | inl err => inl err
      | inr portMapKey =>
          let portBinding :=
            {| HostIP := NormalizeHostIP (p_HostIP port);
               HostPort := Itoa (p_HostPort port) |} in
          match portMap !! portMapKey with
          | Some pb => addPorts rest (<[portMapKey := pb ++ [portBinding]]> portMap)
          | None => addPorts rest (<[portMapKey := [portBinding]]> portMap)
          end
      end
  end.

Definition createPortMappingFromString (portMapping : string) : PortMap * option error :=
  if decide (String.length portMapping = 0) then (Some ∅, None)
  else
    match json_Unmarshal_Ports portMapping with
    | inl msg => (None, Some (ErrJSON msg))
    | inr ports =>
        match addPorts ports ∅ with
        | inl err => (None, Some err)
        | inr portMap => (Some portMap, None)
        end
    end.

End Extractor.

(** ** The address pattern of the host IP resolver

    [regexp.MustCompile(`\binet\s+(\d{1,3}\.\d{1,3}\.\d{1,3}\.\d{1,3})\/\d{1,2}`)]
    and [FindStringSubmatch], written as a scanner over the bytes of the
    subject.  Every repetition of the pattern is followed by a byte
    outside its class (or ends the pattern), so the greedy choice is the
    only one that can succeed and the scanner needs no backtracking. *)
Module Rx.

Definition is_digit (c : ascii) : bool :=
  ((48 <=? nat_of_ascii c) && (nat_of_ascii c <=? 57))%nat.

(** [\s] is [\t\n\f\r ]. *)
Definition is_space (c : ascii) : bool :=
  let n := nat_of_ascii c in
  ((n =? 9) || (n =? 10) || (n =? 12) || (n =? 13) || (n =? 32))%nat.

(** The word bytes of [\b]: [0-9A-Za-z_]. *)
Definition is_word (c : ascii) : bool :=
  let n := nat_of_ascii c in
  (is_digit c || ((65 <=? n) && (n <=? 90)) || ((97 <=? n) && (n <=? 122)) || (n =? 95))%nat.

(** The longest prefix of [s], of at most [k] bytes, on which [p] holds,
    and what follows it. *)
Fixpoint span_upto (p : ascii → bool) (k : nat) (s : list ascii) : list ascii * list ascii :=
  match k, s with
  | S k', c :: s' =>
      if p c then let '(d, r) := span_upto p k' s' in (c :: d, r) else ([], s)
  | _, _ => ([], s)
  end.

(** All the bytes at the head of [s] on which [p] holds. *)
Fixpoint span (p : ascii → bool) (s : list ascii) : list ascii * list ascii :=
  match s with
  | c :: s' => if p c then let '(d, r) := span p s' in (c :: d, r) else ([], s)
  | [] => ([], [])
  end.

(** A literal at the head of [s]. *)
Fixpoint literal (lit s : list ascii) : option (list ascii) :=
  match lit, s with
  | [], _ => Some s
  | a :: lit', c :: s' => if Ascii.eqb a c then literal lit' s' else None
  | _ :: _, [] => None
  end.

(** [\d{1,3}] followed by the byte [sep]. *)
Definition octet_then (sep : ascii) (s : list ascii) : option (list ascii * list ascii) :=
  match span_upto is_digit 3 s with
  | ((_ :: _) as d, c :: r) => if Ascii.eqb c sep then Some (d, r) else None
  | _ => None
  end.

Definition dot : ascii := ".".
Definition slash : ascii := "/".
Definition inet : list ascii := String.list_ascii_of_string "inet".

(** The pattern after its [\b], anchored at the head of [s]: the whole
    match and the capture group. *)
Definition match_here (s : list ascii) : option (list ascii * list ascii) :=
  r0 ← literal inet s;
  let ws := (span is_space r0).1 in
  if decide (ws = []) then None
  else
    x ← octet_then dot (span is_space r0).2;
    y ← octet_then dot x.2;
    z ← octet_then dot y.2;
    t ← octet_then slash z.2;
    let pl := (span_upto is_digit 2 t.2).1 in
    if decide (pl = []) then None
    else
      let ip := x.1 ++ dot :: y.1 ++ dot :: z.1 ++ dot :: t.1 in
      Some (inet ++ ws ++ ip ++ slash :: pl, ip).

(** [\b] just before a word byte: the previous byte is missing or is
    not a word byte. *)
Definition boundary (prev : option ascii) : bool :=
  match prev with
  | None => true
  | Some c => negb (is_word c)
  end.

Definition match_at (prev : option ascii) (s : list ascii) : option (list ascii * list ascii) :=
  if boundary prev then match_here s else None.

(** The leftmost match. *)
Fixpoint find (prev : option ascii) (s : list ascii) : option (list ascii * list ascii) :=
  match match_at prev s with
  | Some m => Some m
  | None =>
      match s with
      | [] => None
      | c :: s' => find (Some c) s'
      end
  end.

(** [rx.FindStringSubmatch]: nil, or the whole match followed by the
    capture group. *)
Definition FindStringSubmatch (s : string) : list string :=
  match find None (String.list_ascii_of_string s) with
  | None => []
  | Some (whole, ip) => [String.string_of_list_ascii whole; String.string_of_list_ascii ip]
  end.

End Rx.

(** ** The outside world *)

(** What the package does to the outside, in the order it does it. *)
Inductive Event : Type :=
| EvExec (argv : list string)
| EvTrackerAdd (containerID : string) (portMap : PortMap)
| EvTrackerRemove (containerID : string)
| EvTrackerRemoveAll
| EvClientClose
| EvErrorf (format : string) (args : list string) (err : error)
| EvDebugf (format : string) (args : list string).

(** [containerd.ProcessStatus]. *)
Inductive ProcessStatus : Type :=
| Running | Created | Stopped | Paused | Pausing | Unknown.

#[global] Instance ProcessStatus_eq_dec : EqDecision ProcessStatus.
Proof. solve_decision. Defined.

(** The operating system and the containerd client, as an oracle over a
    world [W].  A failure carries the library's message.
    - [exec_CombinedOutput argv]: [exec.Command(argv...).CombinedOutput()];
    - [exec_Run argv]: [Run()] of a command whose [Stderr] is a buffer,
      giving the buffer's content;
    - [ContainerService_Get id]: the labels of the container record;
    - [Containers]: the identifiers of the containers listed;
    - [Container_Task id]: the pid of the container's task;
    - [Task_Status id]: the status of that task;
    - [Container_Labels id]: the labels of the container. *)
Record Host (W : Type) : Type := mkHost {
  exec_CombinedOutput : list string → W → (string * option string) * W;
  exec_Run : list string → W → (string * option string) * W;
  ContainerService_Get : string → W → (string + Labels) * W;
  Containers : W → (string + list string) * W;
  Container_Task : string → W → (string + Z) * W;
  Task_Status : string → W → (string + ProcessStatus) * W;
  Container_Labels : string → W → (string + Labels) * W;
  Client_Close : W → option string * W;
}.
Arguments exec_CombinedOutput {W}.
Arguments exec_Run {W}.
Arguments ContainerService_Get {W}.
Arguments Containers {W}.
Arguments Container_Task {W}.
Arguments Task_Status {W}.
Arguments Container_Labels {W}.
Arguments Client_Close {W}.

(** The interface [tracker.Tracker], over the tracker's state [T]. *)
Class Tracker (T : Type) : Type := {
  Add : string → PortMap → T → option error * T;
  Get : string → T → PortMap;
  Remove : string → T → option error * T;
  RemoveAll : T → option error * T;
}.

(** The event envelope and the event types the monitor decodes (the
    fields it reads). *)
Record Envelope : Type := mkEnvelope {
  Topic : string;
  Namespace : string;
  Event_Value : string;
}.

Record TaskStart : Type := mkTaskStart {
  ts_ContainerID : string;
  ts_Pid : Z;
}.

Record ContainerUpdate : Type := mkContainerUpdate {
  cu_ID : string;
}.

Record TaskExit : Type := mkTaskExit {
  te_ContainerID : string;
}.

(** What the [select] of the monitor loop receives: the context is done,
    a message arrives, or the subscription reports an error. *)
Inductive Select : Type :=
| CtxDone (err : error)
| Msg (envelope : Envelope)
| SubErr (err : error).

(** [exec.Cmd.String] of a command whose program name was not resolved to
    a path: the arguments joined by spaces.  Where the lookup of the
    program succeeded, Go prints the resolved path in place of the first
    argument.  The text is only used as an argument of a logged or
    returned message. *)
Definition Cmd_String (argv : list string) : string := String.concat " " argv.

Section Monitor.

Context {W T : Type} (host : Host W) `{Tracker T}.

(** Library functions the package calls:
    [json.Unmarshal] into a [[]Port] and into a [[]string];
    [utils.MustFormatChainNameWithPrefix] of the CNI plugins;
    the order in which a [range] visits the entries of a port map,
    which Go leaves unspecified. *)
Context (json_Unmarshal_Ports : string → string + list Port)
        (json_Unmarshal_Strings : string → string + list string)
        (MustFormatChainNameWithPrefix : string → string → string → string)
        (range : PortTable → list (string * list PortBinding)).

(** [proto.Unmarshal] of an event payload into each of the three event
    types: the message as the decoder left it, and the decoder's
    failure if any. *)
Context (Unmarshal_TaskStart : string → TaskStart * option string)
        (Unmarshal_ContainerUpdate : string → ContainerUpdate * option string)
        (Unmarshal_TaskExit : string → TaskExit * option string).

(** *** State and trace *)

Record State : Type := mkState { world : W; tracker : T }.

Definition M (A : Type) : Type := State → A * State * list Event.

#[local] Instance M_ret : MRet M := λ A a s, (a, s, []).
#[local] Instance M_bind : MBind M := λ A B f m s,
  let '(a, s1, l1) := m s in
  let '(b, s2, l2) := f a s1 in
  (b, s2, l1 ++ l2).

Definition emit (e : Event) : M unit := λ s, (tt, s, [e]).

Definition log_Errorf (format : string) (args : list string) (err : error) : M unit :=
  emit (EvErrorf format args err).
Definition log_Debugf (format : string) (args : list string) : M unit :=
  emit (EvDebugf format args).

(** Logging guarded by [if err != nil]: what it leaves in the trace. *)
Definition logged (format : string) (args : list string) (err : option error) : list Event :=
  match err with
  | Some e => [EvErrorf format args e]
  | None => []
  end.

Definition log_if_err (format : string) (args : list string) (err : option error) : M unit :=
  λ s, (tt, s, logged format args err).

Definition CombinedOutput (argv : list string) : M (string * option error) := λ s,
  let r := exec_CombinedOutput host argv (world s) in
  ((r.1.1, ErrExec <$> r.1.2), mkState r.2 (tracker s), [EvExec argv]).

Definition Run (argv : list string) : M (string * option error) := λ s,
  let r := exec_Run host argv (world s) in
  ((r.1.1, ErrExec <$> r.1.2), mkState r.2 (tracker s), [EvExec argv]).

Definition portTracker_Get (containerID : string) : M PortMap := λ s,
  (Get containerID (tracker s), s, []).

Definition portTracker_Add (containerID : string) (portMap : PortMap) : M (option error) := λ s,
  let r := Add containerID portMap (tracker s) in
  (r.1, mkState (world s) r.2, [EvTrackerAdd containerID portMap]).

Definition portTracker_Remove (containerID : string) : M (option error) := λ s,
  let r := Remove containerID (tracker s) in
  (r.1, mkState (world s) r.2, [EvTrackerRemove containerID]).

Definition portTracker_RemoveAll : M (option error) := λ s,
  let r := RemoveAll (tracker s) in
  (r.1, mkState (world s) r.2, [EvTrackerRemoveAll]).

(** A call of the containerd client; it leaves no event in the trace. *)
Definition client {A : Type} (call : W → (string + A) * W) : M (error + A) := λ s,
  let r := call (world s) in
  (match r.1 with inl msg => inl (ErrAPI msg) | inr a => inr a end,
   mkState r.2 (tracker s), []).

(** *** Host IP resolver *)

Definition nsenter_argv (pid : string) : list string :=
  ["nsenter"; "-t"; pid; "-n"; "ip"; "-o"; "-4"; "addr"; "show"; "dev"; "eth0"].

Definition extractIPAddress (pid : string) : M (string * option error) :=
  r ← CombinedOutput (nsenter_argv pid);
  let output := r.1 in
  match r.2 with
  | Some e => mret ("", Some e)
  | None =>
      let matches := Rx.FindStringSubmatch output in
      let segments := 2 in
      if decide (length matches < segments) then mret ("", Some ErrIPAddressNotFound)
      else mret (nth 1 matches "", None)
  end.

(** *** Firewall rule synchronizer *)

Definition iptables_argv (chainName destinationPort eth0IP port : string) : list string :=
  ["iptables";
   "--table"; "nat";
   "--append"; chainName;
   "--protocol"; "tcp";
   "--destination"; "0.0.0.0/0";
   "--jump"; "DNAT";
   "--dport"; destinationPort;
   "--to-destination"; eth0IP +:+ ":" +:+ port].

(** The loop [for _, network := range networks]. *)
Fixpoint loopNetworks (networks : list string)
    (containerID cID eth0IP port destinationPort : string)
    (allErrs : list error) : M (list error) :=
  match networks with
  | [] => mret allErrs
  | network :: rest =>
      let chainName := MustFormatChainNameWithPrefix network cID "DN-" in
      let argv := iptables_argv chainName destinationPort eth0IP port in
      r ← Run argv;
      let stderr := r.1 in
      let allErrs :=
        match r.2 with
        | Some e =>
            allErrs ++ [Errorf "running iptables rule [%s] failed: %w - %s"
                               [Cmd_String argv; stderr] e]
        | None => allErrs
        end in
      log_Debugf "running the following loopback rule [%s] in chain: %s for containerID: %s"
                 [Cmd_String argv; chainName; containerID];;
      loopNetworks rest containerID cID eth0IP port destinationPort allErrs
  end.

Definition createLoopbackIPtablesRules (networks : list string)
    (containerID namespace pid port destinationPort : string) : M (option error) :=
  r ← extractIPAddress pid;
  let eth0IP := r.1 in
  match r.2 with
  | Some e => mret (Some e)
  | None =>
      log_Debugf "found the ip address: %s for containerID: %s" [eth0IP; containerID];;
      let cID := namespace +:+ "-" +:+ containerID in
      allErrs ← loopNetworks networks containerID cID eth0IP port destinationPort [];
      if decide (length allErrs ≠ 0) then mret (errors_Join allErrs)
      else mret None
  end.

(** The loop [for _, portBinding := range portBindings]. *)
Fixpoint loopBindings (portBindings : list PortBinding) (portProto : string)
    (containerNetworks : list string) (containerID namespace pid : string)
    (errs : list error) : M (list error) :=
  match portBindings with
  | [] => mret errs
  | portBinding :: rest =>
      if decide (HostIP portBinding = "127.0.0.1") then
        err ← createLoopbackIPtablesRules containerNetworks containerID namespace pid
                (Port_Port portProto) (HostPort portBinding);
        let errs := match err with Some e => errs ++ [e] | None => errs end in
        loopBindings rest portProto containerNetworks containerID namespace pid errs
      else
        loopBindings rest portProto containerNetworks containerID namespace pid errs
  end.

(** The loop [for portProto, portBindings := range portMappings]. *)
Fixpoint loopPortMappings (entries : list (string * list PortBinding))
    (containerNetworks : list string) (containerID namespace pid : string)
    (errs : list error) : M (list error) :=
  match entries with
  | [] => mret errs
  | (portProto, portBindings) :: rest =>
      errs ← loopBindings portBindings portProto containerNetworks containerID namespace pid errs;
      loopPortMappings rest containerNetworks containerID namespace pid errs
  end.

(** The entries a [range] over a port map visits; none for the nil map. *)
Definition range_PortMap (portMappings : PortMap) : list (string * list PortBinding) :=
  match portMappings with
  | None => []
  | Some m => range m
  end.

Definition execIptablesRules (portMappings : PortMap)
    (containerID networks namespace pid : string) : M (option error) :=
  match json_Unmarshal_Strings networks with
  | inl msg =>
      mret (errors_Join [Errorf "unmarshaling container networks: %w" [] (ErrJSON msg)])
  | inr containerNetworks =>
      errs ← loopPortMappings (range_PortMap portMappings)
               containerNetworks containerID namespace pid [];
      if decide (length errs ≠ 0) then mret (Some (ErrorfList ErrExecIptablesRule errs))
      else mret None
  end.

(** *** Event subscriber *)

Definition proto_err (err : option string) : option error := ErrProto <$> err.

(** The labels of a looked-up container; the zero container of a failed
    lookup has none. *)
Definition labels_of (r : error + Labels) : Labels :=
  match r with
  | inl _ => ∅
  | inr labels => labels
  end.

Definition err_of {A : Type} (r : error + A) : option error :=
  match r with
  | inl e => Some e
  | inr _ => None
  end.

(** [reflect.DeepEqual] on two port maps: both nil or both not, the same
    number of keys, and under every key of the first a slice that is
    element by element, in order, the slice the second has there.  (A
    slice being a list, a nil slice and an empty one are not told apart;
    the port maps the extractor builds hold no empty slice, and the
    monitor only ever compares with one of those.) *)
Definition DeepEqual_PortTable (m1 m2 : PortTable) : bool :=
  bool_decide (size m1 = size m2)
  && forallb (λ '(k, v1),
                match m2 !! k with
                | Some v2 => bool_decide (v1 = v2)
                | None => false
                end) (map_to_list m1).

Definition DeepEqual (p1 p2 : PortMap) : bool :=
  match p1, p2 with
  | None, None => true
  | Some m1, Some m2 => DeepEqual_PortTable m1 m2
  | _, _ => false
  end.

(** [case "/tasks/start"]. *)
Definition onTaskStart (envelope : Envelope) : M unit :=
  let startTask := (Unmarshal_TaskStart (Event_Value envelope)).1 in
  let err := (Unmarshal_TaskStart (Event_Value envelope)).2 in
  log_if_err "failed to unmarshal container's start task: %v" [] (proto_err err);;
  container ← client (ContainerService_Get host (ts_ContainerID startTask));
  log_if_err "failed to get the container %s from namespace: %s failed: %s"
             [ts_ContainerID startTask; Namespace envelope] (err_of container);;
  let r :=
    createPortMappingFromString json_Unmarshal_Ports (label (labels_of container) portsKey) in
  let ports := r.1 in
  let err := r.2 in
  log_if_err "failed to create port mapping from container's start task: %v" [] err;;
  if decide (len ports = 0) then mret tt
  else
    err ← execIptablesRules ports (ts_ContainerID startTask)
            (label (labels_of container) networkKey) (Namespace envelope)
            (Itoa (ts_Pid startTask));
    log_if_err "failed running iptable rules to update DNAT rule in CNI-HOSTPORT-DNAT chain: %v"
               [] err;;
    err ← portTracker_Add (ts_ContainerID startTask) ports;
    log_if_err "adding port mapping to tracker failed: %v" [] err.

(** [case "/containers/update"]. *)
Definition onContainerUpdate (envelope : Envelope) : M unit :=
  let cuEvent := (Unmarshal_ContainerUpdate (Event_Value envelope)).1 in
  let err := (Unmarshal_ContainerUpdate (Event_Value envelope)).2 in
  log_if_err "failed to unmarshal container update event: %v" [] (proto_err err);;
  container ← client (ContainerService_Get host (cu_ID cuEvent));
  log_if_err "failed to get the container %s from namespace: %s failed: %s"
             [cu_ID cuEvent; Namespace envelope] (err_of container);;
  let r :=
    createPortMappingFromString json_Unmarshal_Ports (label (labels_of container) portsKey) in
  let ports := r.1 in
  let err := r.2 in
  log_if_err "failed to create port mapping from container's start task: %v" [] err;;
  if decide (len ports = 0) then mret tt
  else
    existingPortMap ← portTracker_Get (cu_ID cuEvent);
    match existingPortMap with
    | Some _ =>
        if negb (DeepEqual ports existingPortMap) then
          err ← portTracker_Remove (cu_ID cuEvent);
          log_if_err "failed to remove port mapping from container update event: %v" [] err;;
          err ← portTracker_Add (cu_ID cuEvent) ports;
          log_if_err "failed to add port mapping from container update event: %v" [] err
        else mret tt
    | None =>
        err ← portTracker_Add (cu_ID cuEvent) ports;
        log_if_err "failed to add port mapping from container update event: %v" [] err
    end.

(** [case "/tasks/exit"]. *)
Definition onTaskExit (envelope : Envelope) : M unit :=
  let exitTask := (Unmarshal_TaskExit (Event_Value envelope)).1 in
  let err := (Unmarshal_TaskExit (Event_Value envelope)).2 in
  log_if_err "failed to unmarshal container's exit task: %v" [] (proto_err err);;
  portMapToDelete ← portTracker_Get (te_ContainerID exitTask);
  match portMapToDelete with
  | Some _ =>
      err ← portTracker_Remove (te_ContainerID exitTask);
      log_if_err "removing port mapping from tracker failed: %v" [] err
  | None => mret tt
  end.

(** [case envelope := <-msgCh]: the switch on the topic. *)
Definition onEnvelope (envelope : Envelope) : M unit :=
  log_Debugf "received an event: %+v" [Topic envelope];;
  if decide (Topic envelope = "/tasks/start") then onTaskStart envelope
  else if decide (Topic envelope = "/containers/update") then onContainerUpdate envelope
  else if decide (Topic envelope = "/tasks/exit") then onTaskExit envelope
  else mret tt.

(** The loop of [MonitorPorts] over what its [select] receives, one
    after the other; it returns on a done context and on a subscription
    error.  (The reconciliation that [MonitorPorts] starts in a
    goroutine of its own is [initializeRunningContainers] below.) *)
Fixpoint MonitorPorts (received : list Select) : M unit :=
  match received with
  | [] => mret tt
  | CtxDone err :: _ => log_Errorf "context cancellation: %v" [] err
  | Msg envelope :: rest => onEnvelope envelope;; MonitorPorts rest
  | SubErr err :: _ => log_Errorf "receiving container event failed: %v" [] err
  end.

(** *** Startup reconciler *)

(** The body of the loop over the listed containers. *)
Definition initializeContainer (cID : string) : M unit :=
  existing ← portTracker_Get cID;
  if decide (len existing ≠ 0) then mret tt
  else
    t ← client (Container_Task host cID);
    match t with
    | inl err => log_Errorf "failed getting container %s task: %s" [cID] err
    | inr pid =>
        status ← client (Task_Status host cID);
        match status with
        | inl err => log_Errorf "failed getting container %s task status: %s" [cID] err
        | inr status =>
            if decide (status ≠ Running) then mret tt
            else
              labels ← client (Container_Labels host cID);
              match labels with
              | inl err => log_Errorf "failed getting container %s labels: %s" [cID] err
              | inr labels =>
                  let r :=
                    createPortMappingFromString json_Unmarshal_Ports (label labels portsKey) in
                  let ports := r.1 in
                  let err := r.2 in
                  log_if_err "failed to create port mapping for container %s: %v" [cID] err;;
                  if decide (len ports = 0) then mret tt
                  else
                    err ← execIptablesRules ports cID (label labels networkKey)
                            (label labels namespaceKey) (Itoa pid);
                    log_if_err
                      "failed running iptable rules to update DNAT rule in CNI-HOSTPORT-DNAT chain: %v"
                      [] err;;
                    err ← portTracker_Add cID ports;
                    match err with
                    | Some e => log_Errorf "adding port mapping to tracker failed: %v" [] e
                    | None =>
                        log_Debugf
                          "initialized container %s task status: %+v with ports: %+v" [cID]
                    end
              end
        end
    end.

Fixpoint initializeContainers (containers : list string) : M unit :=
  match containers with
  | [] => mret tt
  | c :: rest => initializeContainer c;; initializeContainers rest
  end.

Definition initializeRunningContainers : M unit :=
  containers ← client (Containers host);
  match containers with
  | inl err => log_Errorf "failed getting containers: %s" [] err
  | inr containers => initializeContainers containers
  end.

(** *** Close *)

Definition containerdClient_Close : M (option error) := λ s,
  let r := Client_Close host (world s) in
  (ErrAPI <$> r.1, mkState r.2 (tracker s), [EvClientClose]).

Definition Close : M (option error) :=
  cerr ← containerdClient_Close;
  let finalErr := Errorf "failed to close containerd client: %w" [] <$> cerr in
  terr ← portTracker_RemoveAll;
  match terr with
  | Some e => mret (Some (Errorf "failed to remove all ports from port tracker: %w" [] e))
  | None => mret finalErr
  end.

End Monitor.

(** ** Reading a trace *)

(** The external commands started, in order. *)
Definition exec_cmds (tr : list Event) : list (list string) :=
  omap (λ e, match e with EvExec argv => Some argv | _ => None end) tr.

(** The firewall commands among them. *)
Definition is_iptables (argv : list string) : bool :=
  match argv with
  | prog :: _ => bool_decide (prog = "iptables")
  | [] => false
  end.

Definition firewall_cmds (tr : list Event) : list (list string) :=
  List.filter is_iptables (exec_cmds tr).

(** The calls that change the tracker, in order. *)
Definition is_tracker_op (e : Event) : bool :=
  match e with
  | EvTrackerAdd _ _ | EvTrackerRemove _ | EvTrackerRemoveAll => true
  | _ => false
  end.

Definition tracker_ops (tr : list Event) : list Event :=
  List.filter is_tracker_op tr.

(** The errors logged, in order. *)
Definition logged_errors (tr : list Event) : list error :=
  omap (λ e, match e with EvErrorf _ _ err => Some err | _ => None end) tr.

(** The three components of a run. *)
Definition result_of {S A : Type} (r : A * S * list Event) : A := r.1.1.
Definition state_of {S A : Type} (r : A * S * list Event) : S := r.1.2.
Definition trace_of {S A : Type} (r : A * S * list Event) : list Event := r.2.

(** ** What the tracker is relied on for *)

(** The behaviour of a tracker that the monitor's bookkeeping depends on:
    a well-formedness condition on its states, kept by every change;
    adding a non-empty port map under an identifier that has no ports on
    record puts that port map on record; removing an identifier leaves
    nothing on record for it; a change under one identifier is not seen
    under another. *)
Class TrackerLaws (T : Type) `{Tracker T} : Type := {
  tracker_wf : T → Prop;
  Add_wf : ∀ id pm t, tracker_wf t → tracker_wf (Add id pm t).2;
  Remove_wf : ∀ id t, tracker_wf t → tracker_wf (Remove id t).2;
  Get_Add : ∀ id pm t,
    tracker_wf t → len (Get id t) = 0 → len pm ≠ 0 → Get id (Add id pm t).2 = pm;
  Get_Add_ne : ∀ id id' pm t, id ≠ id' → Get id' (Add id pm t).2 = Get id' t;
  Get_Remove : ∀ id t, Get id (Remove id t).2 = None;
  Get_Remove_ne : ∀ id id' t, id ≠ id' → Get id' (Remove id t).2 = Get id' t;
}.

(** Modelled from the spec: the implementation of [tracker.Tracker]
    (package [tracker] of the guest agent), of which the monitor only
    holds the interface.  The record of a container is its port map;
    [add] fails if an entry already exists for the container and is a
    no-op for empty mappings; [get] returns the absent (nil) map for an
    untracked container, never an error; [remove] removes the single
    container's entry; [remove-all] clears every record. *)
Module SpecTracker.

Abbreviation t := (gmap string (gmap string (list PortBinding))).

Definition add (id : string) (pm : PortMap) (tr : t) : option error * t :=
  match pm with
  | None => (None, tr)
  | Some m =>
      if decide (size m = 0) then (None, tr)
      else
        match tr !! id with
        | Some _ => (Some (ErrTracker "entry already exists"), tr)
        | None => (None, <[id := m]> tr)
        end
  end.

Definition get (id : string) (tr : t) : PortMap := tr !! id.

Definition remove (id : string) (tr : t) : option error * t := (None, delete id tr).

Definition removeAll (tr : t) : option error * t := (None, ∅).

(** A record exists only with a non-empty mapping set. *)
Definition wf (tr : t) : Prop := map_Forall (λ _ m, size m ≠ 0) tr.

#[global] Instance tracker : Tracker t := {|
  Add := add; Get := get; Remove := remove; RemoveAll := removeAll;
|}.

End SpecTracker.

(** ** The address pattern, declaratively *)

Module RxSpec.

(** [\d{1,k}]: between one and [k] digits. *)
Definition digits (k : nat) (s : list ascii) : Prop :=
  (1 ≤ length s ≤ k)%nat ∧ Forall (λ c, Rx.is_digit c = true) s.

(** [\s+]. *)
Definition spaces (s : list ascii) : Prop :=
  s ≠ [] ∧ Forall (λ c, Rx.is_space c = true) s.

(** [\d{1,3}\.\d{1,3}\.\d{1,3}\.\d{1,3}]. *)
Definition dotted_quad (ip : list ascii) : Prop :=
  ∃ a b c d, ip = a ++ Rx.dot :: b ++ Rx.dot :: c ++ Rx.dot :: d
             ∧ digits 3 a ∧ digits 3 b ∧ digits 3 c ∧ digits 3 d.

(** The pattern after its [\b] matches a prefix of [s] with capture
    group [ip]. *)
Definition matches_here (s ip : list ascii) : Prop :=
  ∃ ws pl rest,
    s = Rx.inet ++ ws ++ ip ++ Rx.slash :: pl ++ rest
    ∧ spaces ws ∧ dotted_quad ip ∧ digits 2 pl.

(** [\b] holds between [pre] and a word byte that follows it. *)
Definition at_boundary (pre : list ascii) : Prop :=
  Rx.boundary (last pre) = true.

(** The pattern matches in [s] at offset [length pre], with capture
    group [ip]. *)
Definition matches_at (pre s ip : list ascii) : Prop :=
  at_boundary pre ∧ matches_here s ip.

(** The pattern matches somewhere in the subject. *)
Definition occurs (subject : list ascii) : Prop :=
  ∃ pre s ip, subject = pre ++ s ∧ matches_at pre s ip.

(** What follows a run of bytes on which [p] holds does not continue it. *)
Definition stops (p : ascii → bool) (r : list ascii) : Prop :=
  match r with
  | [] => True
  | c :: _ => p c = false
  end.

(** [ip] is the capture group of the leftmost match in the subject. *)
Definition leftmost (subject ip : list ascii) : Prop :=
  ∃ pre s,
    subject = pre ++ s ∧ matches_at pre s ip
    ∧ ∀ pre' s' ip', subject = pre' ++ s' → (length pre' < length pre)%nat →
                      ¬ matches_at pre' s' ip'.

End RxSpec.

(** ** Order-independent equality of mapping sets *)

(** The same keys, and under each key the same bindings up to their
    order in the slice. *)
Definition same_mapping_set (p1 p2 : PortMap) : Prop :=
  match p1, p2 with
  | None, None => True
  | Some m1, Some m2 =>
      ∀ k, match m1 !! k, m2 !! k with
           | Some v1, Some v2 => v1 ≡ₚ v2
           | None, None => True
           | _, _ => False
           end
  | _, _ => False
  end.

(** ** The firewall command as the specification words it *)

(** Table nat, append to the chain, protocol [proto], destination
    0.0.0.0/0, jump DNAT, destination port [hostPort], DNAT target
    [resolvedIP:containerPort]. *)
Definition spec_firewall_cmd (chainName proto hostPort resolvedIP containerPort : string)
  : list string :=
  ["iptables";
   "--table"; "nat";
   "--append"; chainName;
   "--protocol"; proto;
   "--destination"; "0.0.0.0/0";
   "--jump"; "DNAT";
   "--dport"; hostPort;
   "--to-destination"; resolvedIP +:+ ":" +:+ containerPort].

(** ** A concrete host

    A small world on which the monitor can be run: the firewall table is
    the list of the rules appended so far, four containers are known to
    the runtime, and the decoders are given by their value on the label
    and payload texts that occur. *)
Module Demo.

(** A text between double quotes. *)
Definition q (s : string) : string := String "034" s +:+ String "034" "".

Definition ports_json (hostPort containerPort proto hostIP : string) : string :=
  "{" +:+ q "HostPort" +:+ ":" +:+ hostPort +:+ ","
      +:+ q "ContainerPort" +:+ ":" +:+ containerPort +:+ ","
      +:+ q "Protocol" +:+ ":" +:+ q proto +:+ ","
      +:+ q "HostIP" +:+ ":" +:+ q hostIP +:+ "}".

Definition web_ports : string := "[" +:+ ports_json "8080" "80" "tcp" "127.0.0.1" +:+ "]".
Definition web_ports' : string := "[" +:+ ports_json "9090" "80" "tcp" "127.0.0.1" +:+ "]".
Definition dns_ports : string := "[" +:+ ports_json "5353" "53" "udp" "127.0.0.1" +:+ "]".
Definition two_ports : string :=
  "[" +:+ ports_json "8081" "80" "tcp" "127.0.0.1" +:+ ","
      +:+ ports_json "8080" "80" "tcp" "10.0.0.5" +:+ "]".
Definition bad_ports : string := "[{" +:+ q "HostPort" +:+ ":".

Definition one_network : string := "[" +:+ q "bridge" +:+ "]".
Definition three_networks : string :=
  "[" +:+ q "bridge" +:+ "," +:+ q "missing" +:+ "," +:+ q "backend" +:+ "]".

Definition json_Unmarshal_Ports (s : string) : string + list Port :=
  if decide (s = web_ports) then inr [mkPort 8080 80 "tcp" "127.0.0.1"]
  else if decide (s = web_ports') then inr [mkPort 9090 80 "tcp" "127.0.0.1"]
  else if decide (s = dns_ports) then inr [mkPort 5353 53 "udp" "127.0.0.1"]
  else if decide (s = two_ports)
       then inr [mkPort 8081 80 "tcp" "127.0.0.1"; mkPort 8080 80 "tcp" "10.0.0.5"]
  else inl "unexpected end of JSON input".

Definition json_Unmarshal_Strings (s : string) : string + list string :=
  if decide (s = one_network) then inr ["bridge"]
  else if decide (s = three_networks) then inr ["bridge"; "missing"; "backend"]
  else inl "unexpected end of JSON input".

(** A stand-in for the hashed chain name. *)
Definition chain (network cID prefix : string) : string :=
  "CNI-" +:+ prefix +:+ network +:+ "." +:+ cID.

Definition range (m : PortTable) : list (string * list PortBinding) := map_to_list m.

(** The payload of an event is the container identifier; every task
    has pid 4242, except that of the container [lost]. *)
Definition pid_of (id : string) : Z := if decide (id = "lost") then 7 else 4242.

Definition Unmarshal_TaskStart (v : string) : TaskStart * option string :=
  (mkTaskStart v (pid_of v), None).
Definition Unmarshal_ContainerUpdate (v : string) : ContainerUpdate * option string :=
  (mkContainerUpdate v, None).
Definition Unmarshal_TaskExit (v : string) : TaskExit * option string :=
  (mkTaskExit v, None).

Definition mk_labels (ports networks : string) : Labels :=
  <[portsKey := ports]> (<[networkKey := networks]> (<[namespaceKey := "default"]> ∅)).

Definition labels_table (id : string) : string + Labels :=
  if decide (id = "c1") then inr (mk_labels web_ports one_network)
  else if decide (id = "c2") then inr (mk_labels web_ports three_networks)
  else if decide (id = "dns") then inr (mk_labels dns_ports one_network)
  else if decide (id = "two") then inr (mk_labels two_ports one_network)
  else if decide (id = "bad") then inr (mk_labels bad_ports one_network)
  else if decide (id = "lost") then inr (mk_labels web_ports one_network)
  else if decide (id = "plain") then inr ∅
  else inl "not found".

Abbreviation World := (list (list string)).

Definition eth0_output : string :=
  "2: eth0    inet 10.4.0.22/24 brd 10.4.0.255 scope global eth0\       valid_lft forever preferred_lft forever".

Definition host : Host World := {|
  exec_CombinedOutput argv w :=
    if decide (argv = ["nsenter"; "-t"; "4242"; "-n"; "ip"; "-o"; "-4"; "addr"; "show"; "dev"; "eth0"])
    then ((eth0_output, None), w)
    else (("nsenter: cannot open /proc/7/ns/net: No such file or directory",
           Some "exit status 1"), w);
  exec_Run argv w :=
    if decide (argv !! 4 = Some (chain "missing" "default-c2" "DN-"))
    then (("iptables: No chain/target/match by that name.", Some "exit status 1"), w)
    else (("", None), w ++ [argv]);
  ContainerService_Get id w := (labels_table id, w);
  Containers w := (inr ["c1"; "plain"; "dns"], w);
  Container_Task id w := (inr (pid_of id), w);
  Task_Status id w := (inr Running, w);
  Container_Labels id w := (labels_table id, w);
  Client_Close w := (None, w);
|}.

(** The state at start: no rule appended, nothing tracked. *)
Definition start : @State World SpecTracker.t := mkState [] ∅.

(** The monitor and the reconciler on this host. *)
Definition monitor (received : list Select) : M unit :=
  MonitorPorts host json_Unmarshal_Ports json_Unmarshal_Strings chain range
    Unmarshal_TaskStart Unmarshal_ContainerUpdate Unmarshal_TaskExit received.

Definition reconcile : M unit :=
  initializeRunningContainers host json_Unmarshal_Ports json_Unmarshal_Strings chain range.

Definition start_env (id : string) : Envelope := mkEnvelope "/tasks/start" "default" id.
Definition update_env (id : string) : Envelope := mkEnvelope "/containers/update" "default" id.
Definition exit_env (id : string) : Envelope := mkEnvelope "/tasks/exit" "default" id.

Definition start_of (id : string) : Select := Msg (start_env id).
Definition update_of (id : string) : Select := Msg (update_env id).
Definition exit_of (id : string) : Select := Msg (exit_env id).

(** The handling of one envelope, the synchronizer and the reconciler's
    loop body on this host. *)
Definition on_envelope (envelope : Envelope) : M unit :=
  onEnvelope host json_Unmarshal_Ports json_Unmarshal_Strings chain range
    Unmarshal_TaskStart Unmarshal_ContainerUpdate Unmarshal_TaskExit envelope.

Definition synchronize (portMappings : PortMap) (containerID networks namespace pid : string)
  : @M World SpecTracker.t (option error) :=
  execIptablesRules host json_Unmarshal_Strings chain range
    portMappings containerID networks namespace pid.

Definition initialize (cID : string) : M unit :=
  initializeContainer host json_Unmarshal_Ports json_Unmarshal_Strings chain range cID.

(** Port maps: the web port published on the loopback address, the same
    on another host port, a udp port on the loopback address, and two
    bindings of one container port in the two possible orders. *)
Definition web : PortTable := {["80/tcp" := [mkPortBinding "127.0.0.1" "8080"]]}.
Definition web' : PortTable := {["80/tcp" := [mkPortBinding "127.0.0.1" "9090"]]}.
Definition dns : PortTable := {["53/udp" := [mkPortBinding "127.0.0.1" "5353"]]}.
Definition two : PortTable :=
  {["80/tcp" := [mkPortBinding "127.0.0.1" "8081"; mkPortBinding "0.0.0.0" "8080"]]}.
Definition two_swapped : PortTable :=
  {["80/tcp" := [mkPortBinding "0.0.0.0" "8080"; mkPortBinding "127.0.0.1" "8081"]]}.

(** The state in which no rule was appended and the tracker holds the
    port map [m] for the container [id], and nothing else. *)
Definition tracking (id : string) (m : PortTable) : @State World SpecTracker.t :=
  mkState [] {[id := m]}.

End Demo.

(** Nothing visible happens in a run from the state [s]: no external
    command, no changing call on the tracker, and the tracker is as
    before. *)
Definition quiet {W T A : Type} (s : @State W T) (r : A * @State W T * list Event) : Prop :=
  exec_cmds (trace_of r) = [] ∧ tracker_ops (trace_of r) = []
  ∧ tracker (state_of r) = tracker s.

(** ** What a handler extracts, and when the runtime is steady *)

Section Extracted.

Context {W T : Type} (host : Host W).
Variable json_Unmarshal_Ports : string → string + list Port.

(** The labels the handlers of start and update events read for the
    container [id] in state [s]. *)
Definition looked_up (id : string) (s : @State W T) : Labels :=
  match (ContainerService_Get host id (world s)).1 with
  | inl _ => ∅
  | inr labels => labels
  end.

(** The error of that lookup, if it failed. *)
Definition lookup_error (id : string) (s : @State W T) : option error :=
  match (ContainerService_Get host id (world s)).1 with
  | inl msg => Some (ErrAPI msg)
  | inr _ => None
  end.

(** The mapping set they extract from them, and the extractor's error. *)
Definition extracted (id : string) (s : @State W T) : PortMap * option error :=
  createPortMappingFromString json_Unmarshal_Ports (label (looked_up id s) portsKey).

(** The state after the lookup. *)
Definition after_lookup (id : string) (s : @State W T) : @State W T :=
  mkState (ContainerService_Get host id (world s)).2 (tracker s).

(** The answers of the runtime do not depend on the moment they are
    asked for: no container is created, started, stopped or relabelled
    meanwhile. *)
Definition steady : Prop :=
  ∀ w w' : W,
    (Containers host w).1 = (Containers host w').1
    ∧ ∀ id, (Container_Task host id w).1 = (Container_Task host id w').1
            ∧ (Task_Status host id w).1 = (Task_Status host id w').1
            ∧ (Container_Labels host id w).1 = (Container_Labels host id w').1.

(** What the reconciler finds out about the container [id], asking from
    the world [w] on: the pid of its task and its labels, when the task
    exists, its status is running and the labels can be read. *)
Definition found (id : string) (w : W) : option (Z * Labels) :=
  match (Container_Task host id w).1 with
  | inr pid =>
      let w1 := (Container_Task host id w).2 in
      match (Task_Status host id w1).1 with
      | inr Running =>
          let w2 := (Task_Status host id w1).2 in
          match (Container_Labels host id w2).1 with
          | inr labels => Some (pid, labels)
          | inl _ => None
          end
      | _ => None
      end
  | inl _ => None
  end.

(** The world after these three questions. *)
Definition found_world (id : string) (w : W) : W :=
  (Container_Labels host id
     (Task_Status host id (Container_Task host id w).2).2).2.

(** The mapping set the reconciler extracts from labels. *)
Definition ports_of (labels : Labels) : PortMap :=
  (createPortMappingFromString json_Unmarshal_Ports (label labels portsKey)).1.

(** The reconciler finds the container [id] running with a non-empty
    mapping set. *)
Definition publishes (id : string) (w : W) : Prop :=
  ∃ pid labels, found id w = Some (pid, labels) ∧ len (ports_of labels) ≠ 0.

(** The events logged before the handlers of start and update events look
    at the mapping set. *)
Definition prelude (format : string) (perr : option string) (id ns : string) (s : @State W T)
  : list Event :=
  logged format [] (ErrProto <$> perr)
  ++ logged "failed to get the container %s from namespace: %s failed: %s" [id; ns]
            (lookup_error id s)
  ++ logged "failed to create port mapping from container's start task: %v" []
            (extracted id s).2.

End Extracted.

(** ** The synchronizer, in closed form *)

(** What the resolver makes of the probe's combined output and of its
    failure, if any. *)
Definition resolve (output : string) (err : option string) : string * option error :=
  match err with
  | Some msg => ("", Some (ErrExec msg))
  | None =>
      match Rx.FindStringSubmatch output with
      | _ :: ip :: _ => (ip, None)
      | _ => ("", Some ErrIPAddressNotFound)
      end
  end.

Section Rules.

Context {W : Type} (host : Host W).
Variable MustFormatChainNameWithPrefix : string → string → string → string.

(** The resolver finds the address [ip] for the process [pid] whenever
    it is asked. *)
Definition resolves_to (pid ip : string) : Prop :=
  ∀ w : W,
    resolve (exec_CombinedOutput host (nsenter_argv pid) w).1.1
            (exec_CombinedOutput host (nsenter_argv pid) w).1.2 = (ip, None).

(** The commands of one loopback binding, one per network, in the order
    of the networks. *)
Definition rule_cmds (networks : list string) (cID eth0IP port destinationPort : string)
  : list (list string) :=
  (λ network, iptables_argv (MustFormatChainNameWithPrefix network cID "DN-")
                            destinationPort eth0IP port) <$> networks.

(** The outcomes (standard error and failure) of running commands one
    after the other from the world [w], and the world they leave. *)
Fixpoint run_rules (cmds : list (list string)) (w : W) : list (string * option string) * W :=
  match cmds with
  | [] => ([], w)
  | argv :: rest =>
      let r := exec_Run host argv w in
      let rs := run_rules rest r.2 in
      (r.1 :: rs.1, rs.2)
  end.

(** The error recorded for a command that failed. *)
Definition rule_failure (argv : list string) (outcome : string * option string) : option error :=
  (λ msg, Errorf "running iptables rule [%s] failed: %w - %s"
                 [Cmd_String argv; outcome.1] (ErrExec msg)) <$> outcome.2.

Fixpoint rule_failures (cmds : list (list string)) (outcomes : list (string * option string))
  : list error :=
  match cmds, outcomes with
  | argv :: cmds, o :: outcomes =>
      match rule_failure argv o with
      | Some e => e :: rule_failures cmds outcomes
      | None => rule_failures cmds outcomes
      end
  | _, _ => []
  end.

(** The trace of the loop over the networks. *)
Definition rule_events (containerID cID : string) (networks : list string)
    (eth0IP port destinationPort : string) : list Event :=
  network ← networks;
  let chainName := MustFormatChainNameWithPrefix network cID "DN-" in
  let argv := iptables_argv chainName destinationPort eth0IP port in
  [EvExec argv;
   EvDebugf "running the following loopback rule [%s] in chain: %s for containerID: %s"
            [Cmd_String argv; chainName; containerID]].

(** The commands the synchronizer issues for an entry of a port map:
    for each binding of the entry whose host IP is 127.0.0.1, those of
    [rule_cmds]. *)
Definition entry_cmds (networks : list string) (cID eth0IP : string)
    (entry : string * list PortBinding) : list (list string) :=
  b ← entry.2;
  if decide (HostIP b = "127.0.0.1")
  then rule_cmds networks cID eth0IP (Port_Port entry.1) (HostPort b)
  else [].

(** The commands the synchronizer issues for a port map, entry by entry
    (in the order of [map_to_list]). *)
Definition issued_cmds (networks : list string) (cID eth0IP : string)
    (portMappings : PortMap) : list (list string) :=
  match portMappings with
  | None => []
  | Some m => map_to_list m ≫= entry_cmds networks cID eth0IP
  end.

(** The commands the specification asks for, for an entry of a port
    map: for each binding whose host IP is 127.0.0.1 and for each
    network, one command matching the entry's declared protocol. *)
Definition spec_entry_cmds (networks : list string) (cID resolvedIP : string)
    (entry : string * list PortBinding) : list (list string) :=
  b ← entry.2;
  if decide (HostIP b = "127.0.0.1")
  then (λ network,
          spec_firewall_cmd (MustFormatChainNameWithPrefix network cID "DN-")
                            (Port_Proto entry.1) (HostPort b) resolvedIP
                            (Port_Port entry.1)) <$> networks
  else [].

Definition spec_cmds (networks : list string) (cID resolvedIP : string)
    (portMappings : PortMap) : list (list string) :=
  match portMappings with
  | None => []
  | Some m => map_to_list m ≫= spec_entry_cmds networks cID resolvedIP
  end.

End Rules.

(** * Further definitions *)

(** ** What the extractor makes of a declared port *)

(** The container port of a declared port is one the [nat] package
    accepts. *)
Definition valid_port (port : Port) : Prop := (0 ≤ p_ContainerPort port ≤ 65535)%Z.

#[global] Instance valid_port_dec port : Decision (valid_port port).
Proof. unfold valid_port. apply _. Defined.

(** The key under which a declared port is stored, and the binding stored
    for it. *)
Definition port_key (port : Port) : string :=
  Itoa (p_ContainerPort port) +:+ "/" +:+ p_Protocol port.

Definition binding_of (port : Port) : PortBinding :=
  {| HostIP := NormalizeHostIP (p_HostIP port); HostPort := Itoa (p_HostPort port) |}.

(** The bindings of the declared ports stored under the key [k], in the
    order of the label. *)
Definition bindings_under (k : string) (ports : list Port) : list PortBinding :=
  binding_of <$> filter (λ port, port_key port = k) ports.

(** The slice a port map holds under a key, nil when it holds none. *)
Definition slice_at (m : PortTable) (k : string) : list PortBinding := default [] (m !! k).

(** No key of the port map holds an empty slice. *)
Definition no_empty_slice (m : PortTable) : Prop := ∀ k bs, m !! k = Some bs → bs ≠ [].

(** The number of bindings a port map holds. *)
Definition binding_count (m : PortTable) : nat := sum_list (length <$> (map_to_list m).*2).

(** ** Occurrences of a literal *)

(** The bytes [lit] occur somewhere in [s]. *)
Fixpoint has_infix (lit s : list ascii) : bool :=
  match Rx.literal lit s with
  | Some _ => true
  | None =>
      match s with
      | [] => false
      | _ :: s' => has_infix lit s'
      end
  end.

(** ** The loopback bindings of a port map *)

(** The bindings published on 127.0.0.1 among the entries of a port map,
    each with its key, in the order the synchronizer visits them. *)
Definition loopback_bindings (entries : list (string * list PortBinding))
  : list (string * PortBinding) :=
  entry ← entries;
  b ← entry.2;
  if decide (HostIP b = "127.0.0.1") then [(entry.1, b)] else [].

(** The resolver finds no address for the process [pid], whenever it is
    asked. *)
Definition unresolved {W : Type} (host : Host W) (pid : string) : Prop :=
  ∀ w : W,
    (resolve (exec_CombinedOutput host (nsenter_argv pid) w).1.1
             (exec_CombinedOutput host (nsenter_argv pid) w).1.2).2 ≠ None.

(** Appending a rule to the chain of any of the networks never fails. *)
Definition rules_succeed {W : Type} (host : Host W)
    (MustFormatChainNameWithPrefix : string → string → string → string)
    (networks : list string) (cID : string) : Prop :=
  ∀ (network destinationPort eth0IP port : string) (w : W),
    network ∈ networks →
    (exec_Run host
       (iptables_argv (MustFormatChainNameWithPrefix network cID "DN-")
                      destinationPort eth0IP port) w).1.2 = None.

(** The commands the synchronizer starts for a loopback binding once the
    address is resolved: the probe, then the rule of every network. *)
Definition binding_execs (MustFormatChainNameWithPrefix : string → string → string → string)
    (networks : list string) (cID eth0IP pid : string)
    (kb : string * PortBinding) : list (list string) :=
  nsenter_argv pid
  :: rule_cmds MustFormatChainNameWithPrefix networks cID eth0IP (Port_Port kb.1) (HostPort kb.2).

(** An external command is the probe of some process. *)
Definition is_probe (argv : list string) : Prop := ∃ pid, argv = nsenter_argv pid.

(** An external command appends a DNAT rule for tcp to some chain of the
    nat table. *)
Definition is_append_rule (argv : list string) : Prop :=
  ∃ chainName destinationPort eth0IP port,
    argv = iptables_argv chainName destinationPort eth0IP port.

(** The two nested loops of the synchronizer as one loop over the
    loopback bindings: one call of the rule writer per binding, threading
    the errors collected, the state and the trace.  (That this is what
    [loopPortMappings] computes is proved below.) *)
Fixpoint loopCalls {W T : Type} (host : Host W)
    (MustFormatChainNameWithPrefix : string → string → string → string)
    (containerNetworks : list string) (containerID namespace pid : string)
    (kbs : list (string * PortBinding)) (errs : list error) (s : @State W T)
  : list error * @State W T * list Event :=
  match kbs with
  | [] => (errs, s, [])
  | kb :: rest =>
      let r := createLoopbackIPtablesRules host MustFormatChainNameWithPrefix containerNetworks
                 containerID namespace pid (Port_Port kb.1) (HostPort kb.2) s in
      let errs := match result_of r with Some e => errs ++ [e] | None => errs end in
      let r' := loopCalls host MustFormatChainNameWithPrefix containerNetworks
                  containerID namespace pid rest errs (state_of r) in
      (result_of r', state_of r', trace_of r ++ trace_of r')
  end.

(** ** What a run of the monitor may leave in the trace *)

(** Events of the monitor loop: all but the clearing of the tracker and
    the closing of the client. *)
Definition loop_event (e : Event) : bool :=
  match e with
  | EvTrackerRemoveAll | EvClientClose => false
  | _ => true
  end.

(** The failure of the decoder of an envelope's topic, if any. *)
Definition decode_failure (start : string → TaskStart * option string)
    (update : string → ContainerUpdate * option string)
    (exit : string → TaskExit * option string) (envelope : Envelope) : option string :=
  if decide (Topic envelope = "/tasks/start") then (start (Event_Value envelope)).2
  else if decide (Topic envelope = "/containers/update") then (update (Event_Value envelope)).2
  else if decide (Topic envelope = "/tasks/exit") then (exit (Event_Value envelope)).2
  else None.

(** ** Further concrete inputs *)

Module Cases.

(** A ports label with a container port out of range between two others,
    and one with a port published on [localhost]. *)
Definition mixed_ports : string :=
  "[" +:+ Demo.ports_json "8080" "80" "tcp" "127.0.0.1" +:+ ","
      +:+ Demo.ports_json "9000" "70000" "tcp" "127.0.0.1" +:+ ","
      +:+ Demo.ports_json "5353" "53" "udp" "" +:+ "]".

Definition localhost_ports : string :=
  "[" +:+ Demo.ports_json "8080" "80" "tcp" "localhost" +:+ "]".

Definition json_Unmarshal_Ports (s : string) : string + list Port :=
  if decide (s = mixed_ports)
  then inr [mkPort 8080 80 "tcp" "127.0.0.1"; mkPort 9000 70000 "tcp" "127.0.0.1";
            mkPort 5353 53 "udp" ""]
  else if decide (s = localhost_ports) then inr [mkPort 8080 80 "tcp" "localhost"]
  else Demo.json_Unmarshal_Ports s.

(** The port map of the second label. *)
Definition localhost : PortTable := {["80/tcp" := [mkPortBinding "localhost" "8080"]]}.

(** Decoders that report a failure and leave the identifier decoded. *)
Definition Unmarshal_TaskStart (v : string) : TaskStart * option string :=
  (mkTaskStart v (Demo.pid_of v), Some "proto: cannot parse invalid wire-format data").
Definition Unmarshal_ContainerUpdate (v : string) : ContainerUpdate * option string :=
  (mkContainerUpdate v, Some "proto: cannot parse invalid wire-format data").
Definition Unmarshal_TaskExit (v : string) : TaskExit * option string :=
  (mkTaskExit v, Some "proto: cannot parse invalid wire-format data").

(** The concrete host, except that the probe of process 1 succeeds and
    prints nothing: its interface has no IPv4 address. *)
Definition host : Host Demo.World := {|
  exec_CombinedOutput argv w :=
    if decide (argv = nsenter_argv "1") then (("", None), w)
    else exec_CombinedOutput Demo.host argv w;
  exec_Run := exec_Run Demo.host;
  ContainerService_Get := ContainerService_Get Demo.host;
  Containers := Containers Demo.host;
  Container_Task := Container_Task Demo.host;
  Task_Status := Task_Status Demo.host;
  Container_Labels := Container_Labels Demo.host;
  Client_Close := Client_Close Demo.host;
|}.

End Cases.

(** * Properties *)

(** ** Reading a trace: rewriting rules *)

Lemma exec_cmds_app (l1 l2 : list Event) :
  exec_cmds (l1 ++ l2) = exec_cmds l1 ++ exec_cmds l2.
Proof. unfold exec_cmds. induction l1 as [|[] l1 IH]; cbn; congruence. Qed.

Lemma firewall_cmds_app (l1 l2 : list Event) :
  firewall_cmds (l1 ++ l2) = firewall_cmds l1 ++ firewall_cmds l2.
Proof. unfold firewall_cmds. by rewrite exec_cmds_app, List.filter_app. Qed.

Lemma tracker_ops_app (l1 l2 : list Event) :
  tracker_ops (l1 ++ l2) = tracker_ops l1 ++ tracker_ops l2.
Proof. apply List.filter_app. Qed.

Lemma logged_errors_app (l1 l2 : list Event) :
  logged_errors (l1 ++ l2) = logged_errors l1 ++ logged_errors l2.
Proof. unfold logged_errors. induction l1 as [|[] l1 IH]; cbn; congruence. Qed.

Lemma exec_cmds_logged format args err : exec_cmds (logged format args err) = [].
Proof. by destruct err. Qed.

Lemma firewall_cmds_logged format args err : firewall_cmds (logged format args err) = [].
Proof. by destruct err. Qed.

Lemma tracker_ops_logged format args err : tracker_ops (logged format args err) = [].
Proof. by destruct err. Qed.

Lemma exec_cmds_EvExec argv l : exec_cmds ((EvExec argv) :: l) = argv :: exec_cmds l.
Proof. done. Qed.

Lemma tracker_ops_EvExec argv l : tracker_ops ((EvExec argv) :: l) = tracker_ops l.
Proof. done. Qed.

Lemma exec_cmds_EvTrackerAdd id pm l : exec_cmds ((EvTrackerAdd id pm) :: l) = exec_cmds l.
Proof. done. Qed.

Lemma firewall_cmds_EvTrackerAdd id pm l : firewall_cmds ((EvTrackerAdd id pm) :: l) = firewall_cmds l.
Proof. done. Qed.

Lemma tracker_ops_EvTrackerAdd id pm l : tracker_ops ((EvTrackerAdd id pm) :: l) = (EvTrackerAdd id pm) :: tracker_ops l.
Proof. done. Qed.

Lemma exec_cmds_EvTrackerRemove id l : exec_cmds ((EvTrackerRemove id) :: l) = exec_cmds l.
Proof. done. Qed.

Lemma firewall_cmds_EvTrackerRemove id l : firewall_cmds ((EvTrackerRemove id) :: l) = firewall_cmds l.
Proof. done. Qed.

Lemma tracker_ops_EvTrackerRemove id l : tracker_ops ((EvTrackerRemove id) :: l) = (EvTrackerRemove id) :: tracker_ops l.
Proof. done. Qed.

Lemma exec_cmds_EvTrackerRemoveAll l : exec_cmds (EvTrackerRemoveAll :: l) = exec_cmds l.
Proof. done. Qed.

Lemma firewall_cmds_EvTrackerRemoveAll l : firewall_cmds (EvTrackerRemoveAll :: l) = firewall_cmds l.
Proof. done. Qed.

Lemma tracker_ops_EvTrackerRemoveAll l : tracker_ops (EvTrackerRemoveAll :: l) = EvTrackerRemoveAll :: tracker_ops l.
Proof. done. Qed.

Lemma exec_cmds_EvClientClose l : exec_cmds (EvClientClose :: l) = exec_cmds l.
Proof. done. Qed.

Lemma firewall_cmds_EvClientClose l : firewall_cmds (EvClientClose :: l) = firewall_cmds l.
Proof. done. Qed.

Lemma tracker_ops_EvClientClose l : tracker_ops (EvClientClose :: l) = tracker_ops l.
Proof. done. Qed.

Lemma exec_cmds_EvErrorf format args err l : exec_cmds ((EvErrorf format args err) :: l) = exec_cmds l.
Proof. done. Qed.

Lemma firewall_cmds_EvErrorf format args err l : firewall_cmds ((EvErrorf format args err) :: l) = firewall_cmds l.
Proof. done. Qed.

Lemma tracker_ops_EvErrorf format args err l : tracker_ops ((EvErrorf format args err) :: l) = tracker_ops l.
Proof. done. Qed.

Lemma exec_cmds_EvDebugf format args l : exec_cmds ((EvDebugf format args) :: l) = exec_cmds l.
Proof. done. Qed.

Lemma firewall_cmds_EvDebugf format args l : firewall_cmds ((EvDebugf format args) :: l) = firewall_cmds l.
Proof. done. Qed.

Lemma tracker_ops_EvDebugf format args l : tracker_ops ((EvDebugf format args) :: l) = tracker_ops l.
Proof. done. Qed.

Lemma firewall_cmds_EvExec argv l :
  firewall_cmds (EvExec argv :: l)
  = if is_iptables argv then argv :: firewall_cmds l else firewall_cmds l.
Proof. done. Qed.

Lemma firewall_cmds_exec_nil (l : list Event) : exec_cmds l = [] → firewall_cmds l = [].
Proof. unfold firewall_cmds. by intros ->. Qed.

Lemma exec_cmds_nil : exec_cmds [] = [].
Proof. done. Qed.

Lemma firewall_cmds_nil : firewall_cmds [] = [].
Proof. done. Qed.

Lemma tracker_ops_nil : tracker_ops [] = [].
Proof. done. Qed.

Create Rewrite HintDb trace.
#[global] Hint Rewrite exec_cmds_app firewall_cmds_app tracker_ops_app logged_errors_app
  exec_cmds_logged firewall_cmds_logged tracker_ops_logged
  exec_cmds_nil firewall_cmds_nil tracker_ops_nil
  exec_cmds_EvExec
  tracker_ops_EvExec
  firewall_cmds_EvTrackerAdd
  exec_cmds_EvTrackerAdd
  tracker_ops_EvTrackerAdd
  firewall_cmds_EvTrackerRemove
  exec_cmds_EvTrackerRemove
  tracker_ops_EvTrackerRemove
  firewall_cmds_EvTrackerRemoveAll
  exec_cmds_EvTrackerRemoveAll
  tracker_ops_EvTrackerRemoveAll
  firewall_cmds_EvClientClose
  exec_cmds_EvClientClose
  tracker_ops_EvClientClose
  firewall_cmds_EvErrorf
  exec_cmds_EvErrorf
  tracker_ops_EvErrorf
  firewall_cmds_EvDebugf
  exec_cmds_EvDebugf
  tracker_ops_EvDebugf : trace.

(** Splits the trace projections of a goal over the pieces of the trace. *)
Ltac trace_simpl := repeat (progress (autorewrite with trace; cbn [app])).

(** ** Deep equality of port maps *)

Lemma DeepEqual_PortTable_eq (m1 m2 : PortTable) :
  DeepEqual_PortTable m1 m2 = true ↔ m1 = m2.
Proof.
  unfold DeepEqual_PortTable.
  rewrite andb_true_iff, bool_decide_eq_true, forallb_forall.
  split.
  - intros [Hsz Hall].
    assert (Hsub : m1 ⊆ m2).
    { apply map_subseteq_spec. intros k v Hk.
      specialize (Hall (k, v)). cbn in Hall.
      destruct (m2 !! k) as [v2|] eqn:E.
      - rewrite bool_decide_eq_true in Hall. rewrite <- Hall; [done|].
        by apply list_elem_of_In, elem_of_map_to_list.
      - discriminate Hall. by apply list_elem_of_In, elem_of_map_to_list. }
    apply map_subseteq_size_eq; [done|lia].
  - intros ->. split; [done|]. intros [k v] Hin.
    apply list_elem_of_In, elem_of_map_to_list in Hin. rewrite Hin.
    by apply bool_decide_eq_true.
Qed.

(** [reflect.DeepEqual] holds of two port maps exactly when they are the
    same map: the same keys, whatever the order in which they were
    inserted, and under each key the same bindings in the same order. *)
Lemma DeepEqual_eq (p1 p2 : PortMap) : DeepEqual p1 p2 = true ↔ p1 = p2.
Proof.
  destruct p1 as [m1|], p2 as [m2|]; cbn; try (split; congruence).
  rewrite DeepEqual_PortTable_eq. split; congruence.
Qed.

Lemma DeepEqual_neq (p1 p2 : PortMap) : DeepEqual p1 p2 = false ↔ p1 ≠ p2.
Proof. rewrite <- DeepEqual_eq. by destruct (DeepEqual p1 p2). Qed.

(** ** The scanner finds the leftmost match of the pattern *)

Module RxFacts.
Import Rx.

Lemma span_upto_spec p k s d r :
  span_upto p k s = (d, r) →
  s = d ++ r ∧ Forall (λ c, p c = true) d ∧ (length d ≤ k)%nat.
Proof.
  revert s d r. induction k as [|k IH]; intros s d r.
  - destruct s; cbn; intros [= <- <-]; (split; [done|split; [constructor|cbn; lia]]).
  - destruct s as [|c s]; cbn; [intros [= <- <-]; (split; [done|split; [constructor|cbn; lia]])|].
    destruct (p c) eqn:Hp.
    + destruct (span_upto p k s) as [d' r'] eqn:E. intros [= <- <-].
      destruct (IH _ _ _ E) as (-> & Hd & Hl). split; [done|split; [by constructor|cbn; lia]].
    + intros [= <- <-]. split; [done|split; [constructor|cbn; lia]].
Qed.

Lemma span_spec p s d r :
  span p s = (d, r) → s = d ++ r ∧ Forall (λ c, p c = true) d.
Proof.
  revert d r. induction s as [|c s IH]; intros d r; cbn.
  - intros [= <- <-]. auto.
  - destruct (p c) eqn:Hp.
    + destruct (span p s) as [d' r'] eqn:E. intros [= <- <-].
      destruct (IH _ _ eq_refl) as (-> & Hd). split; cbn; auto.
    + intros [= <- <-]. auto.
Qed.

Lemma span_app p d r :
  Forall (λ c, p c = true) d → RxSpec.stops p r → span p (d ++ r) = (d, r).
Proof.
  intros Hd Hr. induction Hd as [|c d Hc Hd IH]; cbn.
  - destruct r as [|c r]; cbn in *; [done|by rewrite Hr].
  - by rewrite Hc, IH.
Qed.

Lemma span_upto_app p k d r :
  Forall (λ c, p c = true) d → (length d ≤ k)%nat → RxSpec.stops p r →
  span_upto p k (d ++ r) = (d, r).
Proof.
  intros Hd. revert k. induction Hd as [|c d Hc Hd IH]; intros k Hk Hr; cbn.
  - destruct k, r as [|c r]; cbn in *; try done. by rewrite Hr.
  - destruct k as [|k]; cbn in *; [lia|]. rewrite Hc, IH; [done|lia|done].
Qed.

Lemma literal_spec lit s r : literal lit s = Some r ↔ s = lit ++ r.
Proof.
  revert s. induction lit as [|a lit IH]; intros s; cbn.
  - split; congruence.
  - destruct s as [|c s]; [split; congruence|].
    destruct (Ascii.eqb_spec a c) as [->|Hne].
    + rewrite IH. split; congruence.
    + split; congruence.
Qed.

Lemma octet_then_spec sep s d r :
  octet_then sep s = Some (d, r) →
  s = d ++ sep :: r ∧ RxSpec.digits 3 d.
Proof.
  unfold octet_then. destruct (span_upto is_digit 3 s) as [d' r'] eqn:E.
  apply span_upto_spec in E as (-> & Hd & Hl).
  destruct d' as [|c d']; [done|]. destruct r' as [|c' r']; [done|].
  destruct (Ascii.eqb_spec c' sep) as [->|]; [|done].
  intros [= <- <-]. split; [done|]. split; [cbn in *; lia|done].
Qed.

Lemma octet_then_app sep d r :
  is_digit sep = false → RxSpec.digits 3 d →
  octet_then sep (d ++ sep :: r) = Some (d, r).
Proof.
  intros Hsep [[Hl1 Hl2] Hd]. unfold octet_then.
  rewrite span_upto_app by done.
  destruct d; [cbn in Hl1; lia|]. by rewrite Ascii.eqb_refl.
Qed.

Lemma digit_not_space c : is_digit c = true → is_space c = false.
Proof.
  unfold is_digit, is_space. intros H.
  apply andb_true_iff in H as [H1 H2]. apply Nat.leb_le in H1.
  repeat (apply orb_false_iff; split); apply Nat.eqb_neq; lia.
Qed.

Lemma match_here_sound s whole ip :
  match_here s = Some (whole, ip) → RxSpec.matches_here s ip.
Proof.
  unfold match_here. intros H.
  destruct (literal inet s) as [r0|] eqn:E0; [|done]. cbn [mbind option_bind] in H.
  apply literal_spec in E0 as ->.
  destruct (span is_space r0) as [ws r1] eqn:E1. cbn [fst snd] in H.
  apply span_spec in E1 as (-> & Hws).
  destruct (decide (ws = [])) as [|Hne]; [done|].
  destruct (octet_then dot r1) as [[a r2]|] eqn:Ea; [|done]. cbn [mbind option_bind fst snd] in H.
  apply octet_then_spec in Ea as (-> & Ha).
  destruct (octet_then dot r2) as [[b r3]|] eqn:Eb; [|done]. cbn [mbind option_bind fst snd] in H.
  apply octet_then_spec in Eb as (-> & Hb).
  destruct (octet_then dot r3) as [[c r4]|] eqn:Ec; [|done]. cbn [mbind option_bind fst snd] in H.
  apply octet_then_spec in Ec as (-> & Hc).
  destruct (octet_then slash r4) as [[d r5]|] eqn:Ed; [|done]. cbn [mbind option_bind fst snd] in H.
  apply octet_then_spec in Ed as (-> & Hd).
  destruct (span_upto is_digit 2 r5) as [pl rest] eqn:Ep. cbn [fst snd] in H.
  apply span_upto_spec in Ep as (-> & Hp & Hlp).
  destruct (decide (pl = [])) as [|Hpl]; [done|].
  injection H as <- <-.
  exists ws, pl, rest. split.
  { repeat (rewrite <- ?app_assoc; cbn [app]). done. }
  split; [done|]. split; [by exists a, b, c, d|].
  split; [|done]. destruct pl; [done|cbn in *; lia].
Qed.

Lemma digits_head k d :
  RxSpec.digits k d → ∃ c d', d = c :: d' ∧ is_digit c = true.
Proof.
  intros [[Hl _] Hd]. destruct d as [|c d']; [cbn in Hl; lia|].
  exists c, d'. split; [done|]. by inversion Hd.
Qed.

Lemma match_here_complete s ip :
  RxSpec.matches_here s ip → ∃ whole, match_here s = Some (whole, ip).
Proof.
  intros (ws & pl & rest & -> & [Hne Hws] & (a & b & c & d & -> & Ha & Hb & Hc & Hd) & Hpl).
  unfold match_here.
  assert (literal inet (inet ++ ws ++ (a ++ dot :: b ++ dot :: c ++ dot :: d) ++ slash :: pl ++ rest)
          = Some (ws ++ (a ++ dot :: b ++ dot :: c ++ dot :: d) ++ slash :: pl ++ rest)) as ->
    by (by apply literal_spec).
  cbn [mbind option_bind].
  destruct (digits_head _ _ Ha) as (ca & a' & -> & Hca).
  rewrite span_app; [|done|cbn; by apply digit_not_space].
  cbn [fst snd]. destruct (decide (ws = [])); [done|].
  repeat (rewrite <- ?app_assoc; cbn [app]).
  change (ca :: a' ++ dot :: ?x) with ((ca :: a') ++ dot :: x).
  rewrite octet_then_app by done. cbn [mbind option_bind fst snd].
  rewrite octet_then_app by done. cbn [mbind option_bind fst snd].
  rewrite octet_then_app by done. cbn [mbind option_bind fst snd].
  rewrite octet_then_app by done. cbn [mbind option_bind fst snd].
  destruct (digits_head _ _ Hpl) as (cp & pl' & -> & Hcp).
  destruct (span_upto is_digit 2 ((cp :: pl') ++ rest)) as [pl2 rest2] eqn:E.
  cbn in E. rewrite Hcp in E.
  cbn [fst snd].
  destruct (decide (pl2 = [])) as [->|]; [|eauto].
  exfalso. repeat case_match; simplify_eq.
Qed.

Lemma match_at_sound prev s whole ip :
  match_at prev s = Some (whole, ip) → boundary prev = true ∧ RxSpec.matches_here s ip.
Proof.
  unfold match_at. destruct (boundary prev); [|done].
  intros H. split; [done|]. by eapply match_here_sound.
Qed.

Lemma match_at_complete prev s ip :
  boundary prev = true → RxSpec.matches_here s ip →
  ∃ whole, match_at prev s = Some (whole, ip).
Proof. unfold match_at. intros ->. apply match_here_complete. Qed.

Lemma find_Some pre s whole ip :
  find (last pre) s = Some (whole, ip) →
  ∃ mid s',
    s = mid ++ s' ∧ RxSpec.matches_at (pre ++ mid) s' ip
    ∧ ∀ mid1 s1 ip1, s = mid1 ++ s1 → (length mid1 < length mid)%nat →
                      ¬ RxSpec.matches_at (pre ++ mid1) s1 ip1.
Proof.
  revert pre. induction s as [|c s IH]; intros pre H.
  - cbn in H. destruct (match_at (last pre) []) as [m|] eqn:E; [|done].
    injection H as ->. apply match_at_sound in E as [Hb Hm].
    exists [], []. split; [done|]. split; [split; [unfold RxSpec.at_boundary; by rewrite app_nil_r|exact Hm]|].
    intros ? ? ? _ Hl. cbn in Hl. lia.
  - cbn [find] in H. destruct (match_at (last pre) (c :: s)) as [m|] eqn:E.
    + injection H as ->. apply match_at_sound in E as [Hb Hm].
      exists [], (c :: s). split; [done|]. split; [split; [unfold RxSpec.at_boundary; by rewrite app_nil_r|exact Hm]|].
      intros ? ? ? _ Hl. cbn in Hl. lia.
    + replace (Some c) with (last (pre ++ [c])) in H by apply last_snoc.
      apply IH in H as (mid & s' & -> & Hm & Hmin).
      exists (c :: mid), s'. split; [done|].
      split; [by rewrite cons_middle, app_assoc|].
      intros mid1 s1 ip1 Hs Hl [Hb1 Hm1].
      destruct mid1 as [|c1 mid1].
      * cbn in Hs. subst s1. unfold RxSpec.at_boundary in Hb1. rewrite app_nil_r in Hb1.
        destruct (match_at_complete _ _ _ Hb1 Hm1) as [w Hw]. congruence.
      * injection Hs as <- Hs. apply (Hmin mid1 s1 ip1 Hs); [cbn in Hl; lia|].
        split; [|done]. unfold RxSpec.at_boundary in *.
        by rewrite <- app_assoc.
Qed.

Lemma find_None pre s :
  find (last pre) s = None →
  ∀ mid s' ip, s = mid ++ s' → ¬ RxSpec.matches_at (pre ++ mid) s' ip.
Proof.
  revert pre. induction s as [|c s IH]; intros pre H mid s' ip Hs [Hb Hm].
  - symmetry in Hs. apply app_eq_nil in Hs as [-> ->].
    unfold RxSpec.at_boundary in Hb. rewrite app_nil_r in Hb.
    destruct (match_at_complete _ _ _ Hb Hm) as [w Hw].
    cbn in H. by rewrite Hw in H.
  - cbn [find] in H. destruct (match_at (last pre) (c :: s)) as [m|] eqn:E; [done|].
    destruct mid as [|c1 mid].
    + cbn in Hs. subst s'. unfold RxSpec.at_boundary in Hb. rewrite app_nil_r in Hb.
      destruct (match_at_complete _ _ _ Hb Hm) as [w Hw]. congruence.
    + injection Hs as <- Hs.
      replace (Some c) with (last (pre ++ [c])) in H by apply last_snoc.
      apply (IH _ H mid s' ip Hs). split; [|done].
      unfold RxSpec.at_boundary in *. by rewrite <- app_assoc.
Qed.

Lemma matches_here_dotted_quad s ip : RxSpec.matches_here s ip → RxSpec.dotted_quad ip.
Proof. by intros (? & ? & ? & _ & _ & ? & _). Qed.

(** [FindStringSubmatch] yields nil exactly when the pattern occurs
    nowhere in the subject, and otherwise the whole match followed by
    the capture group of the leftmost match. *)
Lemma FindStringSubmatch_spec (subject : string) :
  let s := String.list_ascii_of_string subject in
  (¬ RxSpec.occurs s ∧ FindStringSubmatch subject = [])
  ∨ (∃ whole ip,
       RxSpec.leftmost s ip
       ∧ FindStringSubmatch subject = [whole; String.string_of_list_ascii ip]).
Proof.
  cbn zeta. unfold FindStringSubmatch.
  destruct (find None (String.list_ascii_of_string subject)) as [[whole ip]|] eqn:E.
  - right. exists (String.string_of_list_ascii whole), ip. split; [|done].
    apply (find_Some []) in E as (mid & s' & Hs & Hm & Hmin).
    exists mid, s'. split; [done|]. split; [exact Hm|exact Hmin].
  - left. split; [|done]. intros (pre & s' & ip & Hs & Hm).
    by apply (find_None [] _ E pre s' ip Hs).
Qed.
End RxFacts.

(** ** Resolver and synchronizer *)

Section SynchronizerFacts.

Context {W T : Type} (host : Host W).
Context (json_Unmarshal_Strings : string → string + list string)
        (MustFormatChainNameWithPrefix : string → string → string → string)
        (range : PortTable → list (string * list PortBinding)).

Abbreviation chain := MustFormatChainNameWithPrefix.

Lemma extractIPAddress_run (pid : string) (s : @State W T) :
  extractIPAddress host pid s =
    (resolve (exec_CombinedOutput host (nsenter_argv pid) (world s)).1.1
             (exec_CombinedOutput host (nsenter_argv pid) (world s)).1.2,
     mkState (exec_CombinedOutput host (nsenter_argv pid) (world s)).2 (tracker s),
     [EvExec (nsenter_argv pid)]).
Proof.
  unfold extractIPAddress, mbind, M_bind, CombinedOutput, resolve. cbn.
  destruct (exec_CombinedOutput host (nsenter_argv pid) (world s)) as [[out [msg|]] w]; cbn.
  - done.
  - destruct (Rx.FindStringSubmatch out) as [|whole [|ip rest]]; cbn; try done.
Qed.

Lemma loopNetworks_run networks containerID cID ip port dport allErrs (s : @State W T) :
  let cmds := rule_cmds chain networks cID ip port dport in
  loopNetworks host chain networks containerID cID ip port dport allErrs s =
    (allErrs ++ rule_failures cmds (run_rules host cmds (world s)).1,
     mkState (run_rules host cmds (world s)).2 (tracker s),
     rule_events chain containerID cID networks ip port dport).
Proof.
  cbn zeta. revert allErrs s.
  induction networks as [|network rest IH]; intros allErrs s.
  - cbn. rewrite app_nil_r. by destruct s.
  - cbn [loopNetworks]. unfold mbind, M_bind, Run, log_Debugf, emit.
    cbn -[loopNetworks iptables_argv rule_cmds rule_events].
    rewrite IH. cbn -[iptables_argv].
    unfold rule_failure.
    destruct (exec_Run host _ (world s)) as [[stderr [msg|]] w]; cbn -[iptables_argv].
    + by rewrite <- app_assoc.
    + done.
Qed.

Lemma firewall_cmds_rule_events containerID cID networks ip port dport :
  firewall_cmds (rule_events chain containerID cID networks ip port dport)
  = rule_cmds chain networks cID ip port dport.
Proof.
  induction networks as [|n rest IH]; [done|].
  cbn -[iptables_argv]. unfold firewall_cmds in *. cbn. f_equal. apply IH.
Qed.

Lemma exec_cmds_rule_events containerID cID networks ip port dport :
  exec_cmds (rule_events chain containerID cID networks ip port dport)
  = rule_cmds chain networks cID ip port dport.
Proof.
  induction networks as [|n rest IH]; [done|].
  cbn -[iptables_argv]. f_equal. apply IH.
Qed.

Lemma tracker_ops_rule_events containerID cID networks ip port dport :
  tracker_ops (rule_events chain containerID cID networks ip port dport) = [].
Proof. induction networks as [|n rest IH]; [done|]. apply IH. Qed.

(** The resolver failed: nothing else happens. *)
Lemma createLoopbackIPtablesRules_unresolved networks containerID namespace pid port dport
    (s : @State W T) e :
  (extractIPAddress host pid s).1.1.2 = Some e →
  createLoopbackIPtablesRules host chain networks containerID namespace pid port dport s
  = (Some e, state_of (extractIPAddress host pid s), [EvExec (nsenter_argv pid)]).
Proof.
  unfold createLoopbackIPtablesRules, mbind, M_bind.
  rewrite extractIPAddress_run. cbn. intros ->. done.
Qed.

Lemma createLoopbackIPtablesRules_resolved networks containerID namespace pid port dport
    (s : @State W T) ip :
  (extractIPAddress host pid s).1.1 = (ip, None) →
  let cID := namespace +:+ "-" +:+ containerID in
  let cmds := rule_cmds chain networks cID ip port dport in
  let w1 := (exec_CombinedOutput host (nsenter_argv pid) (world s)).2 in
  createLoopbackIPtablesRules host chain networks containerID namespace pid port dport s
  = (errors_Join (rule_failures cmds (run_rules host cmds w1).1),
     mkState (run_rules host cmds w1).2 (tracker s),
     EvExec (nsenter_argv pid)
     :: EvDebugf "found the ip address: %s for containerID: %s" [ip; containerID]
     :: rule_events chain containerID cID networks ip port dport).
Proof.
  unfold createLoopbackIPtablesRules, mbind, M_bind.
  rewrite extractIPAddress_run. cbn -[rule_cmds rule_events]. intros Hr. rewrite Hr.
  cbn -[rule_cmds rule_events].
  unfold log_Debugf, emit. cbn -[rule_cmds rule_events].
  rewrite loopNetworks_run. cbn -[rule_cmds rule_events].
  destruct (rule_failures _ _); cbn -[rule_cmds rule_events]; unfold mret, M_ret;
    cbn -[rule_cmds rule_events];
    (destruct (decide _) as [Hd|Hd]; cbn -[rule_cmds rule_events]; rewrite ?app_nil_r;
     try done; by destruct Hd).
Qed.

(** The synchronizer leaves the tracker alone. *)
Lemma createLoopbackIPtablesRules_frame networks containerID namespace pid port dport
    (s : @State W T) :
  let r := createLoopbackIPtablesRules host chain networks containerID namespace pid port dport s in
  tracker (state_of r) = tracker s ∧ tracker_ops (trace_of r) = [].
Proof.
  cbn zeta.
  destruct ((extractIPAddress host pid s).1.1) as [ip [e|]] eqn:Hr.
  - rewrite (createLoopbackIPtablesRules_unresolved _ _ _ _ _ _ _ e) by (by rewrite Hr).
    rewrite extractIPAddress_run. done.
  - rewrite (createLoopbackIPtablesRules_resolved _ _ _ _ _ _ _ ip) by done.
    split; [done|]. unfold trace_of. cbn -[rule_events].
    apply tracker_ops_rule_events.
Qed.

Lemma loopBindings_frame portBindings portProto networks containerID namespace pid errs
    (s : @State W T) :
  let r := loopBindings host chain portBindings portProto networks containerID namespace pid errs s in
  tracker (state_of r) = tracker s ∧ tracker_ops (trace_of r) = [].
Proof.
  cbn zeta. revert errs s.
  induction portBindings as [|b rest IH]; intros errs s; [done|].
  cbn [loopBindings]. destruct (decide _) as [Hb|Hb]; [|apply IH].
  unfold mbind, M_bind.
  pose proof (createLoopbackIPtablesRules_frame networks containerID namespace pid
                (Port_Port portProto) (HostPort b) s) as [Ht Ho].
  destruct (createLoopbackIPtablesRules _ _ _ _ _ _ _ _ s) as [[err s1] l1].
  unfold state_of, trace_of in *; cbn [fst snd] in *.
  match goal with |- context [loopBindings _ _ _ _ _ _ _ _ ?e s1] =>
    pose proof (IH e s1) as [Ht' Ho'];
    destruct (loopBindings _ _ _ _ _ _ _ _ e s1) as [[errs' s2] l2] end.
  unfold state_of, trace_of in *; cbn [fst snd] in *. rewrite tracker_ops_app, Ho, Ho'. split; [congruence|done].
Qed.

Lemma loopPortMappings_frame entries networks containerID namespace pid errs (s : @State W T) :
  let r := loopPortMappings host chain entries networks containerID namespace pid errs s in
  tracker (state_of r) = tracker s ∧ tracker_ops (trace_of r) = [].
Proof.
  cbn zeta. revert errs s.
  induction entries as [|[portProto bs] rest IH]; intros errs s; [done|].
  cbn [loopPortMappings]. unfold mbind, M_bind.
  pose proof (loopBindings_frame bs portProto networks containerID namespace pid errs s)
    as [Ht Ho].
  destruct (loopBindings _ _ _ _ _ _ _ _ _ s) as [[errs1 s1] l1].
  pose proof (IH errs1 s1) as [Ht' Ho'].
  destruct (loopPortMappings _ _ _ _ _ _ _ _ s1) as [[errs2 s2] l2].
  unfold state_of, trace_of in *; cbn [fst snd] in *. rewrite tracker_ops_app, Ho, Ho'. split; [congruence|done].
Qed.

Lemma execIptablesRules_frame portMappings containerID networks namespace pid (s : @State W T) :
  let r := execIptablesRules host json_Unmarshal_Strings chain range
             portMappings containerID networks namespace pid s in
  tracker (state_of r) = tracker s ∧ tracker_ops (trace_of r) = [].
Proof.
  cbn zeta. unfold execIptablesRules.
  destruct (json_Unmarshal_Strings networks) as [msg|nets]; [done|].
  unfold mbind, M_bind.
  pose proof (loopPortMappings_frame (range_PortMap range portMappings) nets containerID
                namespace pid [] s) as [Ht Ho].
  destruct (loopPortMappings _ _ _ _ _ _ _ _ s) as [[errs1 s1] l1].
  unfold state_of, trace_of in *; cbn [fst snd] in *. destruct (decide _); cbn; rewrite ?app_nil_r; done.
Qed.

Lemma firewall_cmds_resolved containerID cID networks pid ip port dport :
  firewall_cmds
    (EvExec (nsenter_argv pid)
     :: EvDebugf "found the ip address: %s for containerID: %s" [ip; containerID]
     :: rule_events chain containerID cID networks ip port dport)
  = rule_cmds chain networks cID ip port dport.
Proof.
  rewrite firewall_cmds_EvExec, firewall_cmds_EvDebugf. apply firewall_cmds_rule_events.
Qed.

Lemma loopBindings_cmds portBindings portProto networks containerID namespace pid ip errs
    (s : @State W T) :
  resolves_to host pid ip →
  firewall_cmds (trace_of (loopBindings host chain portBindings portProto networks
                             containerID namespace pid errs s))
  = entry_cmds chain networks (namespace +:+ "-" +:+ containerID) ip (portProto, portBindings).
Proof.
  intros Hres. revert errs s.
  induction portBindings as [|b rest IH]; intros errs s; [done|].
  cbn [loopBindings]. unfold entry_cmds in *. cbn [snd fst mbind list_bind] in *.
  destruct (decide _) as [Hb|Hb]; [|apply IH].
  unfold mbind at 1, M_bind at 1.
  rewrite (createLoopbackIPtablesRules_resolved _ _ _ _ _ _ _ ip)
    by (rewrite extractIPAddress_run; apply Hres).
  match goal with |- context [loopBindings _ _ _ _ _ _ _ _ ?e ?s1] =>
    specialize (IH e s1);
    destruct (loopBindings _ _ _ _ _ _ _ _ e s1) as [[errs' s2] l2] end.
  unfold trace_of in *. cbn [fst snd] in *.
  rewrite firewall_cmds_app, firewall_cmds_resolved, IH. done.
Qed.

Lemma loopPortMappings_cmds entries networks containerID namespace pid ip errs
    (s : @State W T) :
  resolves_to host pid ip →
  firewall_cmds (trace_of (loopPortMappings host chain entries networks
                             containerID namespace pid errs s))
  = entries ≫= entry_cmds chain networks (namespace +:+ "-" +:+ containerID) ip.
Proof.
  intros Hres. revert errs s.
  induction entries as [|[portProto bs] rest IH]; intros errs s; [done|].
  cbn [loopPortMappings mbind list_bind]. unfold mbind at 1, M_bind at 1.
  pose proof (loopBindings_cmds bs portProto networks containerID namespace pid ip errs s Hres)
    as Hb.
  destruct (loopBindings _ _ _ _ _ _ _ _ _ s) as [[errs1 s1] l1].
  specialize (IH errs1 s1).
  destruct (loopPortMappings _ _ _ _ _ _ _ _ s1) as [[errs2 s2] l2].
  unfold trace_of in *. cbn [fst snd] in *.
  by rewrite firewall_cmds_app, Hb, IH.
Qed.

Lemma execIptablesRules_cmds portMappings containerID networks namespace pid ip nets
    (s : @State W T) :
  json_Unmarshal_Strings networks = inr nets →
  resolves_to host pid ip →
  firewall_cmds (trace_of (execIptablesRules host json_Unmarshal_Strings chain range
                             portMappings containerID networks namespace pid s))
  = range_PortMap range portMappings
      ≫= entry_cmds chain nets (namespace +:+ "-" +:+ containerID) ip.
Proof.
  intros Hnets Hres. unfold execIptablesRules. rewrite Hnets.
  unfold mbind at 1, M_bind at 1.
  pose proof (loopPortMappings_cmds (range_PortMap range portMappings) nets containerID
                namespace pid ip [] s Hres) as Hc.
  destruct (loopPortMappings _ _ _ _ _ _ _ _ s) as [[errs1 s1] l1].
  unfold trace_of in *. cbn [fst snd] in *.
  destruct (decide _); unfold mret, M_ret; cbn [fst snd]; by rewrite app_nil_r.
Qed.

(** On an entry whose declared protocol is tcp the commands issued are
    the commands specified. *)
Lemma entry_cmds_tcp networks cID ip (entry : string * list PortBinding) :
  Port_Proto entry.1 = "tcp" →
  entry_cmds chain networks cID ip entry = spec_entry_cmds chain networks cID ip entry.
Proof.
  intros Htcp. unfold entry_cmds, spec_entry_cmds, rule_cmds, spec_firewall_cmd, iptables_argv.
  by rewrite Htcp.
Qed.

Lemma entry_cmds_loopback_tcp networks cID ip (entry : string * list PortBinding) :
  (∀ b, b ∈ entry.2 → HostIP b = "127.0.0.1" → Port_Proto entry.1 = "tcp") →
  entry_cmds chain networks cID ip entry = spec_entry_cmds chain networks cID ip entry.
Proof.
  destruct entry as [key bs]. cbn [fst snd]. unfold entry_cmds, spec_entry_cmds. cbn [fst snd].
  induction bs as [|b bs IH]; intros Htcp; [done|].
  rewrite !bind_cons, IH by (intros; eapply Htcp; [by right|done]).
  f_equal. destruct (decide _) as [Hb|]; [|done].
  unfold rule_cmds, spec_firewall_cmd, iptables_argv.
  by rewrite (Htcp b) by (done || by left).
Qed.

Lemma list_bind_ext_in {A B : Type} (f g : A → list B) (l : list A) :
  (∀ x, x ∈ l → f x = g x) → l ≫= f = l ≫= g.
Proof.
  induction l as [|x l IH]; intros Hfg; [done|].
  rewrite !bind_cons, (Hfg x), IH; [done| |by left].
  intros y Hy. apply Hfg. by right.
Qed.

Lemma run_rules_length cmds (w : W) : length (run_rules host cmds w).1 = length cmds.
Proof. revert w. induction cmds as [|argv cmds IH]; intros w; cbn; [done|]. by rewrite IH. Qed.

Lemma rule_failures_nil cmds (outcomes : list (string * option string)) :
  length outcomes = length cmds →
  rule_failures cmds outcomes = [] ↔ Forall (λ o, o.2 = None) outcomes.
Proof.
  revert outcomes. induction cmds as [|argv cmds IH]; intros [|[stderr err] outcomes] Hl;
    cbn in Hl; try lia.
  - split; [constructor|done].
  - cbn [rule_failures]. unfold rule_failure. cbn [fst snd]. destruct err as [msg|]; cbn.
    + split; [done|]. by inversion 1.
    + rewrite IH by lia. split; [by constructor|by inversion 1].
Qed.

Lemma errors_Join_None errs : errors_Join errs = None ↔ errs = [].
Proof. by destruct errs. Qed.

(** C8. The host IP resolver runs the probe once.  When the probe fails,
    it returns the probe's execution error.  When the probe succeeds, it
    returns either the bare IPv4 address (four groups of one to three
    digits separated by dots, without the prefix length) captured by the
    leftmost match of the pattern [inet <ipv4>/<prefixlen>] in the
    probe's output, or, exactly when the pattern occurs nowhere in the
    output, the address-not-found error, which is no execution error. *)
Theorem extractIPAddress_outcomes (pid : string) (s : @State W T) :
  let probe := exec_CombinedOutput host (nsenter_argv pid) (world s) in
  let subject := String.list_ascii_of_string probe.1.1 in
  let r := extractIPAddress host pid s in
  exec_cmds (trace_of r) = [nsenter_argv pid]
  ∧ match probe.1.2 with
    | Some msg => result_of r = ("", Some (ErrExec msg))
    | None =>
        (¬ RxSpec.occurs subject ∧ result_of r = ("", Some ErrIPAddressNotFound))
        ∨ (∃ ip, RxSpec.leftmost subject ip ∧ RxSpec.dotted_quad ip
                 ∧ result_of r = (String.string_of_list_ascii ip, None))
    end
  ∧ (∀ msg, ErrIPAddressNotFound ≠ ErrExec msg).
Proof.
  cbn zeta. rewrite extractIPAddress_run. unfold result_of, trace_of. cbn [fst snd].
  split; [done|]. split; [|done].
  destruct (exec_CombinedOutput host (nsenter_argv pid) (world s)) as [[out [msg|]] w];
    cbn [fst snd resolve]; [done|].
  destruct (RxFacts.FindStringSubmatch_spec out) as [[Hno ->]|(whole & ip & Hl & ->)].
  - by left.
  - right. exists ip. split; [done|]. split; [|done].
    destruct Hl as (pre & s' & _ & [_ Hm] & _).
    by eapply RxFacts.matches_here_dotted_quad.
Qed.

(** C5. Once the address is resolved, the synchronizer attempts the rule
    of every declared network, in order, whether or not an earlier one
    failed: the firewall commands issued are exactly one per network, and
    no other command follows the probe.  The world it leaves is the one
    in which all of them have run, so what the successful ones appended
    stays.  The error returned is the join of the failures collected, one
    per failed command, and it is nil if and only if no command
    failed. *)
Theorem network_failures_collected networks containerID namespace pid port destinationPort
    (s : @State W T) ip :
  (extractIPAddress host pid s).1.1 = (ip, None) →
  let cID := namespace +:+ "-" +:+ containerID in
  let cmds := rule_cmds chain networks cID ip port destinationPort in
  let outcomes := run_rules host cmds (world (state_of (extractIPAddress host pid s))) in
  let r := createLoopbackIPtablesRules host chain networks containerID namespace pid
             port destinationPort s in
  firewall_cmds (trace_of r) = cmds
  ∧ exec_cmds (trace_of r) = nsenter_argv pid :: cmds
  ∧ length cmds = length networks
  ∧ length outcomes.1 = length networks
  ∧ world (state_of r) = outcomes.2
  ∧ tracker (state_of r) = tracker s
  ∧ result_of r = errors_Join (rule_failures cmds outcomes.1)
  ∧ (result_of r = None ↔ Forall (λ o, o.2 = None) outcomes.1).
Proof.
  intros Hr. cbn zeta.
  rewrite (createLoopbackIPtablesRules_resolved _ _ _ _ _ _ _ ip) by done.
  rewrite extractIPAddress_run. unfold result_of, state_of, trace_of. cbn [fst snd world tracker].
  split; [apply firewall_cmds_resolved|].
  split; [cbn; f_equal; apply exec_cmds_rule_events|].
  split; [unfold rule_cmds; by rewrite length_fmap|].
  split; [rewrite run_rules_length; unfold rule_cmds; by rewrite length_fmap|].
  do 3 (split; [done|]).
  rewrite errors_Join_None. apply rule_failures_nil, run_rules_length.
Qed.

(** C3 (as amended). When the networks label decodes and the address of
    the container resolves, the synchronizer issues, for every entry of
    the port map, for every binding of the entry whose host IP is
    127.0.0.1 and for every declared network, exactly one firewall
    command: table nat, append to the chain named after the network and
    [<namespace>-<containerID>], protocol tcp, destination 0.0.0.0/0,
    jump DNAT, destination port the binding's host port, target
    [<resolvedIP>:<containerPort>]; and it issues no other firewall
    command.  The protocol is the literal tcp: these are the commands the
    specification asks for when the entries that carry a 127.0.0.1
    binding declare the protocol tcp. *)
Theorem loopback_rules_appended portMappings containerID networks namespace pid ip nets
    (s : @State W T) :
  let cID := namespace +:+ "-" +:+ containerID in
  let issued := firewall_cmds (trace_of (execIptablesRules host json_Unmarshal_Strings chain
                                           range portMappings containerID networks namespace
                                           pid s)) in
  (∀ m, range m ≡ₚ map_to_list m) →
  json_Unmarshal_Strings networks = inr nets →
  resolves_to host pid ip →
  issued ≡ₚ issued_cmds chain nets cID ip portMappings
  ∧ ((∀ key bs b, (key, bs) ∈ range_PortMap range portMappings → b ∈ bs →
                  HostIP b = "127.0.0.1" → Port_Proto key = "tcp") →
     issued ≡ₚ spec_cmds chain nets cID ip portMappings).
Proof.
  cbn zeta. intros Hrange Hnets Hres.
  rewrite (execIptablesRules_cmds _ _ _ _ _ ip nets) by done.
  unfold issued_cmds, spec_cmds, range_PortMap in *. destruct portMappings as [m|]; [|done].
  split; [by rewrite (Hrange m)|]. intros Htcp.
  rewrite <- (Hrange m).
  rewrite (list_bind_ext_in _ (spec_entry_cmds chain nets (namespace +:+ "-" +:+ containerID) ip));
    [done|].
  intros [key bs] Hin. apply entry_cmds_loopback_tcp. intros b. by apply Htcp.
Qed.

End SynchronizerFacts.

(** ** The handlers, in closed form *)

Section HandlerFacts.

Context {W T : Type} (host : Host W) `{Tracker T}.
Context (json_Unmarshal_Ports : string → string + list Port)
        (json_Unmarshal_Strings : string → string + list string)
        (MustFormatChainNameWithPrefix : string → string → string → string)
        (range : PortTable → list (string * list PortBinding)).
Context (Unmarshal_TaskStart : string → TaskStart * option string)
        (Unmarshal_ContainerUpdate : string → ContainerUpdate * option string)
        (Unmarshal_TaskExit : string → TaskExit * option string).

Abbreviation chain := MustFormatChainNameWithPrefix.
Abbreviation sync := (execIptablesRules host json_Unmarshal_Strings chain range).
Abbreviation on_envelope :=
  (onEnvelope host json_Unmarshal_Ports json_Unmarshal_Strings chain range
     Unmarshal_TaskStart Unmarshal_ContainerUpdate Unmarshal_TaskExit).

Ltac run_done :=
  unfold mret, M_ret, portTracker_Get, portTracker_Remove, portTracker_Add, log_if_err,
    log_Errorf, log_Debugf, emit;
  cbn [fst snd world tracker after_lookup app];
  rewrite ?app_nil_r, <- ?app_assoc; cbn [app]; rewrite ?app_nil_r;
  try done.

Lemma client_lookup (id : string) (s : @State W T) :
  client (ContainerService_Get host id) s
  = (match (ContainerService_Get host id (world s)).1 with
     | inl msg => inl (ErrAPI msg)
     | inr labels => inr labels
     end, after_lookup host id s, []).
Proof. done. Qed.

Lemma labels_of_lookup (id : string) (s : @State W T) :
  labels_of (client (ContainerService_Get host id) s).1.1 = looked_up host id s.
Proof.
  rewrite client_lookup. unfold looked_up. cbn [fst].
  by destruct (ContainerService_Get host id (world s)).1.
Qed.

Lemma err_of_lookup (id : string) (s : @State W T) :
  err_of (client (ContainerService_Get host id) s).1.1 = lookup_error host id s.
Proof.
  rewrite client_lookup. unfold lookup_error. cbn [fst].
  by destruct (ContainerService_Get host id (world s)).1.
Qed.

Lemma onContainerUpdate_run (envelope : Envelope) (s : @State W T) :
  let cu := Unmarshal_ContainerUpdate (Event_Value envelope) in
  let id := cu_ID cu.1 in
  let ports := (extracted host json_Unmarshal_Ports id s).1 in
  let s1 := after_lookup host id s in
  let pre := prelude host json_Unmarshal_Ports
               "failed to unmarshal container update event: %v" cu.2 id
               (Namespace envelope) s in
  onContainerUpdate host json_Unmarshal_Ports Unmarshal_ContainerUpdate envelope s
  = if decide (len ports = 0) then (tt, s1, pre)
    else
      match Get id (tracker s) with
      | Some old =>
          if DeepEqual ports (Some old) then (tt, s1, pre)
          else
            let rm := Remove id (tracker s) in
            let ad := Add id ports rm.2 in
            (tt, mkState (world s1) ad.2,
             pre ++ EvTrackerRemove id
                 :: logged "failed to remove port mapping from container update event: %v" [] rm.1
                 ++ EvTrackerAdd id ports
                 :: logged "failed to add port mapping from container update event: %v" [] ad.1)
      | None =>
          let ad := Add id ports (tracker s) in
          (tt, mkState (world s1) ad.2,
           pre ++ EvTrackerAdd id ports
               :: logged "failed to add port mapping from container update event: %v" [] ad.1)
      end.
Proof.
  cbn zeta. unfold onContainerUpdate, prelude, proto_err.
  set (cu := Unmarshal_ContainerUpdate (Event_Value envelope)).
  unfold mbind, M_bind, log_if_err.
  pose proof (labels_of_lookup (cu_ID cu.1) s) as Hl.
  pose proof (err_of_lookup (cu_ID cu.1) s) as He.
  rewrite client_lookup in *. cbn [fst snd] in *. rewrite Hl, He.
  fold (extracted host json_Unmarshal_Ports (cu_ID cu.1) s).
  destruct (decide _) as [Hz|Hz]; [run_done|].
  unfold portTracker_Get. cbn [fst snd after_lookup tracker].
  destruct (Get (cu_ID cu.1) (tracker s)) as [old|] eqn:Hg; [|run_done].
  destruct (DeepEqual _ _); cbn [negb]; run_done.
Qed.

Lemma onTaskStart_run (envelope : Envelope) (s : @State W T) :
  let st := Unmarshal_TaskStart (Event_Value envelope) in
  let id := ts_ContainerID st.1 in
  let ports := (extracted host json_Unmarshal_Ports id s).1 in
  let s1 := after_lookup host id s in
  let pre := prelude host json_Unmarshal_Ports
               "failed to unmarshal container's start task: %v" st.2 id
               (Namespace envelope) s in
  onTaskStart host json_Unmarshal_Ports json_Unmarshal_Strings chain range
    Unmarshal_TaskStart envelope s
  = if decide (len ports = 0) then (tt, s1, pre)
    else
      let r := sync ports id (label (looked_up host id s) networkKey) (Namespace envelope)
                    (Itoa (ts_Pid st.1)) s1 in
      let ad := Add id ports (tracker (state_of r)) in
      (tt, mkState (world (state_of r)) ad.2,
       pre ++ trace_of r
           ++ logged "failed running iptable rules to update DNAT rule in CNI-HOSTPORT-DNAT chain: %v"
                     [] (result_of r)
           ++ EvTrackerAdd id ports
           :: logged "adding port mapping to tracker failed: %v" [] ad.1).
Proof.
  cbn zeta. unfold onTaskStart, prelude, proto_err.
  set (st := Unmarshal_TaskStart (Event_Value envelope)).
  unfold mbind, M_bind, log_if_err.
  pose proof (labels_of_lookup (ts_ContainerID st.1) s) as Hl.
  pose proof (err_of_lookup (ts_ContainerID st.1) s) as He.
  rewrite client_lookup in *. cbn [fst snd] in *. rewrite Hl, He.
  fold (extracted host json_Unmarshal_Ports (ts_ContainerID st.1) s).
  destruct (decide _) as [Hz|Hz]; [run_done|].
  unfold result_of, state_of, trace_of.
  destruct (execIptablesRules _ _ _ _ _ _ _ _ _ _) as [[err s2] l2].
  run_done.
Qed.

Lemma onTaskExit_run (envelope : Envelope) (s : @State W T) :
  let ex := Unmarshal_TaskExit (Event_Value envelope) in
  let id := te_ContainerID ex.1 in
  let pre := logged "failed to unmarshal container's exit task: %v" [] (proto_err ex.2) in
  onTaskExit Unmarshal_TaskExit envelope s
  = match Get id (tracker s) with
    | Some _ =>
        let rm := Remove id (tracker s) in
        (tt, mkState (world s) rm.2,
         pre ++ EvTrackerRemove id
             :: logged "removing port mapping from tracker failed: %v" [] rm.1)
    | None => (tt, s, pre)
    end.
Proof.
  cbn zeta. unfold onTaskExit.
  set (ex := Unmarshal_TaskExit (Event_Value envelope)).
  unfold mbind, M_bind, log_if_err, portTracker_Get. cbn [fst snd].
  destruct (Get _ _); run_done.
Qed.

Lemma onEnvelope_branch (envelope : Envelope) (s : @State W T) :
  on_envelope envelope s
  = let r :=
      if decide (Topic envelope = "/tasks/start") then
        onTaskStart host json_Unmarshal_Ports json_Unmarshal_Strings chain range
          Unmarshal_TaskStart envelope s
      else if decide (Topic envelope = "/containers/update") then
        onContainerUpdate host json_Unmarshal_Ports Unmarshal_ContainerUpdate envelope s
      else if decide (Topic envelope = "/tasks/exit") then
        onTaskExit Unmarshal_TaskExit envelope s
      else (tt, s, []) in
    (r.1.1, r.1.2, EvDebugf "received an event: %+v" [Topic envelope] :: r.2).
Proof.
  unfold onEnvelope, mbind, M_bind, log_Debugf, emit. cbn zeta.
  repeat (destruct (decide _)); cbn [fst snd app].
  - by destruct (onTaskStart _ _ _ _ _ _ _ _) as [[[] ?] ?].
  - by destruct (onContainerUpdate _ _ _ _ _) as [[[] ?] ?].
  - by destruct (onTaskExit _ _ _) as [[[] ?] ?].
  - done.
Qed.

Lemma MonitorPorts_msg (envelope : Envelope) (rest : list Select) (s : @State W T) :
  let monitor := MonitorPorts host json_Unmarshal_Ports json_Unmarshal_Strings chain range
                   Unmarshal_TaskStart Unmarshal_ContainerUpdate Unmarshal_TaskExit in
  let r := on_envelope envelope s in
  monitor (Msg envelope :: rest) s
  = ((monitor rest (state_of r)).1.1, (monitor rest (state_of r)).1.2,
     trace_of r ++ (monitor rest (state_of r)).2).
Proof.
  cbn zeta. cbn [MonitorPorts]. unfold mbind, M_bind, state_of, trace_of.
  destruct (onEnvelope _ _ _ _ _ _ _ _ _ s) as [[[] s1] l1]. cbn [fst snd].
  by destruct (MonitorPorts _ _ _ _ _ _ _ _ rest s1) as [[[] s2] l2].
Qed.

Lemma initializeContainer_run (cID : string) (s : @State W T) :
  let t := Container_Task host cID (world s) in
  let st := Task_Status host cID t.2 in
  let lb := Container_Labels host cID st.2 in
  initializeContainer host json_Unmarshal_Ports json_Unmarshal_Strings chain range cID s
  = if decide (len (Get cID (tracker s)) ≠ 0) then (tt, s, [])
    else
      match t.1 with
      | inl msg =>
          (tt, mkState t.2 (tracker s),
           [EvErrorf "failed getting container %s task: %s" [cID] (ErrAPI msg)])
      | inr pid =>
          match st.1 with
          | inl msg =>
              (tt, mkState st.2 (tracker s),
               [EvErrorf "failed getting container %s task status: %s" [cID] (ErrAPI msg)])
          | inr status =>
              if decide (status ≠ Running) then (tt, mkState st.2 (tracker s), [])
              else
                match lb.1 with
                | inl msg =>
                    (tt, mkState lb.2 (tracker s),
                     [EvErrorf "failed getting container %s labels: %s" [cID] (ErrAPI msg)])
                | inr labels =>
                    let x := createPortMappingFromString json_Unmarshal_Ports
                               (label labels portsKey) in
                    let pre := logged "failed to create port mapping for container %s: %v"
                                      [cID] x.2 in
                    if decide (len x.1 = 0) then (tt, mkState lb.2 (tracker s), pre)
                    else
                      let r := sync x.1 cID (label labels networkKey)
                                    (label labels namespaceKey) (Itoa pid)
                                    (mkState lb.2 (tracker s)) in
                      let ad := Add cID x.1 (tracker (state_of r)) in
                      (tt, mkState (world (state_of r)) ad.2,
                       pre ++ trace_of r
                           ++ logged
                                "failed running iptable rules to update DNAT rule in CNI-HOSTPORT-DNAT chain: %v"
                                [] (result_of r)
                           ++ EvTrackerAdd cID x.1
                           :: match ad.1 with
                              | Some e =>
                                  [EvErrorf "adding port mapping to tracker failed: %v" [] e]
                              | None =>
                                  [EvDebugf
                                     "initialized container %s task status: %+v with ports: %+v"
                                     [cID]]
                              end)
                end
          end
      end.
Proof.
  cbn zeta. unfold initializeContainer.
  unfold mbind at 1, M_bind at 1, portTracker_Get at 1. cbn [fst snd].
  destruct (decide _) as [Hg|Hg]; [run_done|].
  unfold mbind at 1, M_bind at 1, client at 1. cbn [fst snd].
  destruct (Container_Task host cID (world s)) as [[msg|pid] w1]; cbn [fst snd]; [run_done|].
  unfold mbind at 1, M_bind at 1, client at 1. cbn [fst snd world tracker].
  destruct (Task_Status host cID w1) as [[msg|status] w2]; cbn [fst snd]; [run_done|].
  destruct (decide _) as [Hs|Hs]; [run_done|].
  unfold mbind at 1, M_bind at 1, client at 1. cbn [fst snd world tracker].
  destruct (Container_Labels host cID w2) as [[msg|labels] w3]; cbn [fst snd]; [run_done|].
  unfold mbind at 1, M_bind at 1, log_if_err at 1. cbn [fst snd].
  destruct (decide _) as [Hz|Hz]; [run_done|].
  unfold mbind, M_bind, result_of, state_of, trace_of.
  destruct (execIptablesRules _ _ _ _ _ _ _ _ _ _) as [[err s2] l2].
  unfold portTracker_Add, log_if_err. cbn [fst snd].
  destruct (Add _ _ _) as [[e|] t2]; run_done.
Qed.

Lemma onEnvelope_update (envelope : Envelope) (s : @State W T) :
  Topic envelope = "/containers/update" →
  on_envelope envelope s
  = let r := onContainerUpdate host json_Unmarshal_Ports Unmarshal_ContainerUpdate envelope s in
    (r.1.1, r.1.2, EvDebugf "received an event: %+v" [Topic envelope] :: r.2).
Proof. intros Ht. rewrite onEnvelope_branch, Ht. by repeat case_decide. Qed.

Lemma onEnvelope_start (envelope : Envelope) (s : @State W T) :
  Topic envelope = "/tasks/start" →
  on_envelope envelope s
  = let r := onTaskStart host json_Unmarshal_Ports json_Unmarshal_Strings chain range
               Unmarshal_TaskStart envelope s in
    (r.1.1, r.1.2, EvDebugf "received an event: %+v" [Topic envelope] :: r.2).
Proof. intros Ht. rewrite onEnvelope_branch, Ht. by repeat case_decide. Qed.

Lemma onEnvelope_exit (envelope : Envelope) (s : @State W T) :
  Topic envelope = "/tasks/exit" →
  on_envelope envelope s
  = let r := onTaskExit Unmarshal_TaskExit envelope s in
    (r.1.1, r.1.2, EvDebugf "received an event: %+v" [Topic envelope] :: r.2).
Proof. intros Ht. rewrite onEnvelope_branch, Ht. by repeat case_decide. Qed.

Lemma exec_cmds_prelude format perr id ns (s : @State W T) :
  exec_cmds (prelude host json_Unmarshal_Ports format perr id ns s) = [].
Proof. unfold prelude. by trace_simpl. Qed.

Lemma tracker_ops_prelude format perr id ns (s : @State W T) :
  tracker_ops (prelude host json_Unmarshal_Ports format perr id ns s) = [].
Proof. unfold prelude. by trace_simpl. Qed.

#[local] Hint Rewrite exec_cmds_prelude tracker_ops_prelude : trace.

(** C1 (as amended). On a container-update event whose extracted mapping
    set is not empty and is not deeply equal to the one the tracker holds
    for the container, the handler calls the tracker exactly twice: one
    remove of the container, then one add of the new mapping set; the
    tracker ends in the state these two calls produce.  The handler
    starts no external command: it issues no firewall command. *)
Theorem update_changed_removes_then_adds (envelope : Envelope) (s : @State W T)
    (old : PortTable) :
  let id := cu_ID (Unmarshal_ContainerUpdate (Event_Value envelope)).1 in
  let ports := (extracted host json_Unmarshal_Ports id s).1 in
  let r := on_envelope envelope s in
  Topic envelope = "/containers/update" →
  len ports ≠ 0 →
  Get id (tracker s) = Some old →
  DeepEqual ports (Some old) = false →
  tracker_ops (trace_of r) = [EvTrackerRemove id; EvTrackerAdd id ports]
  ∧ tracker (state_of r) = (Add id ports (Remove id (tracker s)).2).2
  ∧ exec_cmds (trace_of r) = []
  ∧ firewall_cmds (trace_of r) = [].
Proof.
  cbn zeta. intros Ht Hlen Hget Hne.
  rewrite onEnvelope_update, onContainerUpdate_run by done. cbn zeta.
  rewrite decide_False, Hget, Hne by done.
  unfold trace_of, state_of. cbn [fst snd tracker].
  split; [by trace_simpl|]. split; [done|].
  match goal with |- exec_cmds ?l = [] ∧ _ =>
    enough (exec_cmds l = []) as He by (split; [exact He|by apply firewall_cmds_exec_nil]) end.
  by trace_simpl.
Qed.

(** Closes a goal [exec_cmds l = [] ∧ firewall_cmds l = []]. *)
Ltac no_commands :=
  match goal with
  | |- exec_cmds ?l = [] ∧ _ =>
      let He := fresh "He" in
      enough (exec_cmds l = []) as He
        by (split; [exact He|by apply firewall_cmds_exec_nil]);
      by trace_simpl
  end.

(** C4 (as amended). On a container-update event whose extracted mapping
    set is deeply equal to the one the tracker holds for the container
    (the same keys, in any order, and under each key the same bindings
    in the same order), the handler does not call a changing operation
    of the tracker, leaves the tracker as it is, and starts no external
    command, hence no firewall command. *)
Theorem update_unchanged_is_noop (envelope : Envelope) (s : @State W T) :
  let id := cu_ID (Unmarshal_ContainerUpdate (Event_Value envelope)).1 in
  let ports := (extracted host json_Unmarshal_Ports id s).1 in
  let r := on_envelope envelope s in
  Topic envelope = "/containers/update" →
  DeepEqual ports (Get id (tracker s)) = true →
  tracker_ops (trace_of r) = []
  ∧ tracker (state_of r) = tracker s
  ∧ exec_cmds (trace_of r) = []
  ∧ firewall_cmds (trace_of r) = [].
Proof.
  cbn zeta. intros Ht Heq.
  rewrite onEnvelope_update, onContainerUpdate_run by done. cbn zeta.
  unfold trace_of, state_of.
  destruct (decide _) as [Hz|Hz]; cbn [fst snd tracker].
  - split; [by trace_simpl|]. split; [done|]. no_commands.
  - destruct (Get _ (tracker s)) as [old|] eqn:Hg.
    + rewrite Heq. cbn [fst snd tracker].
      split; [by trace_simpl|]. split; [done|]. no_commands.
    + apply DeepEqual_eq in Heq. rewrite Heq in Hz. done.
Qed.

(** C9. On a task-exit event the handler starts no external command and
    leaves the world as it is.  If the tracker holds a record for the
    container of the event, the handler calls the tracker once, to remove
    that container; after it the tracker holds nothing for the container
    and holds for every other container what it held before.  If the
    tracker holds none, the handler calls no changing operation and
    leaves the whole state as it is. *)
Theorem exit_removes_only_that_record `{!TrackerLaws T} (envelope : Envelope)
    (s : @State W T) :
  let id := te_ContainerID (Unmarshal_TaskExit (Event_Value envelope)).1 in
  let r := on_envelope envelope s in
  Topic envelope = "/tasks/exit" →
  (exec_cmds (trace_of r) = [] ∧ firewall_cmds (trace_of r) = [])
  ∧ world (state_of r) = world s
  ∧ (Get id (tracker s) ≠ None →
     tracker_ops (trace_of r) = [EvTrackerRemove id]
     ∧ Get id (tracker (state_of r)) = None
     ∧ ∀ id', id' ≠ id → Get id' (tracker (state_of r)) = Get id' (tracker s))
  ∧ (Get id (tracker s) = None →
     tracker_ops (trace_of r) = [] ∧ state_of r = s).
Proof.
  cbn zeta. intros Ht.
  rewrite onEnvelope_exit, onTaskExit_run by done. cbn zeta.
  unfold trace_of, state_of.
  destruct (Get _ (tracker s)) as [old|] eqn:Hg; cbn [fst snd tracker world].
  - split; [no_commands|]. split; [done|]. split; [|done].
    intros _. split; [by trace_simpl|]. split; [apply Get_Remove|].
    intros id' Hne. by apply Get_Remove_ne.
  - split; [no_commands|]. split; [done|]. split; [done|].
    intros _. split; [by trace_simpl|done].
Qed.

Lemma logged_errors_logged format args err :
  logged_errors (logged format args err) = option_list err.
Proof. by destruct err. Qed.

Lemma String_length_0 (str : string) : String.length str = 0 ↔ str = "".
Proof. by destruct str. Qed.

Lemma createPortMappingFromString_empty :
  createPortMappingFromString json_Unmarshal_Ports "" = (Some ∅, None).
Proof. done. Qed.

Lemma createPortMappingFromString_malformed (portMapping msg : string) :
  portMapping ≠ "" →
  json_Unmarshal_Ports portMapping = inl msg →
  createPortMappingFromString json_Unmarshal_Ports portMapping = (None, Some (ErrJSON msg)).
Proof.
  intros Hne Hj. unfold createPortMappingFromString.
  rewrite decide_False by (by rewrite String_length_0). by rewrite Hj.
Qed.

(** C6. The extractor returns the empty mapping table and no error for
    the empty ports label, which is also what an absent label reads as.
    For a label the JSON decoder rejects it returns no table and the
    decoder's error; the handler of the start event then logs that
    error, calls no changing operation of the tracker, starts no
    external command, and the monitor loop goes on with the events that
    follow. *)
Theorem malformed_ports_label_is_skipped (portMapping msg : string) :
  let monitor := MonitorPorts host json_Unmarshal_Ports json_Unmarshal_Strings chain range
                   Unmarshal_TaskStart Unmarshal_ContainerUpdate Unmarshal_TaskExit in
  portMapping ≠ "" →
  json_Unmarshal_Ports portMapping = inl msg →
  createPortMappingFromString json_Unmarshal_Ports "" = (Some ∅, None)
  ∧ (∀ labels : Labels,
       labels !! portsKey = None →
       createPortMappingFromString json_Unmarshal_Ports (label labels portsKey)
       = (Some ∅, None))
  ∧ createPortMappingFromString json_Unmarshal_Ports portMapping = (None, Some (ErrJSON msg))
  ∧ (∀ (envelope : Envelope) (rest : list Select) (s : @State W T),
       let id := ts_ContainerID (Unmarshal_TaskStart (Event_Value envelope)).1 in
       let r := on_envelope envelope s in
       Topic envelope = "/tasks/start" →
       label (looked_up host id s) portsKey = portMapping →
       ErrJSON msg ∈ logged_errors (trace_of r)
       ∧ tracker_ops (trace_of r) = []
       ∧ exec_cmds (trace_of r) = []
       ∧ tracker (state_of r) = tracker s
       ∧ trace_of (monitor (Msg envelope :: rest) s)
         = trace_of r ++ trace_of (monitor rest (state_of r))).
Proof.
  cbn zeta. intros Hne Hj.
  split; [done|]. split; [intros labels Hl; unfold label; by rewrite Hl|].
  split; [by apply createPortMappingFromString_malformed|].
  intros envelope rest s Ht Hlabel.
  rewrite MonitorPorts_msg.
  rewrite onEnvelope_start, onTaskStart_run by done. cbn zeta.
  assert (extracted host json_Unmarshal_Ports
            (ts_ContainerID (Unmarshal_TaskStart (Event_Value envelope)).1) s
          = (None, Some (ErrJSON msg))) as Hx.
  { unfold extracted. rewrite Hlabel. by apply createPortMappingFromString_malformed. }
  rewrite decide_True by (by rewrite Hx).
  unfold trace_of, state_of. cbn [fst snd tracker after_lookup].
  split.
  { unfold prelude. rewrite Hx. cbn [snd logged_errors omap list_omap].
    fold (logged_errors). rewrite !logged_errors_app, !logged_errors_logged.
    apply elem_of_app. right. apply elem_of_app. right. cbn. by left. }
  split; [by trace_simpl|]. split; [by trace_simpl|]. done.
Qed.

Lemma initializeContainer_found (cID : string) (s : @State W T) pid labels :
  len (Get cID (tracker s)) = 0 →
  found host cID (world s) = Some (pid, labels) →
  let ports := ports_of json_Unmarshal_Ports labels in
  let s3 := mkState (found_world host cID (world s)) (tracker s) in
  let pre := logged "failed to create port mapping for container %s: %v" [cID]
               (createPortMappingFromString json_Unmarshal_Ports (label labels portsKey)).2 in
  initializeContainer host json_Unmarshal_Ports json_Unmarshal_Strings chain range cID s
  = if decide (len ports = 0) then (tt, s3, pre)
    else
      let r := sync ports cID (label labels networkKey) (label labels namespaceKey)
                    (Itoa pid) s3 in
      let ad := Add cID ports (tracker (state_of r)) in
      (tt, mkState (world (state_of r)) ad.2,
       pre ++ trace_of r
           ++ logged
                "failed running iptable rules to update DNAT rule in CNI-HOSTPORT-DNAT chain: %v"
                [] (result_of r)
           ++ EvTrackerAdd cID ports
           :: match ad.1 with
              | Some e => [EvErrorf "adding port mapping to tracker failed: %v" [] e]
              | None =>
                  [EvDebugf "initialized container %s task status: %+v with ports: %+v" [cID]]
              end).
Proof.
  intros Hg Hf. cbn zeta. rewrite initializeContainer_run. cbn zeta.
  rewrite decide_False by (intros Hn; by apply Hn).
  unfold found, found_world, ports_of in *.
  destruct (Container_Task host cID (world s)).1 as [?|pid']; [done|].
  destruct (Task_Status host cID _).1 as [?|[]]; try done.
  destruct (Container_Labels host cID _).1 as [?|labels']; [done|].
  injection Hf as -> ->.
  by rewrite decide_False by (intros Hn; by apply Hn).
Qed.

Lemma initializeContainer_not_found (cID : string) (s : @State W T) :
  found host cID (world s) = None →
  let r := initializeContainer host json_Unmarshal_Ports json_Unmarshal_Strings chain range
             cID s in
  tracker_ops (trace_of r) = [] ∧ exec_cmds (trace_of r) = []
  ∧ tracker (state_of r) = tracker s.
Proof.
  intros Hf. cbn zeta. rewrite initializeContainer_run. cbn zeta.
  unfold found in Hf. unfold trace_of, state_of.
  destruct (decide _); [done|].
  destruct (Container_Task host cID (world s)).1 as [?|pid']; [done|].
  destruct (Task_Status host cID _).1 as [?|status]; [done|].
  destruct (decide (status ≠ Running)) as [|Hr]; [done|].
  assert (status = Running) as -> by (destruct (decide (status = Running)); [done|by destruct Hr]).
  destruct (Container_Labels host cID _).1 as [?|labels']; done.
Qed.

Lemma elem_of_logged_errors format args err (tr : list Event) :
  EvErrorf format args err ∈ tr → err ∈ logged_errors tr.
Proof.
  induction tr as [|e tr IH]; [by intros ?%elem_of_nil|].
  intros [<-|Hin]%elem_of_cons.
  - cbn. by left.
  - specialize (IH Hin). destruct e; cbn; try done. by right.
Qed.

(** C10. On a task-start event and in the startup reconciler alike, when
    the extracted mapping set is not empty and the firewall rule
    synchronizer returns an error, that error is logged and the mapping
    set is added to the tracker all the same: the only changing call on
    the tracker is the add of the full mapping set, made on the tracker
    as it was before the event. *)
Theorem tracked_despite_firewall_error :
  (∀ (envelope : Envelope) (s : @State W T) (e : error),
     let st := Unmarshal_TaskStart (Event_Value envelope) in
     let id := ts_ContainerID st.1 in
     let ports := (extracted host json_Unmarshal_Ports id s).1 in
     let synced := sync ports id (label (looked_up host id s) networkKey)
                        (Namespace envelope) (Itoa (ts_Pid st.1)) (after_lookup host id s) in
     let r := on_envelope envelope s in
     Topic envelope = "/tasks/start" →
     len ports ≠ 0 →
     result_of synced = Some e →
     tracker_ops (trace_of r) = [EvTrackerAdd id ports]
     ∧ tracker (state_of r) = (Add id ports (tracker s)).2
     ∧ e ∈ logged_errors (trace_of r))
  ∧ (∀ (cID : string) (s : @State W T) (pid : Z) (labels : Labels) (e : error),
       let ports := ports_of json_Unmarshal_Ports labels in
       let synced := sync ports cID (label labels networkKey) (label labels namespaceKey)
                          (Itoa pid) (mkState (found_world host cID (world s)) (tracker s)) in
       let r := initializeContainer host json_Unmarshal_Ports json_Unmarshal_Strings chain
                  range cID s in
       len (Get cID (tracker s)) = 0 →
       found host cID (world s) = Some (pid, labels) →
       len ports ≠ 0 →
       result_of synced = Some e →
       tracker_ops (trace_of r) = [EvTrackerAdd cID ports]
       ∧ tracker (state_of r) = (Add cID ports (tracker s)).2
       ∧ e ∈ logged_errors (trace_of r)).
Proof.
  split.
  - cbn zeta. intros envelope s e Ht Hlen Hres.
    rewrite onEnvelope_start, onTaskStart_run by done. cbn zeta.
    rewrite decide_False by done.
    match goal with |- context [execIptablesRules ?a ?b ?c ?d ?e ?f ?g ?h ?i ?j] =>
      pose proof (execIptablesRules_frame a b c d e f g h i j) as [Hft Hfo] end.
    cbn zeta in Hft, Hfo. cbn [after_lookup tracker] in Hft.
    unfold trace_of, state_of, result_of in *. cbn [fst snd tracker].
    rewrite Hft, Hres. split; [|split; [done|]].
    + trace_simpl. by rewrite Hfo.
    + apply (elem_of_logged_errors
               "failed running iptable rules to update DNAT rule in CNI-HOSTPORT-DNAT chain: %v" []).
      cbn [logged]. set_solver.
  - cbn zeta. intros cID s pid labels e Hg Hf Hlen Hres.
    rewrite (initializeContainer_found _ _ pid labels) by done. cbn zeta.
    rewrite decide_False by done.
    match goal with |- context [execIptablesRules ?a ?b ?c ?d ?e ?f ?g ?h ?i ?j] =>
      pose proof (execIptablesRules_frame a b c d e f g h i j) as [Hft Hfo] end.
    cbn zeta in Hft, Hfo. cbn [tracker] in Hft.
    unfold trace_of, state_of, result_of in *. cbn [fst snd tracker].
    rewrite Hft, Hres. split; [|split; [done|]].
    + trace_simpl. rewrite Hfo. by destruct (Add _ _ _).1.
    + apply (elem_of_logged_errors
               "failed running iptable rules to update DNAT rule in CNI-HOSTPORT-DNAT chain: %v" []).
      cbn [logged]. set_solver.
Qed.

(** *** The startup reconciler *)

Abbreviation init :=
  (initializeContainer host json_Unmarshal_Ports json_Unmarshal_Strings chain range).
Abbreviation init_all :=
  (initializeContainers host json_Unmarshal_Ports json_Unmarshal_Strings chain range).
Abbreviation reconcile :=
  (initializeRunningContainers host json_Unmarshal_Ports json_Unmarshal_Strings chain range).

Lemma state_of_run {A : Type} (a : A) (s : @State W T) (l : list Event) :
  state_of (a, s, l) = s.
Proof. done. Qed.

Lemma trace_of_run {A : Type} (a : A) (s : @State W T) (l : list Event) :
  trace_of (a, s, l) = l.
Proof. done. Qed.

Lemma found_steady (c : string) (w w' : W) :
  steady host → found host c w = found host c w'.
Proof.
  intros Hs. unfold found. cbn zeta.
  destruct (Hs w w') as [_ Hq]. destruct (Hq c) as (-> & _ & _).
  destruct (Container_Task host c w').1 as [?|pid]; [done|].
  destruct (Hs (Container_Task host c w).2 (Container_Task host c w').2) as [_ Hq1].
  destruct (Hq1 c) as (_ & -> & _).
  destruct (Task_Status host c (Container_Task host c w').2).1 as [?|[]]; try done.
  destruct (Hs (Task_Status host c (Container_Task host c w).2).2
               (Task_Status host c (Container_Task host c w').2).2) as [_ Hq2].
  by destruct (Hq2 c) as (_ & _ & ->).
Qed.

Lemma publishes_steady (c : string) (w w' : W) :
  steady host →
  publishes host json_Unmarshal_Ports c w → publishes host json_Unmarshal_Ports c w'.
Proof. intros Hs. unfold publishes. by rewrite (found_steady c w w'). Qed.


Lemma init_tracked (c : string) (s : @State W T) :
  len (Get c (tracker s)) ≠ 0 → init c s = (tt, s, []).
Proof. intros Hg. rewrite initializeContainer_run. cbn zeta. by rewrite decide_True. Qed.

Lemma init_no_ports (c : string) (s : @State W T) pid labels :
  found host c (world s) = Some (pid, labels) →
  len (ports_of json_Unmarshal_Ports labels) = 0 →
  quiet s (init c s).
Proof.
  intros Hf Hz. destruct (decide (len (Get c (tracker s)) = 0)) as [Hg|Hg].
  - rewrite (initializeContainer_found _ _ pid labels) by done. cbn zeta.
    rewrite decide_True by done. unfold quiet, trace_of, state_of. cbn [fst snd tracker].
    by trace_simpl.
  - by rewrite init_tracked.
Qed.

Lemma init_applies (c : string) (s : @State W T) pid labels :
  len (Get c (tracker s)) = 0 →
  found host c (world s) = Some (pid, labels) →
  len (ports_of json_Unmarshal_Ports labels) ≠ 0 →
  let ports := ports_of json_Unmarshal_Ports labels in
  let synced := sync ports c (label labels networkKey) (label labels namespaceKey)
                     (Itoa pid) (mkState (found_world host c (world s)) (tracker s)) in
  tracker_ops (trace_of (init c s)) = [EvTrackerAdd c ports]
  ∧ tracker (state_of (init c s)) = (Add c ports (tracker s)).2
  ∧ exec_cmds (trace_of (init c s)) = exec_cmds (trace_of synced)
  ∧ firewall_cmds (trace_of (init c s)) = firewall_cmds (trace_of synced).
Proof.
  intros Hg Hf Hlen. cbn zeta.
  rewrite (initializeContainer_found _ _ pid labels) by done. cbn zeta.
  rewrite decide_False by done.
  match goal with |- context [execIptablesRules ?a ?b ?c ?d ?e ?f ?g ?h ?i ?j] =>
    pose proof (execIptablesRules_frame a b c d e f g h i j) as [Hft Hfo] end.
  cbn zeta in Hft, Hfo. cbn [tracker] in Hft.
  unfold trace_of, state_of in *. cbn [fst snd tracker].
  rewrite Hft. split; [|split; [done|]].
  - trace_simpl. rewrite Hfo. by destruct (Add _ _ _).1.
  - split; trace_simpl; destruct (Add _ _ _).1; trace_simpl; by rewrite app_nil_r.
Qed.

Lemma init_keeps `{!TrackerLaws T} (c : string) (s : @State W T) :
  tracker_wf (tracker s) →
  let s' := state_of (init c s) in
  tracker_wf (tracker s')
  ∧ (∀ id, len (Get id (tracker s)) ≠ 0 → Get id (tracker s') = Get id (tracker s))
  ∧ (publishes host json_Unmarshal_Ports c (world s) → len (Get c (tracker s')) ≠ 0).
Proof.
  intros Hwf. cbn zeta.
  destruct (decide (len (Get c (tracker s)) = 0)) as [Hg|Hg];
    [|rewrite init_tracked by done; by repeat split].
  destruct (found host c (world s)) as [[pid labels]|] eqn:Hf.
  - destruct (decide (len (ports_of json_Unmarshal_Ports labels) = 0)) as [Hz|Hz].
    + destruct (init_no_ports c s pid labels Hf Hz) as (_ & _ & Htr). rewrite Htr.
      split; [done|]. split; [done|].
      intros (pid' & labels' & Hf' & Hlen). rewrite Hf in Hf'. by simplify_eq.
    + destruct (init_applies c s pid labels Hg Hf Hz) as (_ & -> & _).
      split; [by apply Add_wf|]. split.
      * intros id Hid. apply Get_Add_ne. by intros ->.
      * intros _. by rewrite Get_Add.
  - destruct (initializeContainer_not_found c s Hf) as (_ & _ & Htr). rewrite Htr.
    split; [done|]. split; [done|].
    intros (pid' & labels' & Hf' & _). by rewrite Hf in Hf'.
Qed.


Lemma init_all_cons (c : string) (cs : list string) (s : @State W T) :
  init_all (c :: cs) s
  = (result_of (init_all cs (state_of (init c s))), state_of (init_all cs (state_of (init c s))),
     trace_of (init c s) ++ trace_of (init_all cs (state_of (init c s)))).
Proof.
  cbn [initializeContainers]. unfold mbind, M_bind, result_of, state_of, trace_of.
  destruct (initializeContainer _ _ _ _ _ c s) as [[[] s1] l1]. cbn [fst snd].
  by destruct (initializeContainers _ _ _ _ _ cs s1) as [[[] s2] l2].
Qed.

Lemma init_all_keeps `{!TrackerLaws T} (cs : list string) (s : @State W T) (w0 : W) :
  steady host →
  tracker_wf (tracker s) →
  let s' := state_of (init_all cs s) in
  tracker_wf (tracker s')
  ∧ (∀ id, len (Get id (tracker s)) ≠ 0 → Get id (tracker s') = Get id (tracker s))
  ∧ (∀ c, c ∈ cs → publishes host json_Unmarshal_Ports c w0 → len (Get c (tracker s')) ≠ 0).
Proof.
  intros Hst. cbn zeta. revert s.
  induction cs as [|c cs IH]; intros s Hwf.
  - split; [done|]. split; [done|]. by intros c ?%elem_of_nil.
  - rewrite init_all_cons, state_of_run.
    destruct (init_keeps c s Hwf) as (Hwf1 & Hk1 & Hp1).
    destruct (IH _ Hwf1) as (Hwf2 & Hk2 & Hp2).
    split; [done|]. split.
    + intros id Hid. rewrite Hk2 by (by rewrite Hk1). by apply Hk1.
    + intros c' [->|Hin]%elem_of_cons Hpub; [|by apply Hp2].
      assert (len (Get c (tracker (state_of (init c s)))) ≠ 0) as Hc
        by (apply Hp1; by eapply publishes_steady).
      by rewrite Hk2.
Qed.


Lemma reconcile_run (s : @State W T) :
  reconcile s
  = match (Containers host (world s)).1 with
    | inl msg =>
        (tt, mkState (Containers host (world s)).2 (tracker s),
         [EvErrorf "failed getting containers: %s" [] (ErrAPI msg)])
    | inr cs =>
        let r := init_all cs (mkState (Containers host (world s)).2 (tracker s)) in
        (result_of r, state_of r, trace_of r)
    end.
Proof.
  unfold initializeRunningContainers, mbind, M_bind, client. cbn [fst snd].
  destruct (Containers host (world s)).1 as [msg|cs]; [done|]. cbn zeta.
  by destruct (initializeContainers _ _ _ _ _ cs _) as [[[] s1] l1].
Qed.


End HandlerFacts.

(** ** Host IP normalization *)

Lemma NormalizeHostIP_loopback : NormalizeHostIP "127.0.0.1" = "127.0.0.1".
Proof. reflexivity. Qed.

Lemma NormalizeHostIP_other (ip : string) :
  ip ≠ "127.0.0.1" → ip ≠ "localhost" → NormalizeHostIP ip = "0.0.0.0".
Proof.
  intros H1 H2. unfold NormalizeHostIP.
  by rewrite !bool_decide_eq_false_2.
Qed.

(** C2 (the code departs from it). [NormalizeHostIP] returns the input
    [localhost] unchanged: its result there is neither 127.0.0.1 nor
    0.0.0.0, and a binding declared on [localhost] is stored with a host
    IP that the synchronizer's test for 127.0.0.1 does not recognise. *)
Theorem NormalizeHostIP_localhost_unchanged :
  NormalizeHostIP "localhost" = "localhost"
  ∧ NormalizeHostIP "localhost" ≠ "127.0.0.1"
  ∧ NormalizeHostIP "localhost" ≠ "0.0.0.0"
  ∧ (∀ json, json "lo" = inr [mkPort 8080 80 "tcp" "localhost"] →
             createPortMappingFromString json "lo"
             = (Some {["80/tcp" := [mkPortBinding "localhost" "8080"]]}, None)).
Proof.
  split; [reflexivity|]. split; [discriminate|]. split; [discriminate|].
  intros json Hj. unfold createPortMappingFromString. cbn [String.length decide].
  rewrite decide_False by discriminate. rewrite Hj. reflexivity.
Qed.

(** ** The tracker of the specification behaves as relied on *)

Lemma SpecTracker_add_wf id pm (t : SpecTracker.t) :
  SpecTracker.wf t → SpecTracker.wf (SpecTracker.add id pm t).2.
Proof.
  intros Hwf. unfold SpecTracker.add.
  destruct pm as [m|]; [|done]. destruct (decide _) as [|Hm]; [done|].
  destruct (t !! id) eqn:E; [done|]. cbn [snd].
  by apply map_Forall_insert_2.
Qed.

Lemma SpecTracker_remove_wf id (t : SpecTracker.t) :
  SpecTracker.wf t → SpecTracker.wf (SpecTracker.remove id t).2.
Proof. intros Hwf. by apply map_Forall_delete. Qed.

Lemma SpecTracker_get_add id pm (t : SpecTracker.t) :
  SpecTracker.wf t → len (SpecTracker.get id t) = 0 → len pm ≠ 0 →
  SpecTracker.get id (SpecTracker.add id pm t).2 = pm.
Proof.
  intros Hwf Hg Hp. unfold SpecTracker.add, SpecTracker.get in *.
  destruct pm as [m|]; [|done]. cbn [len] in Hp. rewrite decide_False by done.
  destruct (t !! id) as [old|] eqn:E.
  - cbn [len] in Hg. by destruct (Hwf id old E).
  - cbn [snd]. apply lookup_insert_eq.
Qed.

Lemma SpecTracker_get_add_ne id id' pm (t : SpecTracker.t) :
  id ≠ id' → SpecTracker.get id' (SpecTracker.add id pm t).2 = SpecTracker.get id' t.
Proof.
  intros Hne. unfold SpecTracker.add, SpecTracker.get.
  destruct pm as [m|]; [|done]. destruct (decide _); [done|].
  destruct (t !! id); [done|]. cbn [snd]. by apply lookup_insert_ne.
Qed.

Lemma SpecTracker_get_remove id (t : SpecTracker.t) :
  SpecTracker.get id (SpecTracker.remove id t).2 = None.
Proof. apply lookup_delete_eq. Qed.

Lemma SpecTracker_get_remove_ne id id' (t : SpecTracker.t) :
  id ≠ id' → SpecTracker.get id' (SpecTracker.remove id t).2 = SpecTracker.get id' t.
Proof. intros Hne. by apply lookup_delete_ne. Qed.

#[global] Instance SpecTracker_laws : TrackerLaws SpecTracker.t := {|
  tracker_wf := SpecTracker.wf;
  Add_wf := SpecTracker_add_wf;
  Remove_wf := SpecTracker_remove_wf;
  Get_Add := SpecTracker_get_add;
  Get_Add_ne := SpecTracker_get_add_ne;
  Get_Remove := SpecTracker_get_remove;
  Get_Remove_ne := SpecTracker_get_remove_ne;
|}.

(** ** The theorems at work on the concrete host *)

(** The update of a container tracked with another host port: one remove,
    one add of the new mapping set, no command. *)
Lemma update_changed_witness :
  let s := Demo.tracking "c1" Demo.web' in
  let r := Demo.on_envelope (Demo.update_env "c1") s in
  tracker_ops (trace_of r) = [EvTrackerRemove "c1"; EvTrackerAdd "c1" (Some Demo.web)]
  ∧ tracker (state_of r) = {["c1" := Demo.web]}
  ∧ exec_cmds (trace_of r) = []
  ∧ firewall_cmds (trace_of r) = [].
Proof.
  pose proof (update_changed_removes_then_adds Demo.host Demo.json_Unmarshal_Ports
     Demo.json_Unmarshal_Strings Demo.chain Demo.range
     Demo.Unmarshal_TaskStart Demo.Unmarshal_ContainerUpdate Demo.Unmarshal_TaskExit
     (Demo.update_env "c1") (Demo.tracking "c1" Demo.web') Demo.web') as Hthm.
  cbn zeta in Hthm.
  destruct Hthm as (H1 & H2 & H3 & H4);
    [reflexivity|vm_compute; lia|reflexivity|vm_compute; reflexivity|].
  cbn zeta. unfold Demo.on_envelope.
  split; [|split; [|split]].
  - rewrite H1. vm_compute. reflexivity.
  - rewrite H2. vm_compute. reflexivity.
  - exact H3.
  - exact H4.
Defined.

(** C1 as stated fails: the new mapping set of the container has a
    127.0.0.1 binding, for which the specification asks a firewall
    command, and the update handler issues none. *)
Lemma update_changed_counterexample :
  let s := Demo.tracking "c1" Demo.web' in
  let r := Demo.on_envelope (Demo.update_env "c1") s in
  (extracted Demo.host Demo.json_Unmarshal_Ports "c1" s).1 = Some Demo.web
  ∧ Get "c1" (tracker s) = Some Demo.web'
  ∧ Some Demo.web ≠ Some Demo.web'
  ∧ spec_cmds Demo.chain ["bridge"] "default-c1" "10.4.0.22" (Some Demo.web)
    = [spec_firewall_cmd "CNI-DN-bridge.default-c1" "tcp" "8080" "10.4.0.22" "80"]
  ∧ firewall_cmds (trace_of r) = []
  ∧ exec_cmds (trace_of r) = [].
Proof.
  cbn zeta. split; [vm_compute; reflexivity|]. split; [reflexivity|].
  split; [apply DeepEqual_neq; vm_compute; reflexivity|].
  split; [vm_compute; reflexivity|]. split; vm_compute; reflexivity.
Qed.

(** The web port of a container on three networks. *)
Lemma loopback_rules_witness :
  let issued :=
    firewall_cmds
      (trace_of (Demo.synchronize (Some Demo.web) "c2" Demo.three_networks "default" "4242"
                   Demo.start)) in
  issued
  ≡ₚ [spec_firewall_cmd "CNI-DN-bridge.default-c2" "tcp" "8080" "10.4.0.22" "80";
      spec_firewall_cmd "CNI-DN-missing.default-c2" "tcp" "8080" "10.4.0.22" "80";
      spec_firewall_cmd "CNI-DN-backend.default-c2" "tcp" "8080" "10.4.0.22" "80"]
  ∧ issued ≡ₚ spec_cmds Demo.chain ["bridge"; "missing"; "backend"] "default-c2" "10.4.0.22"
                (Some Demo.web).
Proof.
  pose proof (loopback_rules_appended Demo.host Demo.json_Unmarshal_Strings Demo.chain
                Demo.range (Some Demo.web) "c2" Demo.three_networks "default" "4242"
                "10.4.0.22" ["bridge"; "missing"; "backend"] Demo.start) as Hthm.
  cbn zeta in Hthm.
  destruct Hthm as [H1 H2]; [intros m; reflexivity|reflexivity|intros w; reflexivity|].
  cbn zeta. unfold Demo.synchronize. split.
  - rewrite H1. vm_compute. reflexivity.
  - apply H2. intros key bs b Hin _ _.
    cbn [range_PortMap] in Hin. unfold Demo.range, Demo.web in Hin.
    apply elem_of_map_to_list, lookup_singleton_Some in Hin as [<- _]. reflexivity.
Defined.

(** C3 as stated fails: for a udp port published on 127.0.0.1 the command
    issued matches protocol tcp, not the declared udp. *)
Lemma loopback_rules_counterexample :
  let r := Demo.synchronize (Some Demo.dns) "dns" Demo.one_network "default" "4242"
             Demo.start in
  firewall_cmds (trace_of r)
  = [spec_firewall_cmd "CNI-DN-bridge.default-dns" "tcp" "5353" "10.4.0.22" "53"]
  ∧ spec_cmds Demo.chain ["bridge"] "default-dns" "10.4.0.22" (Some Demo.dns)
    = [spec_firewall_cmd "CNI-DN-bridge.default-dns" "udp" "5353" "10.4.0.22" "53"]
  ∧ ¬ (firewall_cmds (trace_of r)
       ≡ₚ spec_cmds Demo.chain ["bridge"] "default-dns" "10.4.0.22" (Some Demo.dns)).
Proof.
  cbn zeta.
  assert (firewall_cmds
            (trace_of (Demo.synchronize (Some Demo.dns) "dns" Demo.one_network "default" "4242"
                         Demo.start))
          = [spec_firewall_cmd "CNI-DN-bridge.default-dns" "tcp" "5353" "10.4.0.22" "53"])
    as -> by (vm_compute; reflexivity).
  assert (spec_cmds Demo.chain ["bridge"] "default-dns" "10.4.0.22" (Some Demo.dns)
          = [spec_firewall_cmd "CNI-DN-bridge.default-dns" "udp" "5353" "10.4.0.22" "53"])
    as -> by (vm_compute; reflexivity).
  split; [reflexivity|]. split; [reflexivity|].
  intros Hp. apply Permutation_singleton_inj in Hp. discriminate Hp.
Qed.

(** The update of a container tracked with the very mapping set its
    labels declare. *)
Lemma update_unchanged_witness :
  let s := Demo.tracking "c1" Demo.web in
  let r := Demo.on_envelope (Demo.update_env "c1") s in
  tracker_ops (trace_of r) = []
  ∧ tracker (state_of r) = tracker s
  ∧ exec_cmds (trace_of r) = []
  ∧ firewall_cmds (trace_of r) = [].
Proof.
  apply (update_unchanged_is_noop Demo.host Demo.json_Unmarshal_Ports
           Demo.json_Unmarshal_Strings Demo.chain Demo.range
           Demo.Unmarshal_TaskStart Demo.Unmarshal_ContainerUpdate Demo.Unmarshal_TaskExit
           (Demo.update_env "c1") (Demo.tracking "c1" Demo.web)).
  - reflexivity.
  - vm_compute. reflexivity.
Defined.

(** C4 as stated fails: the tracked mapping set has the bindings of the
    extracted one in the other order, and the handler removes and adds
    the record again. *)
Lemma update_unchanged_counterexample :
  let s := Demo.tracking "two" Demo.two_swapped in
  let r := Demo.on_envelope (Demo.update_env "two") s in
  let ports := (extracted Demo.host Demo.json_Unmarshal_Ports "two" s).1 in
  same_mapping_set ports (Get "two" (tracker s))
  ∧ tracker_ops (trace_of r) = [EvTrackerRemove "two"; EvTrackerAdd "two" (Some Demo.two)].
Proof.
  cbn zeta. split.
  - assert ((extracted Demo.host Demo.json_Unmarshal_Ports "two"
               (Demo.tracking "two" Demo.two_swapped)).1 = Some Demo.two) as ->
      by (vm_compute; reflexivity).
    assert (Get "two" (tracker (Demo.tracking "two" Demo.two_swapped)) = Some Demo.two_swapped)
      as -> by reflexivity.
    intros k. unfold Demo.two, Demo.two_swapped.
    destruct (decide (k = "80/tcp")) as [->|Hk].
    + rewrite !lookup_singleton_eq. apply perm_swap.
    + by rewrite !lookup_singleton_ne.
  - vm_compute. reflexivity.
Qed.

(** Three networks, the chain of the second missing: the three commands
    are attempted, the first and third rules are appended, the failure of
    the second is returned. *)
Lemma network_failures_witness :
  let r := createLoopbackIPtablesRules Demo.host Demo.chain ["bridge"; "missing"; "backend"]
             "c2" "default" "4242" "80" "8080" Demo.start in
  firewall_cmds (trace_of r)
  = [iptables_argv "CNI-DN-bridge.default-c2" "8080" "10.4.0.22" "80";
     iptables_argv "CNI-DN-missing.default-c2" "8080" "10.4.0.22" "80";
     iptables_argv "CNI-DN-backend.default-c2" "8080" "10.4.0.22" "80"]
  ∧ world (state_of r)
    = [iptables_argv "CNI-DN-bridge.default-c2" "8080" "10.4.0.22" "80";
       iptables_argv "CNI-DN-backend.default-c2" "8080" "10.4.0.22" "80"]
  ∧ result_of r
    = Some (Join [Errorf "running iptables rule [%s] failed: %w - %s"
                    [Cmd_String (iptables_argv "CNI-DN-missing.default-c2" "8080"
                                   "10.4.0.22" "80");
                     "iptables: No chain/target/match by that name."]
                    (ErrExec "exit status 1")]).
Proof.
  pose proof (network_failures_collected (T := SpecTracker.t) Demo.host Demo.chain
                ["bridge"; "missing"; "backend"] "c2" "default" "4242" "80" "8080"
                Demo.start "10.4.0.22") as Hthm.
  cbn zeta in Hthm.
  destruct Hthm as (H1 & _ & _ & _ & H5 & _ & H7 & _); [vm_compute; reflexivity|].
  cbn zeta. split; [|split].
  - rewrite H1. vm_compute. reflexivity.
  - rewrite H5. vm_compute. reflexivity.
  - rewrite H7. vm_compute. reflexivity.
Defined.

(** A start event for a container with a truncated ports label, followed
    by another start event. *)
Lemma malformed_ports_label_witness :
  let r := Demo.on_envelope (Demo.start_env "bad") Demo.start in
  createPortMappingFromString Demo.json_Unmarshal_Ports Demo.bad_ports
  = (None, Some (ErrJSON "unexpected end of JSON input"))
  ∧ ErrJSON "unexpected end of JSON input" ∈ logged_errors (trace_of r)
  ∧ tracker_ops (trace_of r) = []
  ∧ exec_cmds (trace_of r) = []
  ∧ tracker (state_of r) = tracker Demo.start
  ∧ trace_of (Demo.monitor [Demo.start_of "bad"; Demo.start_of "c1"] Demo.start)
    = trace_of r ++ trace_of (Demo.monitor [Demo.start_of "c1"] (state_of r)).
Proof.
  pose proof (malformed_ports_label_is_skipped Demo.host Demo.json_Unmarshal_Ports
     Demo.json_Unmarshal_Strings Demo.chain Demo.range
     Demo.Unmarshal_TaskStart Demo.Unmarshal_ContainerUpdate Demo.Unmarshal_TaskExit
     Demo.bad_ports "unexpected end of JSON input") as Hthm.
  cbn zeta in Hthm.
  destruct Hthm as (_ & _ & H3 & H4); [vm_compute; discriminate|vm_compute; reflexivity|].
  cbn zeta. split; [exact H3|].
  apply (H4 (Demo.start_env "bad") [Demo.start_of "c1"] Demo.start); [reflexivity|].
  vm_compute. reflexivity.
Defined.

(** The exit of a tracked container. *)
Lemma exit_witness :
  let s := Demo.tracking "c1" Demo.web in
  let r := Demo.on_envelope (Demo.exit_env "c1") s in
  tracker_ops (trace_of r) = [EvTrackerRemove "c1"]
  ∧ Get "c1" (tracker (state_of r)) = None
  ∧ ∀ id', id' ≠ "c1" → Get id' (tracker (state_of r)) = Get id' (tracker s).
Proof.
  pose proof (exit_removes_only_that_record Demo.host Demo.json_Unmarshal_Ports
     Demo.json_Unmarshal_Strings Demo.chain Demo.range
     Demo.Unmarshal_TaskStart Demo.Unmarshal_ContainerUpdate Demo.Unmarshal_TaskExit
     (Demo.exit_env "c1") (Demo.tracking "c1" Demo.web)) as Hthm.
  cbn zeta in Hthm. destruct Hthm as (_ & _ & H3 & _); [reflexivity|].
  apply H3. vm_compute. discriminate.
Defined.

(** The start of a container whose network namespace cannot be entered:
    the synchronizer fails, the ports are tracked. *)
Lemma tracked_despite_firewall_error_witness :
  let r := Demo.on_envelope (Demo.start_env "lost") Demo.start in
  tracker_ops (trace_of r) = [EvTrackerAdd "lost" (Some Demo.web)]
  ∧ tracker (state_of r) = {["lost" := Demo.web]}
  ∧ ErrorfList ErrExecIptablesRule [ErrExec "exit status 1"] ∈ logged_errors (trace_of r).
Proof.
  pose proof (tracked_despite_firewall_error Demo.host Demo.json_Unmarshal_Ports
     Demo.json_Unmarshal_Strings Demo.chain Demo.range
     Demo.Unmarshal_TaskStart Demo.Unmarshal_ContainerUpdate Demo.Unmarshal_TaskExit)
    as [Hthm _].
  specialize (Hthm (Demo.start_env "lost") Demo.start
                (ErrorfList ErrExecIptablesRule [ErrExec "exit status 1"])).
  cbn zeta in Hthm.
  destruct Hthm as (H1 & H2 & H3); [reflexivity|vm_compute; lia|vm_compute; reflexivity|].
  cbn zeta. unfold Demo.on_envelope. split; [|split].
  - rewrite H1. vm_compute. reflexivity.
  - rewrite H2. vm_compute. reflexivity.
  - exact H3.
Defined.

(** ** The scenarios of the specification, run *)

(** Scenario A: the start of the container [c1]. *)
Example scenario_start :
  let r := Demo.monitor [Demo.start_of "c1"] Demo.start in
  Get "c1" (tracker (state_of r)) = Some Demo.web
  ∧ firewall_cmds (trace_of r)
    = [spec_firewall_cmd (Demo.chain "bridge" "default-c1" "DN-") "tcp" "8080" "10.4.0.22" "80"]
  ∧ world (state_of r) = firewall_cmds (trace_of r).
Proof. vm_compute. repeat split; reflexivity. Qed.

(** Scenario B: its exit afterwards. *)
Example scenario_exit :
  let before := Demo.monitor [Demo.start_of "c1"] Demo.start in
  let r := Demo.monitor [Demo.exit_of "c1"] (state_of before) in
  Get "c1" (tracker (state_of r)) = None
  ∧ exec_cmds (trace_of r) = []
  ∧ world (state_of r) = world (state_of before).
Proof. vm_compute. repeat split; reflexivity. Qed.

(** Scenario C: reconciliation finds [c1] and [dns] running with ports
    and [plain] without; a second reconciliation starts no command. *)
Example scenario_reconcile :
  let first := Demo.reconcile Demo.start in
  let second := Demo.reconcile (state_of first) in
  dom (tracker (state_of first)) = {["c1"; "dns"]}
  ∧ length (firewall_cmds (trace_of first)) = 2
  ∧ exec_cmds (trace_of second) = [].
Proof. vm_compute. repeat split; reflexivity. Qed.

(** Scenario D: the update of an untracked container without ports
    label. *)
Example scenario_update_without_ports :
  let r := Demo.monitor [Demo.update_of "plain"] Demo.start in
  tracker_ops (trace_of r) = []
  ∧ exec_cmds (trace_of r) = []
  ∧ logged_errors (trace_of r) = []
  ∧ tracker (state_of r) = ∅.
Proof. vm_compute. repeat split; reflexivity. Qed.

(** The resolver on the concrete host: the address of the interface, and
    the probe's failure. *)
Example scenario_resolve :
  result_of (extractIPAddress Demo.host "4242" Demo.start) = ("10.4.0.22", None)
  ∧ result_of (extractIPAddress Demo.host "7" Demo.start) = ("", Some (ErrExec "exit status 1"))
  ∧ resolve "1: lo    inet6 ::1/128 scope host" None = ("", Some ErrIPAddressNotFound).
Proof. vm_compute. repeat split; reflexivity. Qed.

(** * Further properties *)

Section ExtractorFacts.

Variable json_Unmarshal_Ports : string → string + list Port.

Lemma nat_NewPort_valid port :
  valid_port port → nat_NewPort (p_Protocol port) (p_ContainerPort port) = inr (port_key port).
Proof. intros Hv. unfold nat_NewPort. by rewrite decide_True. Qed.

Lemma nat_NewPort_invalid port :
  ¬ valid_port port →
  nat_NewPort (p_Protocol port) (p_ContainerPort port) = inl (ErrPort (Itoa (p_ContainerPort port))).
Proof. intros Hv. unfold nat_NewPort. by rewrite decide_False. Qed.

Lemma addPorts_cons_valid port rest (acc : PortTable) :
  valid_port port →
  addPorts (port :: rest) acc
  = addPorts rest (<[port_key port := slice_at acc (port_key port) ++ [binding_of port]]> acc).
Proof.
  intros Hv. cbn [addPorts]. rewrite nat_NewPort_valid by done.
  unfold slice_at. by destruct (acc !! port_key port).
Qed.

Lemma bindings_under_cons k port rest :
  bindings_under k (port :: rest)
  = (if decide (port_key port = k) then [binding_of port] else []) ++ bindings_under k rest.
Proof.
  unfold bindings_under. rewrite filter_cons. by destruct (decide _).
Qed.

Lemma binding_count_insert_fresh (m : PortTable) k bs :
  m !! k = None → binding_count (<[k := bs]> m) = length bs + binding_count m.
Proof.
  intros Hk. unfold binding_count.
  rewrite (map_to_list_insert m k bs Hk). reflexivity.
Qed.

Lemma binding_count_insert (m : PortTable) k b :
  binding_count (<[k := slice_at m k ++ [b]]> m) = binding_count m + 1.
Proof.
  unfold slice_at. destruct (m !! k) as [bs|] eqn:E; cbn [default].
  - rewrite <- (insert_delete_id m k bs E) at 2.
    rewrite <- insert_delete_eq.
    rewrite !binding_count_insert_fresh by apply lookup_delete_eq.
    rewrite length_app. cbn. lia.
  - rewrite binding_count_insert_fresh by done. cbn. lia.
Qed.

Lemma slice_at_insert (m : PortTable) k k' bs :
  slice_at (<[k := bs]> m) k' = if decide (k = k') then bs else slice_at m k'.
Proof.
  unfold slice_at. destruct (decide (k = k')) as [<-|Hk].
  - by rewrite lookup_insert_eq.
  - by rewrite lookup_insert_ne.
Qed.

(** The loop over valid ports: under every key the slice grows by the
    bindings of the ports stored under that key, in order. *)
Lemma addPorts_valid ports (acc : PortTable) :
  Forall valid_port ports →
  ∃ m, addPorts ports acc = inr m
       ∧ (∀ k, slice_at m k = slice_at acc k ++ bindings_under k ports)
       ∧ (no_empty_slice acc → no_empty_slice m)
       ∧ (∀ k, m !! k = None ↔ acc !! k = None ∧ bindings_under k ports = [])
       ∧ binding_count m = binding_count acc + length ports.
Proof.
  intros Hv. revert acc. induction Hv as [|port rest Hp Hrest IH]; intros acc.
  - exists acc. split; [done|]. split; [|split; [done|split]].
    + intros k. by rewrite app_nil_r.
    + intros k. unfold bindings_under. rewrite filter_nil. cbn. tauto.
    + cbn. lia.
  - rewrite addPorts_cons_valid by done.
    set (key := port_key port). set (b := binding_of port).
    destruct (IH (<[key := slice_at acc key ++ [b]]> acc)) as (m & Hm & Hs & Hne & Hnone & Hc).
    exists m. split; [done|]. split; [|split; [|split]].
    + intros k. rewrite Hs, bindings_under_cons, slice_at_insert. fold key b.
      destruct (decide (key = k)) as [<-|Hk]; [|done].
      by rewrite <- app_assoc.
    + intros Hacc. apply Hne. intros k bs. destruct (decide (key = k)) as [<-|Hk].
      * rewrite lookup_insert_eq. intros [= <-]. by destruct (slice_at acc key).
      * rewrite lookup_insert_ne by done. apply Hacc.
    + intros k. rewrite Hnone, bindings_under_cons. fold key b.
      destruct (decide (key = k)) as [<-|Hk].
      * rewrite lookup_insert_eq. cbn [app].
        split; [intros [[=] _]|intros [_ [=]]].
      * by rewrite lookup_insert_ne.
    + rewrite Hc, binding_count_insert. cbn [length]. lia.
Qed.

(** The loop stops at the first port the [nat] package refuses. *)
Lemma addPorts_invalid good bad rest (acc : PortTable) :
  Forall valid_port good → ¬ valid_port bad →
  addPorts (good ++ bad :: rest) acc = inl (ErrPort (Itoa (p_ContainerPort bad))).
Proof.
  intros Hg Hb. revert acc. induction Hg as [|port good Hp Hgood IH]; intros acc.
  - cbn [app addPorts]. by rewrite nat_NewPort_invalid.
  - rewrite <- app_comm_cons, addPorts_cons_valid by done. apply IH.
Qed.

(** A list of ports is all valid, or splits at its first invalid port. *)
Lemma first_invalid_port (ports : list Port) :
  Forall valid_port ports
  ∨ ∃ good bad rest, ports = good ++ bad :: rest ∧ Forall valid_port good ∧ ¬ valid_port bad.
Proof.
  induction ports as [|port ports IH]; [by left|].
  destruct (decide (valid_port port)) as [Hp|Hp].
  - destruct IH as [IH|(good & bad & rest & -> & Hg & Hb)].
    + left. by constructor.
    + right. exists (port :: good), bad, rest. split; [done|]. split; [by constructor|done].
  - right. exists [], port, ports. done.
Qed.

Lemma slice_at_empty k : slice_at ∅ k = [].
Proof. unfold slice_at. by rewrite lookup_empty. Qed.

Lemma no_empty_slice_empty : no_empty_slice ∅.
Proof. intros k bs. by rewrite lookup_empty. Qed.

Lemma binding_count_empty : binding_count ∅ = 0.
Proof. unfold binding_count. by rewrite map_to_list_empty. Qed.

Lemma createPortMappingFromString_decoded (portMapping : string) ports :
  portMapping ≠ "" → json_Unmarshal_Ports portMapping = inr ports →
  createPortMappingFromString json_Unmarshal_Ports portMapping
  = match addPorts ports ∅ with
    | inl err => (None, Some err)
    | inr portMap => (Some portMap, None)
    end.
Proof.
  intros Hne Hj. unfold createPortMappingFromString.
  rewrite decide_False by (by rewrite String_length_0). by rewrite Hj.
Qed.

(** X1. When the ports label decodes and every container port is within
    0..65535, the extractor succeeds with a port map in which each key
    [<containerPort>/<protocol>] holds exactly the bindings of the
    declared ports with that key, in the order of the label; no key holds
    an empty slice, and the map holds as many bindings as the label
    declares ports: nothing is dropped, merged or duplicated. *)
Theorem extractor_groups_by_key (portMapping : string) (ports : list Port) :
  portMapping ≠ "" →
  json_Unmarshal_Ports portMapping = inr ports →
  Forall valid_port ports →
  ∃ m : PortTable,
    createPortMappingFromString json_Unmarshal_Ports portMapping = (Some m, None)
    ∧ (∀ k, m !! k = if decide (bindings_under k ports = []) then None
                     else Some (bindings_under k ports))
    ∧ binding_count m = length ports.
Proof.
  intros Hne Hj Hv. rewrite (createPortMappingFromString_decoded _ _ Hne Hj).
  destruct (addPorts_valid ports ∅ Hv) as (m & -> & Hs & Hnes & Hnone & Hc).
  exists m. split; [done|]. split.
  - intros k. specialize (Hs k). rewrite slice_at_empty in Hs. cbn [app] in Hs.
    destruct (decide _) as [He|He].
    + apply Hnone. by rewrite lookup_empty.
    + unfold slice_at in Hs. destruct (m !! k) as [bs|] eqn:E; cbn [default] in Hs.
      * f_equal. exact Hs.
      * by rewrite <- Hs in He.
  - by rewrite Hc, binding_count_empty.
Qed.

(** X2. The extractor stops at the first declared port whose container
    port the [nat] package refuses (one outside 0..65535): it returns the
    nil map together with that port's error, whatever valid ports come
    before or after it. *)
Theorem extractor_stops_at_first_invalid_port (portMapping : string) (good rest : list Port)
    (bad : Port) :
  portMapping ≠ "" →
  json_Unmarshal_Ports portMapping = inr (good ++ bad :: rest) →
  Forall valid_port good →
  ¬ valid_port bad →
  createPortMappingFromString json_Unmarshal_Ports portMapping
  = (None, Some (ErrPort (Itoa (p_ContainerPort bad)))).
Proof.
  intros Hne Hj Hg Hb. rewrite (createPortMappingFromString_decoded _ _ Hne Hj).
  by rewrite addPorts_invalid.
Qed.

Lemma createPortMappingFromString_cases (portMapping : string) :
  (portMapping = ""
   ∧ createPortMappingFromString json_Unmarshal_Ports portMapping = (Some ∅, None))
  ∨ (portMapping ≠ ""
     ∧ ∃ msg, json_Unmarshal_Ports portMapping = inl msg
              ∧ createPortMappingFromString json_Unmarshal_Ports portMapping
                = (None, Some (ErrJSON msg)))
  ∨ (portMapping ≠ ""
     ∧ ∃ ports, json_Unmarshal_Ports portMapping = inr ports
                ∧ ¬ Forall valid_port ports
                ∧ ∃ err, createPortMappingFromString json_Unmarshal_Ports portMapping
                         = (None, Some err))
  ∨ (portMapping ≠ ""
     ∧ ∃ ports m, json_Unmarshal_Ports portMapping = inr ports
                  ∧ Forall valid_port ports
                  ∧ createPortMappingFromString json_Unmarshal_Ports portMapping
                    = (Some m, None)
                  ∧ (∀ k, slice_at m k = bindings_under k ports)
                  ∧ no_empty_slice m
                  ∧ (∀ k, m !! k = None ↔ bindings_under k ports = [])).
Proof.
  destruct (decide (portMapping = "")) as [->|Hne].
  { left. split; [done|]. apply createPortMappingFromString_empty. }
  right. destruct (json_Unmarshal_Ports portMapping) as [msg|ports] eqn:Hj.
  { left. split; [done|]. exists msg. split; [done|].
    by apply createPortMappingFromString_malformed. }
  right. rewrite (createPortMappingFromString_decoded _ _ Hne Hj).
  destruct (first_invalid_port ports) as [Hv|(good & bad & rest & -> & Hg & Hb)].
  - right. split; [done|].
    destruct (addPorts_valid ports ∅ Hv) as (m & -> & Hs & Hnes & Hnone & _).
    exists ports, m. split; [done|]. split; [done|]. split; [done|]. split; [|split].
    + intros k. by rewrite Hs, slice_at_empty.
    + apply Hnes, no_empty_slice_empty.
    + intros k. rewrite Hnone, lookup_empty. tauto.
  - left. split; [done|]. eexists. split; [done|]. split.
    + intros Hall. apply Forall_app in Hall as [_ Hall]. by inversion Hall.
    + rewrite addPorts_invalid by done. by eexists.
Qed.

(** X3. The extractor returns an error exactly when the label is not
    empty and either does not decode or declares a container port
    outside 0..65535; and it returns the nil map exactly when it returns
    an error. *)
Theorem extractor_fails_iff (portMapping : string) :
  let r := createPortMappingFromString json_Unmarshal_Ports portMapping in
  (r.2 ≠ None
   ↔ portMapping ≠ ""
     ∧ match json_Unmarshal_Ports portMapping with
       | inl _ => True
       | inr ports => ¬ Forall valid_port ports
       end)
  ∧ (r.1 = None ↔ r.2 ≠ None).
Proof.
  cbn zeta.
  destruct (createPortMappingFromString_cases portMapping)
    as [(-> & ->)|[(Hne & msg & Hj & ->)|[(Hne & ports & Hj & Hv & err & ->)
                                         |(Hne & ports & m & Hj & Hv & -> & _)]]];
    cbn [fst snd]; try rewrite Hj.
  - split; split; try done. by intros [? _].
  - split; split; done.
  - split; split; done.
  - split; split; try done. by intros [_ ?].
Qed.

(** X4. The port map the extractor returns has length 0, which is what
    makes the handlers and the reconciler skip the container, exactly
    when the label is empty, or does not decode, or decodes to no port at
    all, or declares a container port outside 0..65535. *)
Theorem extractor_yields_no_ports_iff (portMapping : string) :
  len (createPortMappingFromString json_Unmarshal_Ports portMapping).1 = 0
  ↔ portMapping = ""
    ∨ match json_Unmarshal_Ports portMapping with
      | inl _ => True
      | inr ports => ports = [] ∨ ¬ Forall valid_port ports
      end.
Proof.
  destruct (createPortMappingFromString_cases portMapping)
    as [(-> & ->)|[(Hne & msg & Hj & ->)|[(Hne & ports & Hj & Hv & err & ->)
                                         |(Hne & ports & m & Hj & Hv & -> & Hs & _ & Hnone)]]];
    cbn [fst snd len]; try rewrite Hj.
  - rewrite map_size_empty. tauto.
  - tauto.
  - tauto.
  - split.
    + intros Hm%map_size_empty_inv. subst m. right. left.
      destruct ports as [|port ports]; [done|].
      specialize (Hnone (port_key port)). rewrite lookup_empty in Hnone.
      destruct Hnone as [Hnone _]. specialize (Hnone eq_refl).
      rewrite bindings_under_cons, decide_True in Hnone by done. discriminate Hnone.
    + intros [?|[->|?]]; [done| |done].
      assert (m = ∅) as ->; [|by rewrite map_size_empty].
      apply map_empty. intros k. apply Hnone. unfold bindings_under. by rewrite filter_nil.
Qed.

(** X5. Every binding of a port map the extractor returns has the host
    IP 127.0.0.1, localhost or 0.0.0.0. *)
Theorem extractor_host_ips (portMapping : string) (m : PortTable) (err : option error)
    (k : string) (bs : list PortBinding) (b : PortBinding) :
  createPortMappingFromString json_Unmarshal_Ports portMapping = (Some m, err) →
  m !! k = Some bs →
  b ∈ bs →
  HostIP b = "127.0.0.1" ∨ HostIP b = "localhost" ∨ HostIP b = "0.0.0.0".
Proof.
  intros Hr Hk Hb.
  destruct (createPortMappingFromString_cases portMapping)
    as [(-> & Hc)|[(Hne & msg & Hj & Hc)|[(Hne & ports & Hj & Hv & e & Hc)
                                         |(Hne & ports & m' & Hj & Hv & Hc & Hs & _)]]];
    rewrite Hc in Hr; try discriminate Hr.
  - injection Hr as <- <-. by rewrite lookup_empty in Hk.
  - injection Hr as <- <-. specialize (Hs k). unfold slice_at in Hs. rewrite Hk in Hs.
    change (bs = bindings_under k ports) in Hs. subst bs. unfold bindings_under in Hb.
    apply list_elem_of_fmap in Hb as (port & -> & _). cbn [binding_of HostIP].
    unfold NormalizeHostIP.
    destruct (bool_decide (p_HostIP port = "127.0.0.1")) eqn:E1;
      [apply bool_decide_eq_true in E1; by left|].
    destruct (bool_decide (p_HostIP port = "localhost")) eqn:E2;
      [apply bool_decide_eq_true in E2; right; by left|].
    right. by right.
Qed.

End ExtractorFacts.

(** X6. [NormalizeHostIP] is idempotent; its result is 127.0.0.1 only for
    the input 127.0.0.1, and 0.0.0.0 exactly for the inputs other than
    127.0.0.1 and localhost. *)
Theorem NormalizeHostIP_idempotent (ip : string) :
  NormalizeHostIP (NormalizeHostIP ip) = NormalizeHostIP ip
  ∧ (NormalizeHostIP ip = "127.0.0.1" ↔ ip = "127.0.0.1")
  ∧ (NormalizeHostIP ip = "0.0.0.0" ↔ ip ≠ "127.0.0.1" ∧ ip ≠ "localhost").
Proof.
  destruct (decide (ip = "127.0.0.1")) as [->|H1]; [by repeat split; try intros [? _]|].
  destruct (decide (ip = "localhost")) as [->|H2]; [by repeat split; try intros [_ ?]|].
  rewrite (NormalizeHostIP_other ip H1 H2). by repeat split.
Qed.

Lemma has_infix_app lit p q : has_infix lit (p ++ lit ++ q) = true.
Proof.
  induction p as [|c p IH]; cbn [app].
  - destruct (lit ++ q) eqn:E; cbn [has_infix];
      rewrite <- E; by rewrite (proj2 (RxFacts.literal_spec lit (lit ++ q) q) eq_refl).
  - cbn [has_infix]. rewrite IH. by destruct (Rx.literal lit (c :: p ++ lit ++ q)).
Qed.

(** The literal of the pattern cannot start before an occurrence of
    itself and run into it. *)
Lemma inet_no_overlap (pre pre' x y : list ascii) :
  pre' ++ Rx.inet ++ x = pre ++ Rx.inet ++ y →
  (length pre' < length pre)%nat →
  has_infix Rx.inet pre = true.
Proof.
  intros Heq Hlen.
  assert (∃ u, pre = pre' ++ u ∧ Rx.inet ++ x = u ++ Rx.inet ++ y) as (u & -> & Hu).
  { apply app_eq_inv in Heq as [(u & -> & Hu)|(u & -> & Hu)].
    - rewrite length_app in Hlen. lia.
    - by exists u. }
  rewrite length_app in Hlen.
  destruct u as [|c1 [|c2 [|c3 [|c4 u]]]]; cbn in Hlen, Hu; try lia; try discriminate Hu.
  injection Hu as <- <- <- <- _.
  apply (has_infix_app Rx.inet pre' u).
Qed.

Section ResolverFacts.

Context {W T : Type} (host : Host W).

Lemma matches_here_capture (s ip ip' : list ascii) :
  RxSpec.matches_here s ip → RxSpec.matches_here s ip' → ip = ip'.
Proof.
  intros [whole H1]%RxFacts.match_here_complete [whole' H2]%RxFacts.match_here_complete.
  congruence.
Qed.

(** X7. When the probe succeeds and its output reads, after a prefix in
    which [inet] does not occur and which does not end in a word byte,
    [inet], white space, four groups of one to three digits separated by
    dots, a slash and one or two digits, the resolver returns these four
    groups with their dots, and no error. *)
Theorem extractIPAddress_reads_first_address (pid : string) (s : @State W T)
    (pre ws a b c d pl rest : list ascii) :
  let probe := exec_CombinedOutput host (nsenter_argv pid) (world s) in
  let ip := a ++ Rx.dot :: b ++ Rx.dot :: c ++ Rx.dot :: d in
  probe.1.2 = None →
  String.list_ascii_of_string probe.1.1 = pre ++ Rx.inet ++ ws ++ ip ++ Rx.slash :: pl ++ rest →
  has_infix Rx.inet pre = false →
  RxSpec.at_boundary pre →
  RxSpec.spaces ws →
  RxSpec.digits 3 a → RxSpec.digits 3 b → RxSpec.digits 3 c → RxSpec.digits 3 d →
  RxSpec.digits 2 pl →
  result_of (extractIPAddress host pid s) = (String.string_of_list_ascii ip, None).
Proof.
  intros probe ip Herr Hout Hpre Hb Hws Ha Hb' Hc Hd Hpl.
  assert (RxSpec.matches_here (Rx.inet ++ ws ++ ip ++ Rx.slash :: pl ++ rest) ip) as Hm.
  { exists ws, pl, rest. split; [done|]. split; [done|]. split; [|done].
    by exists a, b, c, d. }
  rewrite extractIPAddress_run. unfold result_of. cbn [fst].
  fold probe. rewrite Herr. unfold resolve.
  destruct (RxFacts.FindStringSubmatch_spec probe.1.1) as [[Hno _]|(whole & ip' & Hl & ->)].
  { exfalso. apply Hno. rewrite Hout. eexists pre, _, ip. by split. }
  f_equal. f_equal.
  destruct Hl as (pre' & s' & Hsub & [Hb1 Hm1] & Hleft). rewrite Hout in Hsub.
  destruct (lt_eq_lt_dec (length pre') (length pre)) as [[Hlt|Heq]|Hgt].
  - exfalso. destruct Hm1 as (ws1 & pl1 & rest1 & -> & _).
    rewrite (inet_no_overlap pre pre' _ _ (eq_sym Hsub) Hlt) in Hpre. discriminate Hpre.
  - apply app_inj_1 in Hsub as [-> <-]; [|done].
    by apply (matches_here_capture _ _ _ Hm1 Hm).
  - exfalso. by apply (Hleft pre _ ip Hout Hgt).
Qed.

(** X8. When the probe succeeds and [inet] occurs nowhere in its output
    (the empty output of an interface without IPv4 address, say), the
    resolver returns the address-not-found error, having run the probe
    and nothing else. *)
Theorem extractIPAddress_not_found_without_inet (pid : string) (s : @State W T) :
  let probe := exec_CombinedOutput host (nsenter_argv pid) (world s) in
  probe.1.2 = None →
  has_infix Rx.inet (String.list_ascii_of_string probe.1.1) = false →
  extractIPAddress host pid s
  = (("", Some ErrIPAddressNotFound), mkState probe.2 (tracker s), [EvExec (nsenter_argv pid)]).
Proof.
  intros probe Herr Hno. rewrite extractIPAddress_run. fold probe. rewrite Herr.
  f_equal. f_equal. unfold resolve.
  destruct (RxFacts.FindStringSubmatch_spec probe.1.1) as [[_ ->]|(whole & ip & Hl & _)];
    [done|].
  exfalso. destruct Hl as (pre & s' & Hsub & [_ (ws & pl & rest & -> & _)] & _).
  rewrite Hsub, has_infix_app in Hno. discriminate Hno.
Qed.

End ResolverFacts.

Section SynchronizerMore.

Context {W T : Type} (host : Host W).
Context (json_Unmarshal_Strings : string → string + list string)
        (MustFormatChainNameWithPrefix : string → string → string → string)
        (range : PortTable → list (string * list PortBinding)).

Abbreviation chain := MustFormatChainNameWithPrefix.
Abbreviation sync := (execIptablesRules (T := T) host json_Unmarshal_Strings chain range).

Lemma loopback_bindings_cons portProto bs rest :
  loopback_bindings ((portProto, bs) :: rest)
  = loopback_bindings [(portProto, bs)] ++ loopback_bindings rest.
Proof. unfold loopback_bindings. rewrite !bind_cons. cbn [mbind list_bind]. by rewrite app_nil_r. Qed.

Lemma loopback_bindings_entry_cons portProto b bs :
  loopback_bindings [(portProto, b :: bs)]
  = (if decide (HostIP b = "127.0.0.1") then [(portProto, b)] else [])
    ++ loopback_bindings [(portProto, bs)].
Proof.
  unfold loopback_bindings. rewrite !bind_cons. cbn [fst snd]. rewrite !bind_cons.
  cbn [mbind list_bind]. by rewrite !app_nil_r.
Qed.

(** One call of the rule writer, whatever the resolver does. *)
Lemma createLoopbackIPtablesRules_cases networks containerID namespace pid port dport
    (s : @State W T) :
  let r := createLoopbackIPtablesRules host chain networks containerID namespace pid port dport s in
  let probe := exec_CombinedOutput host (nsenter_argv pid) (world s) in
  let cID := namespace +:+ "-" +:+ containerID in
  (∃ e, (resolve probe.1.1 probe.1.2).2 = Some e
        ∧ r = (Some e, mkState probe.2 (tracker s), [EvExec (nsenter_argv pid)]))
  ∨ (∃ ip, resolve probe.1.1 probe.1.2 = (ip, None)
           ∧ let cmds := rule_cmds chain networks cID ip port dport in
             r = (errors_Join (rule_failures cmds (run_rules host cmds probe.2).1),
                  mkState (run_rules host cmds probe.2).2 (tracker s),
                  EvExec (nsenter_argv pid)
                  :: EvDebugf "found the ip address: %s for containerID: %s" [ip; containerID]
                  :: rule_events chain containerID cID networks ip port dport)).
Proof.
  cbn zeta.
  destruct (resolve _ _) as [ip [e|]] eqn:Hr.
  - left. exists e. split; [done|].
    rewrite (createLoopbackIPtablesRules_unresolved host chain _ _ _ _ _ _ s e)
      by (by rewrite extractIPAddress_run, Hr).
    by rewrite extractIPAddress_run.
  - right. exists ip. split; [done|].
    by rewrite (createLoopbackIPtablesRules_resolved host chain _ _ _ _ _ _ s ip)
      by (by rewrite extractIPAddress_run, Hr).
Qed.

Abbreviation calls := (loopCalls (T := T) host chain).

Lemma loopCalls_app nets id ns pid kbs1 kbs2 errs (s : @State W T) :
  calls nets id ns pid (kbs1 ++ kbs2) errs s
  = let r := calls nets id ns pid kbs1 errs s in
    let r' := calls nets id ns pid kbs2 (result_of r) (state_of r) in
    (result_of r', state_of r', trace_of r ++ trace_of r').
Proof.
  cbn zeta. revert errs s. induction kbs1 as [|kb kbs1 IH]; intros errs s.
  - cbn [app loopCalls]. unfold result_of, state_of, trace_of. cbn [fst snd app].
    by destruct (calls _ _ _ _ kbs2 errs s) as [[? ?] ?].
  - cbn [app loopCalls]. rewrite IH. unfold result_of, state_of, trace_of. cbn [fst snd].
    by rewrite app_assoc.
Qed.

Lemma loopBindings_flat bs key nets id ns pid errs (s : @State W T) :
  loopBindings host chain bs key nets id ns pid errs s
  = calls nets id ns pid (loopback_bindings [(key, bs)]) errs s.
Proof.
  revert errs s. induction bs as [|b bs IH]; intros errs s; [done|].
  rewrite loopback_bindings_entry_cons. cbn [loopBindings].
  destruct (decide _) as [Hb|Hb]; [|apply IH].
  cbn [app loopCalls fst snd]. unfold mbind, M_bind.
  destruct (createLoopbackIPtablesRules _ _ _ _ _ _ _ _ s) as [[err s1] l1].
  unfold result_of, state_of, trace_of. cbn [fst snd].
  rewrite IH. by destruct (calls _ _ _ _ _ _ s1) as [[? ?] ?].
Qed.

Lemma loopPortMappings_flat entries nets id ns pid errs (s : @State W T) :
  loopPortMappings host chain entries nets id ns pid errs s
  = calls nets id ns pid (loopback_bindings entries) errs s.
Proof.
  revert errs s. induction entries as [|[key bs] rest IH]; intros errs s; [done|].
  rewrite loopback_bindings_cons, loopCalls_app. cbn [loopPortMappings].
  unfold mbind, M_bind. rewrite loopBindings_flat.
  destruct (calls _ _ _ _ _ errs s) as [[errs1 s1] l1].
  unfold result_of, state_of, trace_of. cbn [fst snd].
  rewrite IH. by destruct (calls _ _ _ _ _ errs1 s1) as [[? ?] ?].
Qed.

(** The synchronizer as the loop over the loopback bindings. *)
Lemma execIptablesRules_flat pm id networks ns pid nets (s : @State W T) :
  json_Unmarshal_Strings networks = inr nets →
  sync pm id networks ns pid s
  = let r := calls nets id ns pid (loopback_bindings (range_PortMap range pm)) [] s in
    (match result_of r with
     | [] => None
     | _ :: _ => Some (ErrorfList ErrExecIptablesRule (result_of r))
     end, state_of r, trace_of r).
Proof.
  intros Hn. unfold execIptablesRules. rewrite Hn. unfold mbind, M_bind.
  rewrite loopPortMappings_flat.
  destruct (calls _ _ _ _ _ _ s) as [[errs1 s1] l1].
  unfold result_of, state_of, trace_of. cbn [fst snd].
  destruct errs1; cbn [length].
  - rewrite decide_False by (by intros []). cbn. by rewrite app_nil_r.
  - rewrite decide_True by done. cbn. by rewrite app_nil_r.
Qed.

Lemma elem_of_loopback_bindings entries key b :
  (key, b) ∈ loopback_bindings entries
  ↔ ∃ bs, (key, bs) ∈ entries ∧ b ∈ bs ∧ HostIP b = "127.0.0.1".
Proof.
  unfold loopback_bindings. rewrite list_elem_of_bind. split.
  - intros ([key' bs] & Hel & Hin).
    apply list_elem_of_bind in Hel as (b' & Hel & Hb'). cbn [fst snd] in *.
    destruct (decide _) as [Hip|]; [|by apply elem_of_nil in Hel].
    apply list_elem_of_singleton in Hel as [= -> ->]. by exists bs.
  - intros (bs & Hin & Hb & Hip). exists (key, bs). split; [|done].
    apply list_elem_of_bind. exists b. split; [|done].
    rewrite decide_True by done. by left.
Qed.

Lemma loopback_bindings_nil entries :
  loopback_bindings entries = []
  ↔ ∀ key bs b, (key, bs) ∈ entries → b ∈ bs → HostIP b ≠ "127.0.0.1".
Proof.
  split.
  - intros Hnil key bs b Hin Hb Hip.
    assert ((key, b) ∈ loopback_bindings entries) as Hel
      by (apply elem_of_loopback_bindings; by exists bs).
    rewrite Hnil in Hel. by apply elem_of_nil in Hel.
  - intros Hall. destruct (loopback_bindings entries) as [|[key b] l] eqn:E; [done|]. exfalso.
    assert ((key, b) ∈ loopback_bindings entries) as Hel by (rewrite E; by left).
    apply elem_of_loopback_bindings in Hel as (bs & Hin & Hb & Hip).
    by apply (Hall key bs b).
Qed.

Lemma exec_cmds_probe_only pid :
  exec_cmds [EvExec (nsenter_argv pid)] = [nsenter_argv pid].
Proof. done. Qed.

Lemma exec_cmds_resolved containerID cID networks pid ip port dport :
  exec_cmds
    (EvExec (nsenter_argv pid)
     :: EvDebugf "found the ip address: %s for containerID: %s" [ip; containerID]
     :: rule_events chain containerID cID networks ip port dport)
  = nsenter_argv pid :: rule_cmds chain networks cID ip port dport.
Proof. cbn. f_equal. apply exec_cmds_rule_events. Qed.

Lemma firewall_cmds_replicate_probe n pid :
  List.filter is_iptables (replicate n (nsenter_argv pid)) = [].
Proof. induction n as [|n IH]; [done|]. cbn. exact IH. Qed.

Lemma run_rules_succeed nets cID ip port dport (w : W) :
  rules_succeed host chain nets cID →
  Forall (λ o, o.2 = None) (run_rules host (rule_cmds chain nets cID ip port dport) w).1.
Proof.
  unfold rules_succeed. revert w. induction nets as [|network nets IH]; intros w Hok; [done|].
  cbn [rule_cmds fmap list_fmap run_rules fst].
  constructor; [apply Hok; by left|].
  apply IH. intros network' ? ? ? w' Hin. apply Hok. by right.
Qed.

Lemma calls_unresolved nets id ns pid kbs errs (s : @State W T) :
  unresolved host pid →
  let r := calls nets id ns pid kbs errs s in
  exec_cmds (trace_of r) = replicate (length kbs) (nsenter_argv pid)
  ∧ length (result_of r) = length errs + length kbs.
Proof.
  intros Hun. cbn zeta. revert errs s. induction kbs as [|kb kbs IH]; intros errs s.
  - cbn. split; [done|lia].
  - cbn [loopCalls].
    destruct (createLoopbackIPtablesRules_cases nets id ns pid (Port_Port kb.1) (HostPort kb.2) s)
      as [(e & He & ->)|(ip & Hip & _)].
    + unfold result_of, state_of, trace_of in *. cbn [fst snd] in *.
      match goal with |- context [calls _ _ _ _ kbs ?e ?s1] =>
        destruct (IH e s1) as [IH1 IH2]; destruct (calls _ _ _ _ kbs e s1) as [[errs' s2] l2] end.
      cbn [fst snd] in *.
      rewrite exec_cmds_app, IH1, IH2, length_app. cbn. split; [done|lia].
    + exfalso. apply (Hun (world s)). by rewrite Hip.
Qed.

Lemma calls_resolved nets id ns pid ip kbs errs (s : @State W T) :
  resolves_to host pid ip →
  let r := calls nets id ns pid kbs errs s in
  exec_cmds (trace_of r) = kbs ≫= binding_execs chain nets (ns +:+ "-" +:+ id) ip pid
  ∧ (rules_succeed host chain nets (ns +:+ "-" +:+ id) → result_of r = errs).
Proof.
  intros Hres. cbn zeta. revert errs s. induction kbs as [|kb kbs IH]; intros errs s; [done|].
  cbn [loopCalls]. rewrite bind_cons.
  destruct (createLoopbackIPtablesRules_cases nets id ns pid (Port_Port kb.1) (HostPort kb.2) s)
    as [(e & He & _)|(ip' & Hip & Hr)].
  { exfalso. by rewrite (Hres (world s)) in He. }
  rewrite (Hres (world s)) in Hip. injection Hip as <-. cbn zeta in Hr. rewrite Hr.
  unfold result_of, state_of, trace_of in *. cbn [fst snd] in *.
  split.
  - match goal with |- context [calls _ _ _ _ kbs ?e ?s1] =>
      destruct (IH e s1) as [IH1 _];
      destruct (calls _ _ _ _ kbs e s1) as [[errs' s2] l2] end.
    cbn [fst snd] in *.
    rewrite exec_cmds_app, exec_cmds_resolved, IH1. done.
  - intros Hok.
    assert (rule_failures
              (rule_cmds chain nets (ns +:+ "-" +:+ id) ip (Port_Port kb.1) (HostPort kb.2))
              (run_rules host
                 (rule_cmds chain nets (ns +:+ "-" +:+ id) ip (Port_Port kb.1) (HostPort kb.2))
                 (exec_CombinedOutput host (nsenter_argv pid) (world s)).2).1 = []) as ->.
    { apply rule_failures_nil; [apply run_rules_length|by apply run_rules_succeed]. }
    cbn [errors_Join].
    match goal with |- context [calls _ _ _ _ kbs ?e ?s1] =>
      destruct (IH e s1) as [_ IH2] end.
    by apply IH2.
Qed.

Lemma calls_shape nets id ns pid kbs errs (s : @State W T) :
  let r := calls nets id ns pid kbs errs s in
  Forall (λ argv, argv = nsenter_argv pid ∨ is_append_rule argv) (exec_cmds (trace_of r))
  ∧ Forall (λ e, match e with EvExec _ | EvDebugf _ _ => True | _ => False end) (trace_of r)
  ∧ (length (result_of r) ≤ length errs + length kbs)%nat
  ∧ (length errs ≤ length (result_of r))%nat.
Proof.
  cbn zeta. revert errs s. induction kbs as [|kb kbs IH]; intros errs s.
  { cbn. repeat split; try done; lia. }
  cbn [loopCalls].
  assert (Forall (λ argv, argv = nsenter_argv pid ∨ is_append_rule argv)
            (exec_cmds (trace_of (createLoopbackIPtablesRules host chain nets id ns pid
                                    (Port_Port kb.1) (HostPort kb.2) s)))
          ∧ Forall (λ e, match e with EvExec _ | EvDebugf _ _ => True | _ => False end)
              (trace_of (createLoopbackIPtablesRules host chain nets id ns pid
                           (Port_Port kb.1) (HostPort kb.2) s))) as [H1 H2].
  { destruct (createLoopbackIPtablesRules_cases nets id ns pid (Port_Port kb.1) (HostPort kb.2) s)
      as [(e & He & ->)|(ip & Hip & ->)]; unfold trace_of; cbn [snd].
    - split; [|by repeat constructor]. cbn. constructor; [by left|done].
    - rewrite exec_cmds_resolved. split.
      + constructor; [by left|]. unfold rule_cmds. apply Forall_fmap, Forall_true.
        intros network. right. by eexists _, _, _, _.
      + do 2 (constructor; [done|]). unfold rule_events.
        apply Forall_bind, Forall_true. intros network. by repeat constructor. }
  destruct (createLoopbackIPtablesRules _ _ _ _ _ _ _ _ s) as [[err s1] l1].
  unfold result_of, state_of, trace_of in *. cbn [fst snd] in *.
  match goal with |- context [calls _ _ _ _ kbs ?e ?s1] =>
    destruct (IH e s1) as (IH1 & IH2 & IH3 & IH4);
    destruct (calls _ _ _ _ kbs e s1) as [[errs' s2] l2] end.
  cbn [fst snd] in *.
  rewrite exec_cmds_app. split; [by apply Forall_app|]. split; [by apply Forall_app|].
  destruct err; rewrite ?length_app in *; cbn [length] in *; lia.
Qed.

(** X9. When the networks label decodes and the address resolves, the
    external commands the synchronizer starts are, for each binding on
    127.0.0.1 in the order it visits them, the probe of the container's
    address followed by the rule of each network in the order of the
    label: the address is probed anew for every such binding, and
    nothing is started for the other bindings. *)
Theorem synchronizer_probes_before_each_binding (portMappings : PortMap)
    (containerID networks namespace pid ip : string) (nets : list string) (s : @State W T) :
  let cID := namespace +:+ "-" +:+ containerID in
  let r := sync portMappings containerID networks namespace pid s in
  json_Unmarshal_Strings networks = inr nets →
  resolves_to host pid ip →
  exec_cmds (trace_of r)
  = loopback_bindings (range_PortMap range portMappings) ≫= binding_execs chain nets cID ip pid.
Proof.
  intros cID r Hn Hres. subst r. rewrite (execIptablesRules_flat _ _ _ _ _ nets) by done.
  cbn zeta. unfold trace_of at 1. cbn [snd].
  by apply calls_resolved.
Qed.

(** X10. When the networks label decodes, the address resolves and
    appending a rule to the chain of each declared network succeeds, the
    synchronizer returns no error. *)
Theorem synchronizer_succeeds_when_commands_do (portMappings : PortMap)
    (containerID networks namespace pid ip : string) (nets : list string) (s : @State W T) :
  json_Unmarshal_Strings networks = inr nets →
  resolves_to host pid ip →
  rules_succeed host chain nets (namespace +:+ "-" +:+ containerID) →
  result_of (sync portMappings containerID networks namespace pid s) = None.
Proof.
  intros Hn Hres Hok. rewrite (execIptablesRules_flat _ _ _ _ _ nets) by done.
  cbn zeta. unfold result_of at 1. cbn [fst].
  by rewrite (proj2 (calls_resolved nets containerID namespace pid ip _ [] s Hres) Hok).
Qed.

(** X11. When the networks label decodes and the resolver finds no
    address for the process, the synchronizer runs the probe once per
    binding on 127.0.0.1 and starts no firewall command; it returns no
    error if there is no such binding, and otherwise the rule error
    wrapping one error per such binding. *)
Theorem synchronizer_unresolved_appends_nothing (portMappings : PortMap)
    (containerID networks namespace pid : string) (nets : list string) (s : @State W T) :
  let n := length (loopback_bindings (range_PortMap range portMappings)) in
  let r := sync portMappings containerID networks namespace pid s in
  json_Unmarshal_Strings networks = inr nets →
  unresolved host pid →
  exec_cmds (trace_of r) = replicate n (nsenter_argv pid)
  ∧ firewall_cmds (trace_of r) = []
  ∧ (n = 0 → result_of r = None)
  ∧ (n ≠ 0 → ∃ errs, result_of r = Some (ErrorfList ErrExecIptablesRule errs)
                      ∧ length errs = n).
Proof.
  intros n r Hn Hun. subst r. rewrite (execIptablesRules_flat _ _ _ _ _ nets) by done.
  cbn zeta. unfold result_of at 1 3, trace_of at 1 3. cbn [fst snd].
  destruct (calls_unresolved nets containerID namespace pid
              (loopback_bindings (range_PortMap range portMappings)) [] s Hun) as [He Hl].
  fold n in He, Hl. cbn [length] in Hl.
  split; [done|]. split; [unfold firewall_cmds; rewrite He; apply firewall_cmds_replicate_probe|].
  destruct (result_of (calls _ _ _ _ _ _ s)) as [|e errs] eqn:E; cbn [length] in Hl.
  - split; [done|]. intros ?. lia.
  - split; [intros ?; lia|]. intros _. by eexists.
Qed.

(** X12. When the networks label decodes and no binding of the port map
    has the host IP 127.0.0.1 (bindings on 0.0.0.0 or on [localhost],
    say), the synchronizer does nothing: no probe, no firewall command,
    no error, the state unchanged. *)
Theorem synchronizer_silent_without_loopback (portMappings : PortMap)
    (containerID networks namespace pid : string) (nets : list string) (s : @State W T) :
  json_Unmarshal_Strings networks = inr nets →
  (∀ key bs b, (key, bs) ∈ range_PortMap range portMappings → b ∈ bs →
               HostIP b ≠ "127.0.0.1") →
  sync portMappings containerID networks namespace pid s = (None, s, []).
Proof.
  intros Hn Hno%loopback_bindings_nil. rewrite (execIptablesRules_flat _ _ _ _ _ nets) by done.
  by rewrite Hno.
Qed.

(** X13. When the networks label does not decode, the synchronizer
    starts nothing and returns the join of the decoding error alone,
    which is not the rule error.  When it decodes, the synchronizer
    returns either no error or the rule error wrapping a non-empty list
    of at most one error per binding on 127.0.0.1. *)
Theorem synchronizer_error_shape (portMappings : PortMap)
    (containerID networks namespace pid : string) (s : @State W T) :
  let r := sync portMappings containerID networks namespace pid s in
  match json_Unmarshal_Strings networks with
  | inl msg =>
      r = (Some (Join [Errorf "unmarshaling container networks: %w" [] (ErrJSON msg)]), s, [])
  | inr nets =>
      result_of r = None
      ∨ ∃ errs, result_of r = Some (ErrorfList ErrExecIptablesRule errs)
                ∧ errs ≠ []
                ∧ (length errs ≤ length (loopback_bindings (range_PortMap range portMappings)))%nat
  end.
Proof.
  cbn zeta. destruct (json_Unmarshal_Strings networks) as [msg|nets] eqn:Hn.
  - unfold execIptablesRules. by rewrite Hn.
  - rewrite (execIptablesRules_flat _ _ _ _ _ nets) by done.
    cbn zeta. unfold result_of at 1 3. cbn [fst].
    destruct (calls_shape nets containerID namespace pid
                (loopback_bindings (range_PortMap range portMappings)) [] s) as (_ & _ & Hl & _).
    destruct (result_of (calls _ _ _ _ _ _ s)) as [|e errs]; [by left|].
    right. eexists. split; [done|]. split; [done|]. cbn [length] in *. lia.
Qed.

(** The commands of the synchronizer: the probe of the process, or a
    rule appended. *)
Lemma execIptablesRules_shape (portMappings : PortMap)
    (containerID networks namespace pid : string) (s : @State W T) :
  let r := sync portMappings containerID networks namespace pid s in
  Forall (λ argv, is_probe argv ∨ is_append_rule argv) (exec_cmds (trace_of r))
  ∧ Forall (λ e, match e with EvExec _ | EvDebugf _ _ => True | _ => False end) (trace_of r).
Proof.
  cbn zeta. destruct (json_Unmarshal_Strings networks) as [msg|nets] eqn:Hn.
  - unfold execIptablesRules. rewrite Hn. by split.
  - rewrite (execIptablesRules_flat _ _ _ _ _ nets) by done.
    cbn zeta. unfold trace_of at 1 3. cbn [snd].
    destruct (calls_shape nets containerID namespace pid
                (loopback_bindings (range_PortMap range portMappings)) [] s) as (H1 & H2 & _).
    split; [|done]. eapply Forall_impl; [exact H1|].
    intros argv [->|?]; [left; by exists pid|by right].
Qed.

(** The synchronizer does not read the tracker. *)
Lemma createLoopbackIPtablesRules_tracker_irrelevant nets id ns pid port dport
    (s s' : @State W T) :
  world s = world s' →
  let r := createLoopbackIPtablesRules host chain nets id ns pid port dport s in
  let r' := createLoopbackIPtablesRules host chain nets id ns pid port dport s' in
  result_of r = result_of r' ∧ world (state_of r) = world (state_of r')
  ∧ trace_of r = trace_of r'.
Proof.
  intros Hw. cbn zeta.
  destruct (createLoopbackIPtablesRules_cases nets id ns pid port dport s)
    as [(e & He & ->)|(ip & Hip & ->)];
    destruct (createLoopbackIPtablesRules_cases nets id ns pid port dport s')
      as [(e' & He' & ->)|(ip' & Hip' & ->)]; rewrite <- Hw in *.
  - rewrite He in He'. by injection He' as <-.
  - rewrite Hip' in He. discriminate He.
  - rewrite Hip in He'. discriminate He'.
  - rewrite Hip in Hip'. by injection Hip' as <-.
Qed.

Lemma calls_tracker_irrelevant nets id ns pid kbs errs (s s' : @State W T) :
  world s = world s' →
  let r := calls nets id ns pid kbs errs s in
  let r' := calls nets id ns pid kbs errs s' in
  result_of r = result_of r' ∧ world (state_of r) = world (state_of r')
  ∧ trace_of r = trace_of r'.
Proof.
  cbn zeta. revert errs s s'. induction kbs as [|kb kbs IH]; intros errs s s' Hw; [done|].
  cbn [loopCalls].
  destruct (createLoopbackIPtablesRules_tracker_irrelevant nets id ns pid
              (Port_Port kb.1) (HostPort kb.2) s s' Hw) as (H1 & H2 & H3).
  cbn zeta in H1, H2, H3. rewrite H1, H3.
  set (r1 := createLoopbackIPtablesRules host chain nets id ns pid
               (Port_Port kb.1) (HostPort kb.2) s) in *.
  set (r2 := createLoopbackIPtablesRules host chain nets id ns pid
               (Port_Port kb.1) (HostPort kb.2) s') in *.
  destruct (IH (match result_of r2 with Some e => errs ++ [e] | None => errs end)
              (state_of r1) (state_of r2) H2) as (I1 & I2 & I3).
  unfold result_of, state_of, trace_of in *. cbn [fst snd] in *.
  by rewrite I1, I2, I3.
Qed.

Lemma execIptablesRules_tracker_irrelevant pm id networks ns pid (s s' : @State W T) :
  world s = world s' →
  let r := sync pm id networks ns pid s in
  let r' := sync pm id networks ns pid s' in
  result_of r = result_of r' ∧ world (state_of r) = world (state_of r')
  ∧ trace_of r = trace_of r'.
Proof.
  intros Hw. cbn zeta. destruct (json_Unmarshal_Strings networks) as [msg|nets] eqn:Hn.
  - unfold execIptablesRules. by rewrite Hn.
  - rewrite !(execIptablesRules_flat _ _ _ _ _ nets) by done. cbn zeta.
    destruct (calls_tracker_irrelevant nets id ns pid
                (loopback_bindings (range_PortMap range pm)) [] s s' Hw) as (I1 & I2 & I3).
    unfold result_of, state_of, trace_of in *. cbn [fst snd] in *.
    by rewrite I1, I2, I3.
Qed.

End SynchronizerMore.

(** ** From the ports label to the rules *)

Lemma append_String (c : ascii) (s r : string) : String c s +:+ r = String c (s +:+ r).
Proof. reflexivity. Qed.
Lemma Port_Port_string_of_uint (d : Decimal.uint) (r : string) :
  Port_Port (NilEmpty.string_of_uint d +:+ r) = NilEmpty.string_of_uint d +:+ Port_Port r.
Proof.
  induction d; cbn [NilEmpty.string_of_uint]; [done|..];
    rewrite !append_String; cbn [Port_Port]; by rewrite IHd.
Qed.
Lemma append_empty_r (str : string) : str +:+ "" = str.
Proof. induction str as [|c str IH]; [done|]. by rewrite append_String, IH. Qed.

(** [Port] gives back the port of a key made by [nat.NewPort]. *)
Lemma Port_Port_key (n : Z) (proto : string) : Port_Port (Itoa n +:+ "/" +:+ proto) = Itoa n.
Proof.
  assert (∀ d, Port_Port (NilZero.string_of_uint d +:+ "/" +:+ proto)
               = NilZero.string_of_uint d) as Hu.
  { intros d. destruct d; cbn [NilZero.string_of_uint]; [done|..];
      rewrite Port_Port_string_of_uint; by rewrite append_empty_r. }
  unfold Itoa. destruct (Z.to_int n) as [d|d]; cbn [NilZero.string_of_int]; [apply Hu|].
  rewrite append_String. cbn [Port_Port]. cbn. by rewrite Hu.
Qed.

Section LabelToRules.

Context {W T : Type} (host : Host W).
Context (json_Unmarshal_Ports : string → string + list Port)
        (json_Unmarshal_Strings : string → string + list string)
        (MustFormatChainNameWithPrefix : string → string → string → string)
        (range : PortTable → list (string * list PortBinding)).

Abbreviation chain := MustFormatChainNameWithPrefix.
Abbreviation sync := (execIptablesRules (T := T) host json_Unmarshal_Strings chain range).

Lemma HostIP_binding_of_loopback (port : Port) :
  HostIP (binding_of port) = "127.0.0.1" ↔ p_HostIP port = "127.0.0.1".
Proof.
  cbn [binding_of HostIP]. unfold NormalizeHostIP.
  destruct (decide (p_HostIP port = "127.0.0.1")) as [->|H1]; [done|].
  destruct (decide (p_HostIP port = "localhost")) as [->|H2]; [done|].
  by rewrite !bool_decide_eq_false_2.
Qed.

Lemma elem_of_entry_cmds nets cID ip key bs argv :
  argv ∈ entry_cmds chain nets cID ip (key, bs)
  ↔ ∃ b network, b ∈ bs ∧ HostIP b = "127.0.0.1" ∧ network ∈ nets
                 ∧ argv = iptables_argv (chain network cID "DN-") (HostPort b) ip (Port_Port key).
Proof.
  unfold entry_cmds. cbn [fst snd]. rewrite list_elem_of_bind. split.
  - intros (b & Hin & Hb). destruct (decide _) as [Hip|]; [|by apply elem_of_nil in Hin].
    unfold rule_cmds in Hin. apply list_elem_of_fmap in Hin as (network & -> & Hn).
    by exists b, network.
  - intros (b & network & Hb & Hip & Hn & ->). exists b. split; [|done].
    rewrite decide_True by done. unfold rule_cmds. apply list_elem_of_fmap. by exists network.
Qed.

(** X14. From the ports label to the firewall: when both labels decode,
    the container ports are valid and the address resolves, a firewall
    command is issued if and only if it is the rule, for some declared
    port whose host IP is literally 127.0.0.1 and some declared network,
    that matches the port's host port and targets the resolved address
    at the port's container port. *)
Theorem declared_loopback_ports_get_rules (portMapping networks containerID namespace pid ip
    : string) (ports : list Port) (nets : list string) (s : @State W T) :
  let portMappings := (createPortMappingFromString json_Unmarshal_Ports portMapping).1 in
  let issued := firewall_cmds (trace_of (sync portMappings containerID networks namespace
                                           pid s)) in
  portMapping ≠ "" →
  json_Unmarshal_Ports portMapping = inr ports →
  Forall valid_port ports →
  json_Unmarshal_Strings networks = inr nets →
  resolves_to host pid ip →
  (∀ m, range m ≡ₚ map_to_list m) →
  ∀ argv,
    argv ∈ issued
    ↔ ∃ port network,
        port ∈ ports ∧ p_HostIP port = "127.0.0.1" ∧ network ∈ nets
        ∧ argv = iptables_argv (chain network (namespace +:+ "-" +:+ containerID) "DN-")
                   (Itoa (p_HostPort port)) ip (Itoa (p_ContainerPort port)).
Proof.
  cbn zeta. intros Hne Hj Hv Hn Hres Hrange argv.
  rewrite (execIptablesRules_cmds host json_Unmarshal_Strings chain range _ _ _ _ _ ip nets)
    by done.
  destruct (createPortMappingFromString_cases json_Unmarshal_Ports portMapping)
    as [(-> & _)|[(_ & msg & Hj' & _)|[(_ & ports' & Hj' & Hv' & _)
                                      |(_ & ports' & m & Hj' & _ & -> & Hs & _ & Hnone)]]];
    [done|congruence|congruence|].
  assert (ports' = ports) as -> by congruence. cbn [fst range_PortMap].
  rewrite list_elem_of_bind. split.
  - intros ([key bs] & Hin & Hentry).
    rewrite (Hrange m) in Hentry. apply elem_of_map_to_list in Hentry.
    apply elem_of_entry_cmds in Hin as (b & network & Hb & Hip & Hnet & ->).
    pose proof (Hs key) as Hk. unfold slice_at in Hk. rewrite Hentry in Hk.
    change (bs = bindings_under key ports) in Hk. subst bs.
    unfold bindings_under in Hb. apply list_elem_of_fmap in Hb as (port & -> & Hp).
    apply list_elem_of_filter in Hp as [<- Hp].
    exists port, network. split; [done|]. split; [by apply HostIP_binding_of_loopback|].
    split; [done|]. unfold port_key. by rewrite Port_Port_key.
  - intros (port & network & Hp & Hip & Hnet & ->).
    assert (binding_of port ∈ bindings_under (port_key port) ports) as Hb.
    { unfold bindings_under. apply list_elem_of_fmap. exists port. split; [done|].
      by apply list_elem_of_filter. }
    exists (port_key port, bindings_under (port_key port) ports). split.
    + apply elem_of_entry_cmds. exists (binding_of port), network.
      split; [done|]. split; [by apply HostIP_binding_of_loopback|]. split; [done|].
      unfold port_key at 1. by rewrite Port_Port_key.
    + rewrite (Hrange m). apply elem_of_map_to_list.
      pose proof (Hs (port_key port)) as Hk. unfold slice_at in Hk.
      destruct (m !! port_key port) as [bs|] eqn:E.
      * change (bs = bindings_under (port_key port) ports) in Hk. by subst bs.
      * apply Hnone in E. rewrite E in Hb. by apply elem_of_nil in Hb.
Qed.

End LabelToRules.

(** ** More on the handlers *)

Section HandlerMore.

Context {W T : Type} (host : Host W) `{Tracker T}.
Context (json_Unmarshal_Ports : string → string + list Port)
        (json_Unmarshal_Strings : string → string + list string)
        (MustFormatChainNameWithPrefix : string → string → string → string)
        (range : PortTable → list (string * list PortBinding)).
Context (Unmarshal_TaskStart : string → TaskStart * option string)
        (Unmarshal_ContainerUpdate : string → ContainerUpdate * option string)
        (Unmarshal_TaskExit : string → TaskExit * option string).

Abbreviation chain := MustFormatChainNameWithPrefix.
Abbreviation sync := (execIptablesRules (T := T) host json_Unmarshal_Strings chain range).
Abbreviation on_envelope :=
  (onEnvelope host json_Unmarshal_Ports json_Unmarshal_Strings chain range
     Unmarshal_TaskStart Unmarshal_ContainerUpdate Unmarshal_TaskExit).
Abbreviation monitor :=
  (MonitorPorts host json_Unmarshal_Ports json_Unmarshal_Strings chain range
     Unmarshal_TaskStart Unmarshal_ContainerUpdate Unmarshal_TaskExit).

#[local] Hint Rewrite @exec_cmds_prelude @tracker_ops_prelude : trace.

(** The handler of a start event, when there are ports. *)
Lemma start_run (envelope : Envelope) (s : @State W T) :
  let st := Unmarshal_TaskStart (Event_Value envelope) in
  let id := ts_ContainerID st.1 in
  let ports := (extracted host json_Unmarshal_Ports id s).1 in
  let synced := sync ports id (label (looked_up host id s) networkKey) (Namespace envelope)
                     (Itoa (ts_Pid st.1)) (after_lookup host id s) in
  Topic envelope = "/tasks/start" →
  len ports ≠ 0 →
  on_envelope envelope s
  = (tt, mkState (world (state_of synced)) (Add id ports (tracker s)).2,
     (EvDebugf "received an event: %+v" [Topic envelope]
      :: prelude host json_Unmarshal_Ports "failed to unmarshal container's start task: %v"
           st.2 id (Namespace envelope) s)
     ++ trace_of synced
     ++ logged "failed running iptable rules to update DNAT rule in CNI-HOSTPORT-DNAT chain: %v"
               [] (result_of synced)
     ++ EvTrackerAdd id ports
     :: logged "adding port mapping to tracker failed: %v" [] (Add id ports (tracker s)).1).
Proof.
  cbn zeta. intros Ht Hlen.
  rewrite onEnvelope_start, onTaskStart_run by done. cbn zeta.
  rewrite decide_False by done.
  match goal with |- context [execIptablesRules ?a ?b ?c ?d ?e ?f ?g ?h ?i ?j] =>
    pose proof (execIptablesRules_frame a b c d e f g h i j) as [Hft _] end.
  cbn zeta in Hft. cbn [after_lookup tracker] in Hft.
  cbn [fst snd]. by rewrite Hft.
Qed.

(** X15. On a task-start event whose extracted mapping set is not empty,
    the handler runs the synchronizer once, on that mapping set with the
    container's networks label, the envelope's namespace and the task's
    pid, and only then adds the mapping set to the tracker: the external
    commands are those of the synchronizer, all of them started before
    the one changing call on the tracker, which is made whatever the
    synchronizer returned. *)
Theorem start_applies_rules_then_tracks (envelope : Envelope) (s : @State W T) :
  let st := Unmarshal_TaskStart (Event_Value envelope) in
  let id := ts_ContainerID st.1 in
  let ports := (extracted host json_Unmarshal_Ports id s).1 in
  let synced := sync ports id (label (looked_up host id s) networkKey) (Namespace envelope)
                     (Itoa (ts_Pid st.1)) (after_lookup host id s) in
  let r := on_envelope envelope s in
  Topic envelope = "/tasks/start" →
  len ports ≠ 0 →
  tracker_ops (trace_of r) = [EvTrackerAdd id ports]
  ∧ tracker (state_of r) = (Add id ports (tracker s)).2
  ∧ world (state_of r) = world (state_of synced)
  ∧ exec_cmds (trace_of r) = exec_cmds (trace_of synced)
  ∧ ∃ before after,
      trace_of r = before ++ EvTrackerAdd id ports :: after
      ∧ exec_cmds before = exec_cmds (trace_of synced)
      ∧ tracker_ops before = []
      ∧ exec_cmds after = [].
Proof.
  cbn zeta. intros Ht Hlen. rewrite start_run by done.
  match goal with |- context [execIptablesRules ?a ?b ?c ?d ?e ?f ?g ?h ?i ?j] =>
    pose proof (execIptablesRules_frame a b c d e f g h i j) as [_ Hfo] end.
  cbn zeta in Hfo.
  unfold state_of at 1 2, trace_of at 1 3 5. cbn [fst snd tracker world].
  split; [trace_simpl; by rewrite Hfo|]. split; [done|]. split; [done|].
  split; [trace_simpl; by rewrite app_nil_r|].
  eexists _, _. split; [by rewrite !app_assoc|].
  split; [trace_simpl; by rewrite !app_nil_r|].
  split; [trace_simpl; by rewrite Hfo|]. by trace_simpl.
Qed.

Lemma start_applies_tracker (envelope : Envelope) (s : @State W T) :
  let id := ts_ContainerID (Unmarshal_TaskStart (Event_Value envelope)).1 in
  let ports := (extracted host json_Unmarshal_Ports id s).1 in
  let r := on_envelope envelope s in
  Topic envelope = "/tasks/start" →
  len ports ≠ 0 →
  tracker (state_of r) = (Add id ports (tracker s)).2
  ∧ tracker_ops (trace_of r) = [EvTrackerAdd id ports].
Proof.
  cbn zeta. intros Ht Hlen. rewrite start_run by done.
  match goal with |- context [execIptablesRules ?a ?b ?c ?d ?e ?f ?g ?h ?i ?j] =>
    pose proof (execIptablesRules_frame a b c d e f g h i j) as [_ Hfo] end.
  cbn zeta in Hfo. rewrite state_of_run, trace_of_run. cbn [tracker].
  split; [done|]. trace_simpl. by rewrite Hfo.
Qed.

(** The handlers of start and update events, when there are no ports. *)
Lemma start_skip_run (envelope : Envelope) (s : @State W T) :
  let st := Unmarshal_TaskStart (Event_Value envelope) in
  let id := ts_ContainerID st.1 in
  Topic envelope = "/tasks/start" →
  len (extracted host json_Unmarshal_Ports id s).1 = 0 →
  on_envelope envelope s
  = (tt, after_lookup host id s,
     EvDebugf "received an event: %+v" [Topic envelope]
     :: prelude host json_Unmarshal_Ports "failed to unmarshal container's start task: %v"
          st.2 id (Namespace envelope) s).
Proof.
  cbn zeta. intros Ht Hlen.
  rewrite onEnvelope_start, onTaskStart_run by done. cbn zeta.
  by rewrite decide_True by done.
Qed.

Lemma update_skip_run (envelope : Envelope) (s : @State W T) :
  let cu := Unmarshal_ContainerUpdate (Event_Value envelope) in
  let id := cu_ID cu.1 in
  Topic envelope = "/containers/update" →
  len (extracted host json_Unmarshal_Ports id s).1 = 0 →
  on_envelope envelope s
  = (tt, after_lookup host id s,
     EvDebugf "received an event: %+v" [Topic envelope]
     :: prelude host json_Unmarshal_Ports "failed to unmarshal container update event: %v"
          cu.2 id (Namespace envelope) s).
Proof.
  cbn zeta. intros Ht Hlen.
  rewrite onEnvelope_update, onContainerUpdate_run by done. cbn zeta.
  by rewrite decide_True by done.
Qed.

(** X16. When the extracted mapping set is empty, the handlers of start
    and of update events start no external command and leave the tracker
    alone; in particular an update that removes every port of a tracked
    container leaves its record in place. *)
Theorem handlers_skip_without_ports :
  (∀ (envelope : Envelope) (s : @State W T),
     let id := ts_ContainerID (Unmarshal_TaskStart (Event_Value envelope)).1 in
     Topic envelope = "/tasks/start" →
     len (extracted host json_Unmarshal_Ports id s).1 = 0 →
     quiet s (on_envelope envelope s))
  ∧ (∀ (envelope : Envelope) (s : @State W T),
       let id := cu_ID (Unmarshal_ContainerUpdate (Event_Value envelope)).1 in
       Topic envelope = "/containers/update" →
       len (extracted host json_Unmarshal_Ports id s).1 = 0 →
       quiet s (on_envelope envelope s)).
Proof.
  split; cbn zeta; intros envelope s Ht Hlen.
  - rewrite start_skip_run by done. unfold quiet, trace_of, state_of. cbn [fst snd].
    split; [by trace_simpl|]. split; [by trace_simpl|done].
  - rewrite update_skip_run by done. unfold quiet, trace_of, state_of. cbn [fst snd].
    split; [by trace_simpl|]. split; [by trace_simpl|done].
Qed.

Lemma extracted_lookup_failed (id : string) (s : @State W T) msg :
  (ContainerService_Get host id (world s)).1 = inl msg →
  extracted host json_Unmarshal_Ports id s = (Some ∅, None)
  ∧ lookup_error host id s = Some (ErrAPI msg).
Proof.
  intros Hl. unfold extracted, looked_up, lookup_error. rewrite Hl. split; [|done].
  unfold label. rewrite lookup_empty. cbn [default].
  apply createPortMappingFromString_empty.
Qed.

Lemma logged_errors_prelude_lookup format perr id ns (s : @State W T) msg :
  (ContainerService_Get host id (world s)).1 = inl msg →
  ErrAPI msg ∈ logged_errors (prelude host json_Unmarshal_Ports format perr id ns s).
Proof.
  intros Hl. destruct (extracted_lookup_failed id s msg Hl) as [_ He].
  unfold prelude. rewrite He, !logged_errors_app, !logged_errors_logged.
  apply elem_of_app. right. apply elem_of_app. left. cbn. by left.
Qed.

(** X17. When the lookup of the container fails, the handlers of start
    and of update events log the failure and go on with the labels of
    the zero container, that is with no ports: no external command, no
    changing call on the tracker. *)
Theorem lookup_failure_is_logged_and_skipped :
  (∀ (envelope : Envelope) (s : @State W T) (msg : string),
     let id := ts_ContainerID (Unmarshal_TaskStart (Event_Value envelope)).1 in
     let r := on_envelope envelope s in
     Topic envelope = "/tasks/start" →
     (ContainerService_Get host id (world s)).1 = inl msg →
     ErrAPI msg ∈ logged_errors (trace_of r) ∧ quiet s r)
  ∧ (∀ (envelope : Envelope) (s : @State W T) (msg : string),
       let id := cu_ID (Unmarshal_ContainerUpdate (Event_Value envelope)).1 in
       let r := on_envelope envelope s in
       Topic envelope = "/containers/update" →
       (ContainerService_Get host id (world s)).1 = inl msg →
       ErrAPI msg ∈ logged_errors (trace_of r) ∧ quiet s r).
Proof.
  split; cbn zeta; intros envelope s msg Ht Hl;
    destruct (extracted_lookup_failed _ s msg Hl) as [Hx _].
  - rewrite start_skip_run by (done || by rewrite Hx).
    unfold quiet, trace_of, state_of. cbn [fst snd].
    split; [|split; [by trace_simpl|split; [by trace_simpl|done]]].
    change (?e :: ?l) with ([e] ++ l). rewrite logged_errors_app.
    apply elem_of_app. right. by apply logged_errors_prelude_lookup.
  - rewrite update_skip_run by (done || by rewrite Hx).
    unfold quiet, trace_of, state_of. cbn [fst snd].
    split; [|split; [by trace_simpl|split; [by trace_simpl|done]]].
    change (?e :: ?l) with ([e] ++ l). rewrite logged_errors_app.
    apply elem_of_app. right. by apply logged_errors_prelude_lookup.
Qed.

(** X18. On a container-update event for a container the tracker holds
    nothing for, with a non-empty extracted mapping set, the handler adds
    the mapping set to the tracker and starts no external command: the
    container becomes tracked without any firewall rule being
    appended. *)
Theorem update_of_untracked_adds_without_rules (envelope : Envelope) (s : @State W T) :
  let id := cu_ID (Unmarshal_ContainerUpdate (Event_Value envelope)).1 in
  let ports := (extracted host json_Unmarshal_Ports id s).1 in
  let r := on_envelope envelope s in
  Topic envelope = "/containers/update" →
  len ports ≠ 0 →
  Get id (tracker s) = None →
  tracker_ops (trace_of r) = [EvTrackerAdd id ports]
  ∧ tracker (state_of r) = (Add id ports (tracker s)).2
  ∧ exec_cmds (trace_of r) = []
  ∧ firewall_cmds (trace_of r) = [].
Proof.
  cbn zeta. intros Ht Hlen Hget.
  rewrite onEnvelope_update, onContainerUpdate_run by done. cbn zeta.
  rewrite decide_False, Hget by done.
  unfold trace_of, state_of. cbn [fst snd tracker].
  split; [by trace_simpl|]. split; [done|].
  match goal with |- exec_cmds ?l = [] ∧ _ =>
    enough (exec_cmds l = []) as He by (split; [exact He|by apply firewall_cmds_exec_nil]) end.
  by trace_simpl.
Qed.

(** *** The loop *)

Lemma monitor_msgs (envelopes : list Envelope) (rest : list Select) (s : @State W T) :
  let r := monitor (Msg <$> envelopes) s in
  monitor ((Msg <$> envelopes) ++ rest) s
  = (tt, state_of (monitor rest (state_of r)), trace_of r ++ trace_of (monitor rest (state_of r))).
Proof.
  cbn zeta. revert s. induction envelopes as [|envelope envelopes IH]; intros s.
  - cbn [fmap list_fmap app MonitorPorts]. unfold mret, M_ret, state_of, trace_of.
    cbn [fst snd app]. by destruct (monitor rest s) as [[[] ?] ?].
  - cbn [fmap list_fmap app]. rewrite !MonitorPorts_msg. cbn zeta.
    rewrite IH. unfold state_of, trace_of. cbn [fst snd]. by rewrite app_assoc.
Qed.

(** X19. The monitor loop returns when the context is done and when the
    subscription reports an error: it logs that one error after handling
    the messages received before, and handles nothing of what would
    follow. *)
Theorem monitor_stops_on_cancellation_or_error :
  (∀ (envelopes : list Envelope) (err : error) (rest : list Select) (s : @State W T),
     let r := monitor (Msg <$> envelopes) s in
     monitor ((Msg <$> envelopes) ++ CtxDone err :: rest) s
     = (tt, state_of r, trace_of r ++ [EvErrorf "context cancellation: %v" [] err]))
  ∧ (∀ (envelopes : list Envelope) (err : error) (rest : list Select) (s : @State W T),
       let r := monitor (Msg <$> envelopes) s in
       monitor ((Msg <$> envelopes) ++ SubErr err :: rest) s
       = (tt, state_of r, trace_of r ++ [EvErrorf "receiving container event failed: %v" [] err])).
Proof.
  split; intros envelopes err rest s; cbn zeta; by rewrite monitor_msgs.
Qed.

Lemma Forall_loop_event_logged format args err :
  Forall (λ e, loop_event e = true) (logged format args err).
Proof. destruct err; by repeat constructor. Qed.

Lemma Forall_loop_event_prelude format perr id ns (s : @State W T) :
  Forall (λ e, loop_event e = true) (prelude host json_Unmarshal_Ports format perr id ns s).
Proof.
  unfold prelude. apply Forall_app; split; [apply Forall_loop_event_logged|].
  apply Forall_app; split; apply Forall_loop_event_logged.
Qed.

Lemma Forall_loop_event_sync pm id networks ns pid (s : @State W T) :
  Forall (λ e, loop_event e = true) (trace_of (sync pm id networks ns pid s)).
Proof.
  destruct (execIptablesRules_shape host json_Unmarshal_Strings chain range
              pm id networks ns pid s) as [_ Hs].
  eapply Forall_impl; [exact Hs|]. by intros [].
Qed.

Lemma exec_cmds_nil_shape (l : list Event) :
  exec_cmds l = [] → Forall (λ argv, is_probe argv ∨ is_append_rule argv) (exec_cmds l).
Proof. by intros ->. Qed.

Lemma onEnvelope_invariant (envelope : Envelope) (s : @State W T) :
  let r := on_envelope envelope s in
  Forall (λ argv, is_probe argv ∨ is_append_rule argv) (exec_cmds (trace_of r))
  ∧ Forall (λ e, loop_event e = true) (trace_of r).
Proof.
  cbn zeta. rewrite onEnvelope_branch. cbn zeta.
  unfold trace_of. cbn [snd]. rewrite exec_cmds_EvDebugf.
  enough (∀ r : unit * @State W T * list Event,
            r = (if decide (Topic envelope = "/tasks/start") then
                   onTaskStart host json_Unmarshal_Ports json_Unmarshal_Strings chain range
                     Unmarshal_TaskStart envelope s
                 else if decide (Topic envelope = "/containers/update") then
                   onContainerUpdate host json_Unmarshal_Ports Unmarshal_ContainerUpdate envelope s
                 else if decide (Topic envelope = "/tasks/exit") then
                   onTaskExit Unmarshal_TaskExit envelope s
                 else (tt, s, [])) →
            Forall (λ argv, is_probe argv ∨ is_append_rule argv) (exec_cmds r.2)
            ∧ Forall (λ e, loop_event e = true) r.2) as Hr.
  { destruct (Hr _ eq_refl) as [H1 H2]. split; [done|]. by constructor. }
  intros r ->.
  destruct (decide (Topic envelope = "/tasks/start")) as [Ht|Ht].
  { rewrite onTaskStart_run. cbn zeta. destruct (decide _) as [Hz|Hz]; cbn [snd].
    - split; [apply exec_cmds_nil_shape; by trace_simpl|apply Forall_loop_event_prelude].
    - match goal with |- context [execIptablesRules ?a ?b ?c ?d ?e ?f ?g ?h ?i ?j] =>
        destruct (execIptablesRules_shape a b c d e f g h i j) as [Hs _];
        pose proof (Forall_loop_event_sync e f g h i j) as Hl end.
      cbn zeta in Hs. split.
      + trace_simpl. by rewrite app_nil_r.
      + apply Forall_app; split; [apply Forall_loop_event_prelude|].
        apply Forall_app; split; [done|].
        apply Forall_app; split; [apply Forall_loop_event_logged|].
        constructor; [done|apply Forall_loop_event_logged]. }
  destruct (decide (Topic envelope = "/containers/update")) as [Hu|Hu].
  { rewrite onContainerUpdate_run. cbn zeta.
    destruct (decide _) as [Hz|Hz]; cbn [snd];
      [split; [apply exec_cmds_nil_shape; by trace_simpl|apply Forall_loop_event_prelude]|].
    destruct (Get _ (tracker s)) as [old|]; [destruct (DeepEqual _ _)|]; cbn [snd].
    - split; [apply exec_cmds_nil_shape; by trace_simpl|apply Forall_loop_event_prelude].
    - split; [apply exec_cmds_nil_shape; by trace_simpl|].
      apply Forall_app; split; [apply Forall_loop_event_prelude|].
      constructor; [done|]. apply Forall_app; split; [apply Forall_loop_event_logged|].
      constructor; [done|apply Forall_loop_event_logged].
    - split; [apply exec_cmds_nil_shape; by trace_simpl|].
      apply Forall_app; split; [apply Forall_loop_event_prelude|].
      constructor; [done|apply Forall_loop_event_logged]. }
  destruct (decide (Topic envelope = "/tasks/exit")) as [He|He]; [|by split].
  rewrite onTaskExit_run. cbn zeta. destruct (Get _ (tracker s)) as [old|]; cbn [snd].
  - split; [apply exec_cmds_nil_shape; by trace_simpl|].
    apply Forall_app; split; [apply Forall_loop_event_logged|].
    constructor; [done|apply Forall_loop_event_logged].
  - split; [apply exec_cmds_nil_shape; by trace_simpl|apply Forall_loop_event_logged].
Qed.

(** X20. Whatever the monitor loop receives, every external command it
    starts is the probe of a process or the appending of a tcp DNAT rule
    to a chain of the nat table (it never deletes, inserts or replaces a
    rule), and it neither clears the tracker nor closes the client. *)
Theorem monitor_runs_only_probes_and_appends (received : list Select) (s : @State W T) :
  let r := monitor received s in
  Forall (λ argv, is_probe argv ∨ is_append_rule argv) (exec_cmds (trace_of r))
  ∧ (EvTrackerRemoveAll ∉ trace_of r)
  ∧ (EvClientClose ∉ trace_of r).
Proof.
  cbn zeta.
  enough (Forall (λ argv, is_probe argv ∨ is_append_rule argv)
            (exec_cmds (trace_of (monitor received s)))
          ∧ Forall (λ e, loop_event e = true) (trace_of (monitor received s))) as [H1 H2].
  { split; [done|]. rewrite Forall_forall in H2.
    split; intros Hin; by specialize (H2 _ Hin). }
  revert s. induction received as [|[err|envelope|err] rest IH]; intros s.
  - by split.
  - split; [done|by repeat constructor].
  - rewrite MonitorPorts_msg. cbn zeta. unfold trace_of at 1 3. cbn [snd].
    destruct (onEnvelope_invariant envelope s) as [H1 H2].
    destruct (IH (state_of (on_envelope envelope s))) as [I1 I2].
    rewrite exec_cmds_app. split; by apply Forall_app.
  - split; [done|by repeat constructor].
Qed.

Lemma monitor_one (envelope : Envelope) (s : @State W T) :
  monitor [Msg envelope] s
  = (tt, state_of (on_envelope envelope s), trace_of (on_envelope envelope s)).
Proof.
  rewrite MonitorPorts_msg. cbn zeta. cbn [MonitorPorts]. unfold mret, M_ret.
  cbn [fst snd]. by rewrite app_nil_r.
Qed.

Lemma monitor_two (first second : Envelope) (s : @State W T) :
  let r := on_envelope first s in
  monitor [Msg first; Msg second] s
  = (tt, state_of (on_envelope second (state_of r)),
     trace_of r ++ trace_of (on_envelope second (state_of r))).
Proof. cbn zeta. rewrite MonitorPorts_msg. cbn zeta. by rewrite monitor_one. Qed.

(** X21. With a tracker that behaves as relied on: after the start event
    of an untracked container with a non-empty mapping set the tracker
    holds that mapping set for the container; after the exit event that
    follows it holds nothing for it, and for every other container what
    it held at the beginning; the exit event starts no command. *)
Theorem start_then_exit_round_trip `{!TrackerLaws T} (started exited : Envelope)
    (s : @State W T) :
  let id := ts_ContainerID (Unmarshal_TaskStart (Event_Value started)).1 in
  let ports := (extracted host json_Unmarshal_Ports id s).1 in
  let r1 := monitor [Msg started] s in
  let r2 := monitor [Msg started; Msg exited] s in
  Topic started = "/tasks/start" →
  Topic exited = "/tasks/exit" →
  te_ContainerID (Unmarshal_TaskExit (Event_Value exited)).1 = id →
  tracker_wf (tracker s) →
  len (Get id (tracker s)) = 0 →
  len ports ≠ 0 →
  Get id (tracker (state_of r1)) = ports
  ∧ Get id (tracker (state_of r2)) = None
  ∧ (∀ id', id' ≠ id → Get id' (tracker (state_of r2)) = Get id' (tracker s))
  ∧ tracker_ops (trace_of r2) = [EvTrackerAdd id ports; EvTrackerRemove id]
  ∧ exec_cmds (trace_of r2) = exec_cmds (trace_of r1).
Proof.
  cbn zeta. intros Hs He Hid Hwf Hun Hlen.
  rewrite monitor_one, monitor_two. cbn zeta. rewrite !state_of_run, !trace_of_run.
  destruct (start_applies_tracker started s Hs Hlen) as (Ht & Hops).
  set (r := on_envelope started s) in *.
  assert (Get (ts_ContainerID (Unmarshal_TaskStart (Event_Value started)).1)
              (tracker (state_of r))
          = (extracted host json_Unmarshal_Ports
               (ts_ContainerID (Unmarshal_TaskStart (Event_Value started)).1) s).1) as Hget
    by (rewrite Ht; by apply Get_Add).
  split; [done|].
  rewrite onEnvelope_exit, onTaskExit_run by done. cbn zeta. rewrite Hid, Hget.
  destruct (extracted host json_Unmarshal_Ports _ s).1 as [m|] eqn:Hp; [|done].
  rewrite !state_of_run, !trace_of_run. cbn [fst snd tracker].
  split; [apply Get_Remove|]. split.
  - intros id' Hne. rewrite Get_Remove_ne by done.
    rewrite Ht. by apply Get_Add_ne.
  - split.
    + rewrite tracker_ops_app, Hops. by trace_simpl.
    + rewrite exec_cmds_app. trace_simpl. by rewrite app_nil_r.
Qed.

Lemma extracted_world (id : string) (s s' : @State W T) :
  world s = world s' →
  extracted host json_Unmarshal_Ports id s = extracted host json_Unmarshal_Ports id s'
  ∧ looked_up host id s = looked_up host id s'
  ∧ world (after_lookup host id s) = world (after_lookup host id s').
Proof.
  intros Hw. unfold extracted, looked_up, after_lookup. cbn [world]. by rewrite Hw.
Qed.

(** X22. The handler of a start event does not consult the tracker before
    applying the rules: from the same world it starts the same external
    commands and leaves the same world whatever the tracker holds, so the
    start event of a container already tracked appends its rules
    again. *)
Theorem start_does_not_consult_tracker (envelope : Envelope) (s s' : @State W T) :
  Topic envelope = "/tasks/start" →
  world s = world s' →
  exec_cmds (trace_of (on_envelope envelope s)) = exec_cmds (trace_of (on_envelope envelope s'))
  ∧ world (state_of (on_envelope envelope s)) = world (state_of (on_envelope envelope s')).
Proof.
  intros Ht Hw.
  destruct (extracted_world (ts_ContainerID (Unmarshal_TaskStart (Event_Value envelope)).1)
              s s' Hw) as (Hx & Hl & Ha).
  destruct (decide (len (extracted host json_Unmarshal_Ports
                           (ts_ContainerID (Unmarshal_TaskStart (Event_Value envelope)).1)
                           s).1 = 0)) as [Hz|Hz].
  - rewrite !start_skip_run by (done || by rewrite <- Hx).
    rewrite !state_of_run, !trace_of_run. split; [by trace_simpl|done].
  - rewrite !start_run by (done || by rewrite <- Hx).
    rewrite !state_of_run, !trace_of_run. cbn [world]. rewrite <- Hx, <- Hl.
    match goal with |- context [execIptablesRules ?a ?b ?c ?d ?e ?f ?g ?h ?i (after_lookup _ _ s)] =>
      destruct (execIptablesRules_tracker_irrelevant a b c d e f g h i _ _ Ha)
        as (_ & H2 & H3) end.
    cbn zeta in H2, H3. split; [|done].
    trace_simpl. by rewrite H3.
Qed.

(** *** The reconciler *)

Abbreviation init :=
  (initializeContainer host json_Unmarshal_Ports json_Unmarshal_Strings chain range).
Abbreviation init_all :=
  (initializeContainers host json_Unmarshal_Ports json_Unmarshal_Strings chain range).
Abbreviation reconcile :=
  (initializeRunningContainers host json_Unmarshal_Ports json_Unmarshal_Strings chain range).

(** What the loop body does to the tracker, and which commands it
    starts. *)
Lemma init_cases (c : string) (s : @State W T) :
  let r := init c s in
  Forall (λ argv, is_probe argv ∨ is_append_rule argv) (exec_cmds (trace_of r))
  ∧ ((tracker_ops (trace_of r) = [] ∧ tracker (state_of r) = tracker s)
     ∨ (∃ pm, len pm ≠ 0 ∧ len (Get c (tracker s)) = 0
              ∧ tracker_ops (trace_of r) = [EvTrackerAdd c pm]
              ∧ tracker (state_of r) = (Add c pm (tracker s)).2)).
Proof.
  cbn zeta. rewrite initializeContainer_run. cbn zeta.
  destruct (decide _) as [Hg|Hg]; [by split; [|left]|].
  destruct (Container_Task host c (world s)).1 as [msg|pid]; [by split; [|left]|].
  destruct (Task_Status host c _).1 as [msg|status]; [by split; [|left]|].
  destruct (decide _) as [Hs|Hs]; [by split; [|left]|].
  destruct (Container_Labels host c _).1 as [msg|labels]; [by split; [|left]|].
  destruct (decide _) as [Hz|Hz].
  { rewrite state_of_run, trace_of_run. split; [|left; split; [by trace_simpl|done]].
    apply exec_cmds_nil_shape. by trace_simpl. }
  match goal with |- context [execIptablesRules ?a ?b ?c ?d ?e ?f ?g ?h ?i ?j] =>
    destruct (execIptablesRules_shape a b c d e f g h i j) as [Hsh _];
    destruct (execIptablesRules_frame a b c d e f g h i j) as [Hft Hfo] end.
  cbn zeta in Hsh, Hft, Hfo. cbn [tracker] in Hft.
  rewrite state_of_run, trace_of_run. cbn [tracker]. split.
  - trace_simpl. destruct (Add _ _ _).1; trace_simpl; by rewrite app_nil_r.
  - right. eexists. split; [exact Hz|]. split; [by destruct (len (Get c (tracker s))); [|destruct Hg]|].
    rewrite Hft. split; [|done].
    trace_simpl. rewrite Hfo. by destruct (Add _ _ _).1.
Qed.

Lemma init_other `{!TrackerLaws T} (c c' : string) (s : @State W T) :
  c ≠ c' → Get c' (tracker (state_of (init c s))) = Get c' (tracker s).
Proof.
  intros Hne. destruct (init_cases c s) as [_ [[_ ->]|(pm & _ & _ & _ & ->)]]; [done|].
  by apply Get_Add_ne.
Qed.

Lemma state_of_init_all_cons (c : string) (cs : list string) (s : @State W T) :
  state_of (init_all (c :: cs) s) = state_of (init_all cs (state_of (init c s))).
Proof. by rewrite init_all_cons, state_of_run. Qed.

Lemma init_all_tracks `{!TrackerLaws T} (cs : list string) (s : @State W T) (c : string)
    (pid : Z) (labels : Labels) :
  steady host →
  tracker_wf (tracker s) →
  c ∈ cs →
  len (Get c (tracker s)) = 0 →
  found host c (world s) = Some (pid, labels) →
  len (ports_of json_Unmarshal_Ports labels) ≠ 0 →
  Get c (tracker (state_of (init_all cs s))) = ports_of json_Unmarshal_Ports labels.
Proof.
  intros Hst. revert s. induction cs as [|c0 cs IH]; intros s Hwf Hin Hun Hf Hlen.
  { by apply elem_of_nil in Hin. }
  rewrite state_of_init_all_cons.
  destruct (init_keeps host json_Unmarshal_Ports json_Unmarshal_Strings chain range c0 s Hwf)
    as (Hwf1 & _ & _).
  destruct (decide (c0 = c)) as [->|Hne].
  - destruct (init_applies host json_Unmarshal_Ports json_Unmarshal_Strings chain range
                c s pid labels Hun Hf Hlen) as (_ & Ht & _).
    destruct (init_all_keeps host json_Unmarshal_Ports json_Unmarshal_Strings chain range
                cs (state_of (init c s)) (world s) Hst Hwf1) as (_ & Hkeep & _).
    assert (Get c (tracker (state_of (init c s))) = ports_of json_Unmarshal_Ports labels) as Hg
      by (rewrite Ht; by apply Get_Add).
    rewrite Hkeep; [done|]. by rewrite Hg.
  - apply elem_of_cons in Hin as [->|Hin]; [done|].
    apply IH; [done|done| | |done].
    + by rewrite init_other.
    + by rewrite (found_steady host c _ (world s)).
Qed.

(** X23. With a steady runtime and a tracker that behaves as relied on,
    after the reconciliation the tracker holds, for every listed
    container it held nothing for, whose task is running and whose labels
    yield a non-empty mapping set, exactly that mapping set; and it
    still holds what it held for the containers tracked before. *)
Theorem reconcile_tracks_extracted_ports `{!TrackerLaws T} (s : @State W T)
    (cs : list string) :
  let r := reconcile s in
  (Containers host (world s)).1 = inr cs →
  steady host →
  tracker_wf (tracker s) →
  tracker_wf (tracker (state_of r))
  ∧ (∀ id, len (Get id (tracker s)) ≠ 0 → Get id (tracker (state_of r)) = Get id (tracker s))
  ∧ (∀ c pid labels,
       c ∈ cs →
       len (Get c (tracker s)) = 0 →
       found host c (world s) = Some (pid, labels) →
       len (ports_of json_Unmarshal_Ports labels) ≠ 0 →
       Get c (tracker (state_of r)) = ports_of json_Unmarshal_Ports labels).
Proof.
  cbn zeta. intros Hcs Hst Hwf. rewrite reconcile_run, Hcs. cbn zeta.
  rewrite state_of_run.
  set (s0 := mkState (Containers host (world s)).2 (tracker s)).
  destruct (init_all_keeps host json_Unmarshal_Ports json_Unmarshal_Strings chain range
              cs s0 (world s) Hst Hwf) as (Hwf' & Hkeep & _).
  split; [done|]. split; [done|].
  intros c pid labels Hin Hun Hf Hlen.
  apply (init_all_tracks cs s0 c pid labels); try done.
  by rewrite (found_steady host c _ (world s)).
Qed.

Lemma init_all_invariant (cs : list string) (s : @State W T) :
  let r := init_all cs s in
  Forall (λ argv, is_probe argv ∨ is_append_rule argv) (exec_cmds (trace_of r))
  ∧ Forall (λ e, ∃ c pm, e = EvTrackerAdd c pm ∧ c ∈ cs ∧ len pm ≠ 0)
      (tracker_ops (trace_of r)).
Proof.
  cbn zeta. revert s. induction cs as [|c cs IH]; intros s; [by split|].
  rewrite init_all_cons, trace_of_run, exec_cmds_app, tracker_ops_app.
  destruct (init_cases c s) as [H1 H2].
  destruct (IH (state_of (init c s))) as [I1 I2].
  split; [by apply Forall_app|]. apply Forall_app. split.
  - destruct H2 as [[-> _]|(pm & Hpm & _ & -> & _)]; [done|].
    constructor; [|done]. exists c, pm. split; [done|]. split; [by left|done].
  - eapply Forall_impl; [exact I2|]. intros e (c' & pm & -> & Hin & Hpm).
    exists c', pm. split; [done|]. split; [by right|done].
Qed.

(** X24. Every external command the reconciler starts is the probe of a
    process or the appending of a rule, and every changing call it makes
    on the tracker is the add of a non-empty mapping set for a listed
    container: it never removes a record. *)
Theorem reconciler_only_probes_appends_and_adds (s : @State W T) :
  let r := reconcile s in
  let listed := match (Containers host (world s)).1 with inl _ => [] | inr cs => cs end in
  Forall (λ argv, is_probe argv ∨ is_append_rule argv) (exec_cmds (trace_of r))
  ∧ Forall (λ e, ∃ c pm, e = EvTrackerAdd c pm ∧ c ∈ listed ∧ len pm ≠ 0)
      (tracker_ops (trace_of r)).
Proof.
  cbn zeta. rewrite reconcile_run.
  destruct (Containers host (world s)).1 as [msg|cs]; [by split|].
  cbn zeta. rewrite trace_of_run. apply init_all_invariant.
Qed.

(** X25. With a tracker that behaves as relied on, the reconciler's loop
    body returns at once for a container whose start event has been
    handled (untracked before, with a non-empty mapping set): it leaves
    the state as it is and adds nothing to the trace, no command and no
    log entry. *)
Theorem reconciler_skips_started_container `{!TrackerLaws T} (envelope : Envelope)
    (s : @State W T) :
  let id := ts_ContainerID (Unmarshal_TaskStart (Event_Value envelope)).1 in
  let ports := (extracted host json_Unmarshal_Ports id s).1 in
  let s1 := state_of (on_envelope envelope s) in
  Topic envelope = "/tasks/start" →
  tracker_wf (tracker s) →
  len (Get id (tracker s)) = 0 →
  len ports ≠ 0 →
  init id s1 = (tt, s1, []).
Proof.
  cbn zeta. intros Ht Hwf Hun Hlen.
  destruct (start_applies_tracker envelope s Ht Hlen) as (Htr & _).
  apply init_tracked. rewrite Htr, Get_Add by done. done.
Qed.










End HandlerMore.

(** ** Close *)

Section CloseFacts.

Context {W T : Type} (host : Host W) `{Tracker T}.

(** X26. [Close] closes the client and then clears the tracker, whether
    or not closing the client failed.  It returns no error exactly when
    both succeeded; when clearing the tracker fails it returns that
    failure, and the failure of closing the client, if any, is lost. *)
Theorem Close_clears_tracker_whatever_happens (s : @State W T) :
  let r := Close host s in
  let closed := Client_Close host (world s) in
  let cleared := RemoveAll (tracker s) in
  trace_of r = [EvClientClose; EvTrackerRemoveAll]
  ∧ state_of r = mkState closed.2 cleared.2
  ∧ result_of r
    = match cleared.1, closed.1 with
      | Some e, _ => Some (Errorf "failed to remove all ports from port tracker: %w" [] e)
      | None, Some msg => Some (Errorf "failed to close containerd client: %w" [] (ErrAPI msg))
      | None, None => None
      end
  ∧ (result_of r = None ↔ closed.1 = None ∧ cleared.1 = None).
Proof.
  cbn zeta. unfold Close, mbind, M_bind, containerdClient_Close, portTracker_RemoveAll,
    result_of, state_of, trace_of.
  cbn [fst snd world tracker].
  destruct (Client_Close host (world s)) as [[msg|] w];
    destruct (RemoveAll (tracker s)) as [[e|] t]; cbn; repeat split; try done;
    by intros [? ?].
Qed.

End CloseFacts.

(** ** Payloads that do not decode *)

Section DecodeFacts.

Context {W T : Type} (host : Host W) `{Tracker T}.
Context (json_Unmarshal_Ports : string → string + list Port)
        (json_Unmarshal_Strings : string → string + list string)
        (MustFormatChainNameWithPrefix : string → string → string → string)
        (range : PortTable → list (string * list PortBinding)).

Abbreviation handle :=
  (onEnvelope host json_Unmarshal_Ports json_Unmarshal_Strings MustFormatChainNameWithPrefix
     range).

#[local] Hint Rewrite @exec_cmds_prelude @tracker_ops_prelude : trace.

Lemma prelude_decode_logged topic format (msg : string) id ns (s : @State W T)
    (l : list Event) :
  ErrProto msg
  ∈ logged_errors (EvDebugf "received an event: %+v" [topic]
                   :: prelude host json_Unmarshal_Ports format (Some msg) id ns s ++ l).
Proof.
  apply (elem_of_logged_errors format []). apply elem_of_cons. right.
  apply elem_of_app. left. unfold prelude. apply elem_of_app. left. cbn. by left.
Qed.

(** X27. A payload that does not decode does not stop a handler: the state
    the handler leaves, the external commands it starts and the changing
    calls it makes on the tracker are those it makes for the message as
    the decoder left it, whether or not the decoder reported a failure;
    and the failure is logged. *)
Theorem decode_failure_does_not_stop_handler
    (start start' : string → TaskStart * option string)
    (update update' : string → ContainerUpdate * option string)
    (exit exit' : string → TaskExit * option string)
    (envelope : Envelope) (s : @State W T) :
  let r := handle start update exit envelope s in
  let r' := handle start' update' exit' envelope s in
  (∀ v, (start v).1 = (start' v).1) →
  (∀ v, (update v).1 = (update' v).1) →
  (∀ v, (exit v).1 = (exit' v).1) →
  state_of r = state_of r'
  ∧ exec_cmds (trace_of r) = exec_cmds (trace_of r')
  ∧ tracker_ops (trace_of r) = tracker_ops (trace_of r')
  ∧ (∀ msg, decode_failure start update exit envelope = Some msg →
            ErrProto msg ∈ logged_errors (trace_of r)).
Proof.
  cbn zeta. intros Hs Hu He. rewrite !onEnvelope_branch. cbn zeta. unfold decode_failure.
  rewrite !state_of_run, !trace_of_run, !exec_cmds_EvDebugf, !tracker_ops_EvDebugf.
  destruct (decide (Topic envelope = "/tasks/start")) as [Ht|Ht].
  { rewrite !onTaskStart_run. cbn zeta. rewrite <- !Hs.
    destruct (decide _) as [Hz|Hz]; cbn [fst snd].
    all: split; [done|]; split; [by trace_simpl|]; split; [by trace_simpl|].
    all: intros msg ->.
    - rewrite <- (app_nil_r (prelude _ _ _ _ _ _ _)). apply prelude_decode_logged.
    - apply prelude_decode_logged. }
  destruct (decide (Topic envelope = "/containers/update")) as [Hup|Hup].
  { rewrite !onContainerUpdate_run. cbn zeta. rewrite <- !Hu.
    destruct (decide _) as [Hz|Hz]; cbn [fst snd];
      [|destruct (Get _ (tracker s)) as [old|]; [destruct (DeepEqual _ _)|]; cbn [fst snd]].
    all: split; [done|]; split; [by trace_simpl|]; split; [by trace_simpl|].
    all: intros msg ->.
    all: try apply prelude_decode_logged.
    all: rewrite <- (app_nil_r (prelude _ _ _ _ _ _ _)); apply prelude_decode_logged. }
  destruct (decide (Topic envelope = "/tasks/exit")) as [Hex|Hex]; [|done].
  rewrite !onTaskExit_run. cbn zeta. rewrite <- !He.
  destruct (Get _ (tracker s)) as [old|]; cbn [fst snd].
  all: split; [done|]; split; [by trace_simpl|]; split; [by trace_simpl|].
  all: intros msg ->.
  all: apply (elem_of_logged_errors "failed to unmarshal container's exit task: %v" []).
  all: apply elem_of_cons; right; cbn [proto_err fmap option_fmap option_map logged].
  all: try (apply elem_of_app; left); by left.
Qed.

End DecodeFacts.

(** ** Events handled twice *)

Section Repeated.

Context {W T : Type} (host : Host W) `{Tracker T} `{!TrackerLaws T}.
Context (json_Unmarshal_Ports : string → string + list Port)
        (json_Unmarshal_Strings : string → string + list string)
        (MustFormatChainNameWithPrefix : string → string → string → string)
        (range : PortTable → list (string * list PortBinding)).
Context (Unmarshal_TaskStart : string → TaskStart * option string)
        (Unmarshal_ContainerUpdate : string → ContainerUpdate * option string)
        (Unmarshal_TaskExit : string → TaskExit * option string).

Abbreviation on_envelope :=
  (onEnvelope host json_Unmarshal_Ports json_Unmarshal_Strings MustFormatChainNameWithPrefix
     range Unmarshal_TaskStart Unmarshal_ContainerUpdate Unmarshal_TaskExit).

#[local] Hint Rewrite @exec_cmds_prelude @tracker_ops_prelude : trace.

(** The tracker after an update event with ports. *)
Lemma update_tracker (envelope : Envelope) (s : @State W T) :
  let id := cu_ID (Unmarshal_ContainerUpdate (Event_Value envelope)).1 in
  let ports := (extracted host json_Unmarshal_Ports id s).1 in
  Topic envelope = "/containers/update" →
  len ports ≠ 0 →
  tracker (state_of (on_envelope envelope s))
  = match Get id (tracker s) with
    | Some old =>
        if DeepEqual ports (Some old) then tracker s
        else (Add id ports (Remove id (tracker s)).2).2
    | None => (Add id ports (tracker s)).2
    end.
Proof.
  cbn zeta. intros Ht Hlen.
  rewrite onEnvelope_update, onContainerUpdate_run by done. cbn zeta.
  rewrite decide_False by done.
  destruct (Get _ (tracker s)) as [old|]; [destruct (DeepEqual _ _)|]; by rewrite state_of_run.
Qed.

(** X28. With a tracker that behaves as relied on, after a
    container-update event with a non-empty extracted mapping set the
    tracker holds exactly that mapping set for the container, whatever
    it held for it before, and what it held for every other container;
    and if the lookup of the container then yields the same mapping set
    again, handling the same event once more starts no command and
    changes nothing in the tracker. *)
Theorem update_leaves_extracted_ports_tracked (envelope : Envelope) (s : @State W T) :
  let id := cu_ID (Unmarshal_ContainerUpdate (Event_Value envelope)).1 in
  let ports := (extracted host json_Unmarshal_Ports id s).1 in
  let r := on_envelope envelope s in
  Topic envelope = "/containers/update" →
  tracker_wf (tracker s) →
  len ports ≠ 0 →
  Get id (tracker (state_of r)) = ports
  ∧ (∀ id', id' ≠ id → Get id' (tracker (state_of r)) = Get id' (tracker s))
  ∧ ((extracted host json_Unmarshal_Ports id (state_of r)).1 = ports →
     quiet (state_of r) (on_envelope envelope (state_of r))).
Proof.
  cbn zeta. intros Ht Hwf Hlen.
  pose proof (update_tracker envelope s Ht Hlen) as Htr. cbn zeta in Htr.
  set (id := cu_ID (Unmarshal_ContainerUpdate (Event_Value envelope)).1) in *.
  set (ports := (extracted host json_Unmarshal_Ports id s).1) in *.
  assert (Get id (tracker (state_of (on_envelope envelope s))) = ports) as Hget.
  { rewrite Htr. destruct (Get id (tracker s)) as [old|] eqn:Hg.
    - destruct (DeepEqual ports (Some old)) eqn:Hd.
      + apply DeepEqual_eq in Hd. by rewrite Hg.
      + apply Get_Add; [by apply Remove_wf|by rewrite Get_Remove|done].
    - apply Get_Add; [done|by rewrite Hg|done]. }
  split; [done|]. split.
  - intros id' Hne. rewrite Htr. destruct (Get id (tracker s)) as [old|].
    + destruct (DeepEqual ports (Some old)); [done|].
      by rewrite Get_Add_ne, Get_Remove_ne.
    + by rewrite Get_Add_ne.
  - intros Hsame. set (s1 := state_of (on_envelope envelope s)) in *.
    rewrite onEnvelope_update, onContainerUpdate_run by done. cbn zeta.
    fold id. rewrite Hsame, Hget, decide_False by done.
    destruct ports as [m|] eqn:Hp; [|done].
    rewrite (proj2 (DeepEqual_eq (Some m) (Some m)) eq_refl).
    unfold quiet. rewrite state_of_run, trace_of_run. cbn [fst snd].
    split; [by trace_simpl|]. split; [by trace_simpl|done].
Qed.

(** X29. With a tracker that behaves as relied on, a task-exit event
    handled a second time calls no changing operation of the tracker and
    leaves the state as the first handling left it: a repeated exit event
    is harmless. *)
Theorem exit_twice_is_exit_once (envelope : Envelope) (s : @State W T) :
  let r1 := on_envelope envelope s in
  let r2 := on_envelope envelope (state_of r1) in
  Topic envelope = "/tasks/exit" →
  tracker_ops (trace_of r2) = [] ∧ exec_cmds (trace_of r2) = []
  ∧ state_of r2 = state_of r1.
Proof.
  cbn zeta. intros Ht.
  set (id := te_ContainerID (Unmarshal_TaskExit (Event_Value envelope)).1).
  assert (Get id (tracker (state_of (on_envelope envelope s))) = None) as Hnone.
  { rewrite onEnvelope_exit, onTaskExit_run by done. cbn zeta. fold id.
    destruct (Get id (tracker s)) as [old|] eqn:Hg; rewrite state_of_run; cbn [fst snd tracker].
    - apply Get_Remove.
    - done. }
  set (s1 := state_of (on_envelope envelope s)) in *.
  rewrite onEnvelope_exit, onTaskExit_run by done. cbn zeta. fold id. rewrite Hnone.
  rewrite state_of_run, trace_of_run. cbn [fst snd].
  split; [by trace_simpl|]. split; [by trace_simpl|done].
Qed.

End Repeated.

(** ** The further theorems at work on the concrete host *)

Lemma extractIPAddress_reads_first_address_witness :
  result_of (extractIPAddress Demo.host "4242" Demo.start) = ("10.4.0.22", None).
Proof.
  apply (extractIPAddress_reads_first_address (T := SpecTracker.t) Demo.host "4242" Demo.start
           (String.list_ascii_of_string "2: eth0    ")
           (String.list_ascii_of_string " ")
           (String.list_ascii_of_string "10") (String.list_ascii_of_string "4")
           (String.list_ascii_of_string "0") (String.list_ascii_of_string "22")
           (String.list_ascii_of_string "24")
           (String.list_ascii_of_string
              " brd 10.4.0.255 scope global eth0\       valid_lft forever preferred_lft forever")).
  - reflexivity.
  - reflexivity.
  - reflexivity.
  - reflexivity.
  - split; [done|]. by repeat constructor.
  - split; [cbn; lia|]. by repeat constructor.
  - split; [cbn; lia|]. by repeat constructor.
  - split; [cbn; lia|]. by repeat constructor.
  - split; [cbn; lia|]. by repeat constructor.
  - split; [cbn; lia|]. by repeat constructor.
Defined.

Lemma extractor_groups_by_key_witness :
  ∃ m : PortTable,
    createPortMappingFromString Demo.json_Unmarshal_Ports Demo.two_ports = (Some m, None)
    ∧ (∀ k, m !! k
            = if decide (bindings_under k [mkPort 8081 80 "tcp" "127.0.0.1";
                                           mkPort 8080 80 "tcp" "10.0.0.5"] = [])
              then None
              else Some (bindings_under k [mkPort 8081 80 "tcp" "127.0.0.1";
                                           mkPort 8080 80 "tcp" "10.0.0.5"]))
    ∧ binding_count m = 2.
Proof.
  apply (extractor_groups_by_key Demo.json_Unmarshal_Ports Demo.two_ports
           [mkPort 8081 80 "tcp" "127.0.0.1"; mkPort 8080 80 "tcp" "10.0.0.5"]).
  - vm_compute. discriminate.
  - vm_compute. reflexivity.
  - repeat constructor; unfold valid_port; cbn; lia.
Defined.

Lemma extractor_stops_at_first_invalid_port_witness :
  createPortMappingFromString Cases.json_Unmarshal_Ports Cases.mixed_ports
  = (None, Some (ErrPort "70000")).
Proof.
  apply (extractor_stops_at_first_invalid_port Cases.json_Unmarshal_Ports Cases.mixed_ports
           [mkPort 8080 80 "tcp" "127.0.0.1"] [mkPort 5353 53 "udp" ""]
           (mkPort 9000 70000 "tcp" "127.0.0.1")).
  - vm_compute. discriminate.
  - vm_compute. reflexivity.
  - repeat constructor; unfold valid_port; cbn; lia.
  - unfold valid_port. cbn. lia.
Defined.

Lemma extractor_host_ips_witness :
  HostIP (mkPortBinding "0.0.0.0" "8080") = "127.0.0.1"
  ∨ HostIP (mkPortBinding "0.0.0.0" "8080") = "localhost"
  ∨ HostIP (mkPortBinding "0.0.0.0" "8080") = "0.0.0.0".
Proof.
  apply (extractor_host_ips Demo.json_Unmarshal_Ports Demo.two_ports Demo.two None "80/tcp"
           [mkPortBinding "127.0.0.1" "8081"; mkPortBinding "0.0.0.0" "8080"]).
  - vm_compute. reflexivity.
  - vm_compute. reflexivity.
  - right. left.
Defined.

Lemma extractIPAddress_not_found_without_inet_witness :
  extractIPAddress Cases.host "1" Demo.start
  = (("", Some ErrIPAddressNotFound), Demo.start, [EvExec (nsenter_argv "1")]).
Proof.
  apply (extractIPAddress_not_found_without_inet Cases.host "1" Demo.start); reflexivity.
Defined.

Lemma synchronizer_probes_before_each_binding_witness :
  exec_cmds (trace_of (Demo.synchronize (Some Demo.two) "two" Demo.one_network "default" "4242"
                         Demo.start))
  = [nsenter_argv "4242"; iptables_argv "CNI-DN-bridge.default-two" "8081" "10.4.0.22" "80"].
Proof.
  pose proof (synchronizer_probes_before_each_binding (T := SpecTracker.t) Demo.host
                Demo.json_Unmarshal_Strings Demo.chain Demo.range (Some Demo.two) "two"
                Demo.one_network "default" "4242" "10.4.0.22" ["bridge"] Demo.start) as Hthm.
  cbn zeta in Hthm. unfold Demo.synchronize.
  rewrite Hthm; [vm_compute; reflexivity|reflexivity|intros w; reflexivity].
Defined.

Lemma synchronizer_succeeds_when_commands_do_witness :
  result_of (Demo.synchronize (Some Demo.web) "c1" Demo.one_network "default" "4242" Demo.start)
  = None.
Proof.
  apply (synchronizer_succeeds_when_commands_do (T := SpecTracker.t) Demo.host
           Demo.json_Unmarshal_Strings Demo.chain Demo.range (Some Demo.web) "c1"
           Demo.one_network "default" "4242" "10.4.0.22" ["bridge"] Demo.start).
  - reflexivity.
  - intros w. reflexivity.
  - intros network dport ip port w Hin. apply list_elem_of_singleton in Hin as ->. reflexivity.
Defined.

Lemma synchronizer_unresolved_appends_nothing_witness :
  let r := Demo.synchronize (Some Demo.web) "lost" Demo.one_network "default" "7" Demo.start in
  exec_cmds (trace_of r) = [nsenter_argv "7"]
  ∧ firewall_cmds (trace_of r) = []
  ∧ ∃ errs, result_of r = Some (ErrorfList ErrExecIptablesRule errs) ∧ length errs = 1.
Proof.
  pose proof (synchronizer_unresolved_appends_nothing (T := SpecTracker.t) Demo.host
                Demo.json_Unmarshal_Strings Demo.chain Demo.range (Some Demo.web) "lost"
                Demo.one_network "default" "7" ["bridge"] Demo.start) as Hthm.
  cbn zeta in Hthm.
  destruct Hthm as (H1 & H2 & _ & H4); [reflexivity|intros w; vm_compute; discriminate|].
  cbn zeta. unfold Demo.synchronize. split; [rewrite H1; vm_compute; reflexivity|].
  split; [exact H2|]. apply H4. vm_compute. discriminate.
Defined.

Lemma synchronizer_silent_without_loopback_witness :
  Demo.synchronize (Some Cases.localhost) "c1" Demo.one_network "default" "4242" Demo.start
  = (None, Demo.start, []).
Proof.
  apply (synchronizer_silent_without_loopback (T := SpecTracker.t) Demo.host
           Demo.json_Unmarshal_Strings Demo.chain Demo.range (Some Cases.localhost) "c1"
           Demo.one_network "default" "4242" ["bridge"] Demo.start).
  - reflexivity.
  - intros key bs b Hin Hb. cbn [range_PortMap] in Hin. unfold Demo.range, Cases.localhost in Hin.
    apply elem_of_map_to_list, lookup_singleton_Some in Hin as [<- <-].
    apply list_elem_of_singleton in Hb as ->. discriminate.
Defined.

Lemma declared_loopback_ports_get_rules_witness :
  iptables_argv "CNI-DN-bridge.default-two" "8081" "10.4.0.22" "80"
  ∈ firewall_cmds
      (trace_of (Demo.synchronize
                   (createPortMappingFromString Demo.json_Unmarshal_Ports Demo.two_ports).1
                   "two" Demo.one_network "default" "4242" Demo.start)).
Proof.
  apply (declared_loopback_ports_get_rules (T := SpecTracker.t) Demo.host
           Demo.json_Unmarshal_Ports Demo.json_Unmarshal_Strings Demo.chain Demo.range
           Demo.two_ports Demo.one_network "two" "default" "4242" "10.4.0.22"
           [mkPort 8081 80 "tcp" "127.0.0.1"; mkPort 8080 80 "tcp" "10.0.0.5"] ["bridge"]
           Demo.start).
  - vm_compute. discriminate.
  - vm_compute. reflexivity.
  - repeat constructor; unfold valid_port; cbn; lia.
  - reflexivity.
  - intros w. reflexivity.
  - intros m. reflexivity.
  - exists (mkPort 8081 80 "tcp" "127.0.0.1"), "bridge".
    split; [by left|]. split; [reflexivity|]. split; [by left|]. vm_compute. reflexivity.
Defined.

Lemma start_applies_rules_then_tracks_witness :
  let r := Demo.on_envelope (Demo.start_env "c1") Demo.start in
  tracker_ops (trace_of r) = [EvTrackerAdd "c1" (Some Demo.web)]
  ∧ tracker (state_of r) = {["c1" := Demo.web]}
  ∧ world (state_of r) = [iptables_argv "CNI-DN-bridge.default-c1" "8080" "10.4.0.22" "80"]
  ∧ exec_cmds (trace_of r)
    = [nsenter_argv "4242"; iptables_argv "CNI-DN-bridge.default-c1" "8080" "10.4.0.22" "80"].
Proof.
  pose proof (start_applies_rules_then_tracks Demo.host Demo.json_Unmarshal_Ports
     Demo.json_Unmarshal_Strings Demo.chain Demo.range
     Demo.Unmarshal_TaskStart Demo.Unmarshal_ContainerUpdate Demo.Unmarshal_TaskExit
     (Demo.start_env "c1") Demo.start) as Hthm.
  cbn zeta in Hthm.
  destruct Hthm as (H1 & H2 & H3 & H4 & _); [reflexivity|vm_compute; lia|].
  cbn zeta. unfold Demo.on_envelope. split; [|split; [|split]].
  - rewrite H1. vm_compute. reflexivity.
  - rewrite H2. vm_compute. reflexivity.
  - rewrite H3. vm_compute. reflexivity.
  - rewrite H4. vm_compute. reflexivity.
Defined.

Lemma handlers_skip_without_ports_witness :
  let s := Demo.tracking "plain" Demo.web in
  quiet s (Demo.on_envelope (Demo.update_env "plain") s).
Proof.
  pose proof (handlers_skip_without_ports Demo.host Demo.json_Unmarshal_Ports
     Demo.json_Unmarshal_Strings Demo.chain Demo.range
     Demo.Unmarshal_TaskStart Demo.Unmarshal_ContainerUpdate Demo.Unmarshal_TaskExit)
    as [_ Hthm].
  apply (Hthm (Demo.update_env "plain") (Demo.tracking "plain" Demo.web)).
  - reflexivity.
  - vm_compute. reflexivity.
Defined.

Lemma lookup_failure_is_logged_and_skipped_witness :
  let r := Demo.on_envelope (Demo.start_env "ghost") Demo.start in
  ErrAPI "not found" ∈ logged_errors (trace_of r) ∧ quiet Demo.start r.
Proof.
  pose proof (lookup_failure_is_logged_and_skipped Demo.host Demo.json_Unmarshal_Ports
     Demo.json_Unmarshal_Strings Demo.chain Demo.range
     Demo.Unmarshal_TaskStart Demo.Unmarshal_ContainerUpdate Demo.Unmarshal_TaskExit)
    as [Hthm _].
  apply (Hthm (Demo.start_env "ghost") Demo.start "not found"); reflexivity.
Defined.

Lemma update_of_untracked_adds_without_rules_witness :
  let r := Demo.on_envelope (Demo.update_env "c1") Demo.start in
  tracker_ops (trace_of r) = [EvTrackerAdd "c1" (Some Demo.web)]
  ∧ tracker (state_of r) = {["c1" := Demo.web]}
  ∧ exec_cmds (trace_of r) = []
  ∧ firewall_cmds (trace_of r) = [].
Proof.
  pose proof (update_of_untracked_adds_without_rules Demo.host Demo.json_Unmarshal_Ports
     Demo.json_Unmarshal_Strings Demo.chain Demo.range
     Demo.Unmarshal_TaskStart Demo.Unmarshal_ContainerUpdate Demo.Unmarshal_TaskExit
     (Demo.update_env "c1") Demo.start) as Hthm.
  cbn zeta in Hthm.
  destruct Hthm as (H1 & H2 & H3 & H4); [reflexivity|vm_compute; lia|reflexivity|].
  cbn zeta. unfold Demo.on_envelope. split; [|split; [|split]].
  - rewrite H1. vm_compute. reflexivity.
  - rewrite H2. vm_compute. reflexivity.
  - exact H3.
  - exact H4.
Defined.

Lemma start_then_exit_round_trip_witness :
  let r1 := Demo.monitor [Demo.start_of "c1"] Demo.start in
  let r2 := Demo.monitor [Demo.start_of "c1"; Demo.exit_of "c1"] Demo.start in
  Get "c1" (tracker (state_of r1)) = Some Demo.web
  ∧ Get "c1" (tracker (state_of r2)) = None
  ∧ tracker_ops (trace_of r2) = [EvTrackerAdd "c1" (Some Demo.web); EvTrackerRemove "c1"]
  ∧ exec_cmds (trace_of r2) = exec_cmds (trace_of r1).
Proof.
  pose proof (start_then_exit_round_trip Demo.host Demo.json_Unmarshal_Ports
     Demo.json_Unmarshal_Strings Demo.chain Demo.range
     Demo.Unmarshal_TaskStart Demo.Unmarshal_ContainerUpdate Demo.Unmarshal_TaskExit
     (Demo.start_env "c1") (Demo.exit_env "c1") Demo.start) as Hthm.
  cbn zeta in Hthm.
  destruct Hthm as (H1 & H2 & _ & H4 & H5);
    [reflexivity|reflexivity|reflexivity|apply map_Forall_empty|reflexivity|vm_compute; lia|].
  cbn zeta. unfold Demo.monitor, Demo.start_of, Demo.exit_of. split; [|split; [|split]].
  - refine (eq_trans H1 _). vm_compute. reflexivity.
  - exact H2.
  - refine (eq_trans H4 _). vm_compute. reflexivity.
  - exact H5.
Defined.

Lemma start_does_not_consult_tracker_witness :
  let e := Demo.start_env "c1" in
  exec_cmds (trace_of (Demo.on_envelope e Demo.start))
  = exec_cmds (trace_of (Demo.on_envelope e (Demo.tracking "c1" Demo.web)))
  ∧ world (state_of (Demo.on_envelope e Demo.start))
    = world (state_of (Demo.on_envelope e (Demo.tracking "c1" Demo.web))).
Proof.
  apply (start_does_not_consult_tracker Demo.host Demo.json_Unmarshal_Ports
     Demo.json_Unmarshal_Strings Demo.chain Demo.range
     Demo.Unmarshal_TaskStart Demo.Unmarshal_ContainerUpdate Demo.Unmarshal_TaskExit
     (Demo.start_env "c1") Demo.start (Demo.tracking "c1" Demo.web)); reflexivity.
Defined.

Lemma reconcile_tracks_extracted_ports_witness :
  Get "c1" (tracker (state_of (Demo.reconcile Demo.start))) = Some Demo.web
  ∧ Get "dns" (tracker (state_of (Demo.reconcile Demo.start))) = Some Demo.dns.
Proof.
  pose proof (reconcile_tracks_extracted_ports Demo.host Demo.json_Unmarshal_Ports
     Demo.json_Unmarshal_Strings Demo.chain Demo.range Demo.start ["c1"; "plain"; "dns"])
    as Hthm.
  cbn zeta in Hthm.
  destruct Hthm as (_ & _ & Hthm);
    [reflexivity|intros w w'; repeat split|apply map_Forall_empty|].
  unfold Demo.reconcile. split.
  - rewrite (Hthm "c1" 4242%Z (Demo.mk_labels Demo.web_ports Demo.one_network));
      [vm_compute; reflexivity|set_solver|reflexivity|vm_compute; reflexivity|vm_compute; lia].
  - rewrite (Hthm "dns" 4242%Z (Demo.mk_labels Demo.dns_ports Demo.one_network));
      [vm_compute; reflexivity|set_solver|reflexivity|vm_compute; reflexivity|vm_compute; lia].
Defined.

Lemma reconciler_skips_started_container_witness :
  let s1 := state_of (Demo.on_envelope (Demo.start_env "c1") Demo.start) in
  Demo.initialize "c1" s1 = (tt, s1, []).
Proof.
  apply (reconciler_skips_started_container Demo.host Demo.json_Unmarshal_Ports
     Demo.json_Unmarshal_Strings Demo.chain Demo.range
     Demo.Unmarshal_TaskStart Demo.Unmarshal_ContainerUpdate Demo.Unmarshal_TaskExit
     (Demo.start_env "c1") Demo.start).
  - reflexivity.
  - apply map_Forall_empty.
  - reflexivity.
  - vm_compute. lia.
Defined.

Lemma decode_failure_does_not_stop_handler_witness :
  let s := Demo.tracking "c1" Demo.web in
  let r := onEnvelope Demo.host Demo.json_Unmarshal_Ports Demo.json_Unmarshal_Strings
             Demo.chain Demo.range Cases.Unmarshal_TaskStart Cases.Unmarshal_ContainerUpdate
             Cases.Unmarshal_TaskExit (Demo.exit_env "c1") s in
  state_of r = state_of (Demo.on_envelope (Demo.exit_env "c1") s)
  ∧ tracker_ops (trace_of r) = [EvTrackerRemove "c1"]
  ∧ ErrProto "proto: cannot parse invalid wire-format data" ∈ logged_errors (trace_of r).
Proof.
  pose proof (decode_failure_does_not_stop_handler Demo.host Demo.json_Unmarshal_Ports
     Demo.json_Unmarshal_Strings Demo.chain Demo.range
     Cases.Unmarshal_TaskStart Demo.Unmarshal_TaskStart
     Cases.Unmarshal_ContainerUpdate Demo.Unmarshal_ContainerUpdate
     Cases.Unmarshal_TaskExit Demo.Unmarshal_TaskExit
     (Demo.exit_env "c1") (Demo.tracking "c1" Demo.web)) as Hthm.
  cbn zeta in Hthm.
  destruct Hthm as (H1 & _ & H3 & H4); [by intros v..|].
  cbn zeta. unfold Demo.on_envelope. split; [exact H1|]. split.
  - rewrite H3. vm_compute. reflexivity.
  - apply H4. reflexivity.
Defined.

Lemma update_leaves_extracted_ports_tracked_witness :
  let s := Demo.tracking "c1" Demo.web' in
  let r := Demo.on_envelope (Demo.update_env "c1") s in
  Get "c1" (tracker (state_of r)) = Some Demo.web
  ∧ quiet (state_of r) (Demo.on_envelope (Demo.update_env "c1") (state_of r)).
Proof.
  pose proof (update_leaves_extracted_ports_tracked Demo.host Demo.json_Unmarshal_Ports
     Demo.json_Unmarshal_Strings Demo.chain Demo.range
     Demo.Unmarshal_TaskStart Demo.Unmarshal_ContainerUpdate Demo.Unmarshal_TaskExit
     (Demo.update_env "c1") (Demo.tracking "c1" Demo.web')) as Hthm.
  cbn zeta in Hthm.
  destruct Hthm as (H1 & _ & H3);
    [reflexivity|by apply map_Forall_singleton|vm_compute; lia|].
  cbn zeta. unfold Demo.on_envelope. split.
  - refine (eq_trans H1 _). vm_compute. reflexivity.
  - apply H3. vm_compute. reflexivity.
Defined.

Lemma exit_twice_is_exit_once_witness :
  let r1 := Demo.on_envelope (Demo.exit_env "c1") (Demo.tracking "c1" Demo.web) in
  let r2 := Demo.on_envelope (Demo.exit_env "c1") (state_of r1) in
  tracker_ops (trace_of r2) = [] ∧ exec_cmds (trace_of r2) = []
  ∧ state_of r2 = state_of r1.
Proof.
  apply (exit_twice_is_exit_once Demo.host Demo.json_Unmarshal_Ports
     Demo.json_Unmarshal_Strings Demo.chain Demo.range
     Demo.Unmarshal_TaskStart Demo.Unmarshal_ContainerUpdate Demo.Unmarshal_TaskExit
     (Demo.exit_env "c1") (Demo.tracking "c1" Demo.web)).
  reflexivity.
Defined.

(** A port published on [localhost] is kept under that name, and gets no
    rule. *)
Example localhost_port_gets_no_rule :
  let r := createPortMappingFromString Cases.json_Unmarshal_Ports Cases.localhost_ports in
  r = (Some Cases.localhost, None)
  ∧ Demo.synchronize r.1 "c1" Demo.one_network "default" "4242" Demo.start
    = (None, Demo.start, []).
Proof. vm_compute. split; reflexivity. Qed.

